(** * esp_bus: the bus engine, embedded and verified against its specification

    The development follows the C sources of the component:
    - [src/esp_bus.c]      pattern helpers, worker message processing, module registry;
    - [src/esp_bus_msg.c]  request processing, event dispatch, requests, events, routes;
    - [src/esp_bus_svc.c]  the timer ("service") scheduler;
    - [src/esp_bus_btn.c]  the button module: polling, debounce, registration;
    - [src/esp_bus_led.c]  the LED module: the blink timer.

    Conventions of the embedding.
    - A C string is the list of its characters before the terminating NUL.
    - [esp_err_t] is an integer; the error constants carry the values of
      ESP-IDF's [esp_err.h].
    - The four registries are BSD [SLIST]s: [SLIST_INSERT_HEAD] is [cons],
      [SLIST_FOREACH] walks the list from its head.
    - Payload buffers obtained from [malloc] live in a heap, a finite map from
      block addresses to contents; [free] deletes the block.
    - Outcomes decided by the environment (does [malloc] succeed, does
      [xQueueSend] find room, does the worker answer before the caller's wait
      expires) are explicit boolean arguments of the operation they affect.
    - User callbacks are opaque: request handlers and transforms are functions
      of their arguments, and every invocation is appended to a trace.  What
      a callback does to the bus by calling back into it is not modelled.
    - Logging macros ([ESP_LOGx]) and the registry mutex are not modelled:
      every operation runs to its end before the next one starts.
    - For the two device modules the pin is the environment: the level the
      button reads is an argument of each poll, the levels the LED writes
      are recorded in order.  Their contexts are records passed along; the
      events a poll hands to [esp_bus_emit] are its result. *)

From Stdlib Require Import ZArith Ascii String List Bool Lia.
From stdpp Require Import base list gmap sets.

Local Open Scope char_scope.

(* ===================================================================== *)
(** * Part I. The embedding                                               *)
(* ===================================================================== *)

(** ** C strings *)

Abbreviation cstring := (list ascii).

(** A literal, for examples. *)
Definition cs (s : string) : cstring := list_ascii_of_string s.

(** The terminator, as stored in [*sep] for a bare token. *)
Definition NUL : ascii := Ascii.zero.

(** [include/esp_bus.h]: default sizes of the name and pattern buffers. *)
Definition ESP_BUS_NAME_MAX : nat := 16.
Definition ESP_BUS_PATTERN_MAX : nat := 32.

(** [strchr(s, c)]: offset of the first occurrence of [c], [None] for NULL. *)
Fixpoint strchr (s : cstring) (c : ascii) : option nat :=
  match s with
  | [] => None
  | x :: s' => if Ascii.eqb x c then Some 0%nat else option_map S (strchr s' c)
  end.

(** [strncpy(dst, src, n)] into a zeroed or explicitly terminated buffer:
    the string read back from [dst] holds the first [n] characters of [src]. *)
Definition strncpy (src : cstring) (n : nat) : cstring := take n src.

(** [snprintf(dst, size, "%s:%s", a, b)]: at most [size - 1] characters. *)
Definition snprintf_colon (size : nat) (a b : cstring) : cstring :=
  take (size - 1) (a ++ ":" :: b).

(** ** Pattern matcher ([esp_bus.c], [esp_bus_match_pattern]) *)

(** The statements after the main loop, reached with the target exhausted:
    skip every trailing star of the pattern, then accept when the pattern is
    exhausted as well. *)
Fixpoint only_stars (p : cstring) : bool :=
  match p with
  | [] => true
  | c :: p' => Ascii.eqb c "*" && only_stars p'
  end.

(** The main loop runs while both cursors are before their terminators and
    advances both on a literal match; on a star the inner loop tries the rest
    of the pattern at every remaining non-empty suffix of the target. *)
Fixpoint esp_bus_match_pattern (pattern target : cstring) {struct pattern} : bool :=
  match pattern with
  | [] =>
      match target with
      | [] => true
      | _ :: _ => false
      end
  | c :: p =>
      match target with
      | [] => only_stars (c :: p)
      | d :: t =>
          if Ascii.eqb c "*" then
            match p with
            | [] => true
            | _ :: _ =>
                (fix scan (u : cstring) : bool :=
                   match u with
                   | [] => false
                   | _ :: u' => if esp_bus_match_pattern p u then true else scan u'
                   end) (d :: t)
            end
          else if negb (Ascii.eqb c d) then false
          else esp_bus_match_pattern p t
      end
  end.

(** The inner loop on its own, for the proofs. *)
Fixpoint scan_suffixes (p u : cstring) : bool :=
  match u with
  | [] => false
  | _ :: u' => if esp_bus_match_pattern p u then true else scan_suffixes p u'
  end.

(** The glob language of the specification: ['*'] stands for any string,
    every other character for itself, and the pattern accounts for the whole
    target. *)
Inductive glob : cstring -> cstring -> Prop :=
| glob_nil : glob [] []
| glob_star p t1 t2 : glob p t2 -> glob ("*" :: p) (t1 ++ t2)
| glob_char c p t : c <> "*" -> glob p t -> glob (c :: p) (c :: t).

(** ** Address parser ([esp_bus.c], [esp_bus_parse_pattern]) *)

(** The result is [None] when the function returns [false]; otherwise the
    contents of the [module], [action] and [sep] out-parameters. *)
Definition esp_bus_parse_pattern (pattern : cstring) : option (cstring * cstring * ascii) :=
  let dot := strchr pattern "." in
  let colon := strchr pattern ":" in
  match dot with
  | Some len =>
      if (ESP_BUS_NAME_MAX <=? len)%nat then None
      else Some (strncpy pattern len,
                 strncpy (drop (S len) pattern) (ESP_BUS_NAME_MAX - 1), ".")
  | None =>
      match colon with
      | Some len =>
          if (ESP_BUS_NAME_MAX <=? len)%nat then None
          else Some (strncpy pattern len,
                     strncpy (drop (S len) pattern) (ESP_BUS_NAME_MAX - 1), ":")
      | None => Some (strncpy pattern (ESP_BUS_NAME_MAX - 1), [], NUL)
      end
  end.

(** The parser as the specification words it: split at the first character
    that is ['.'] or [':'], whichever comes first; the text before it is the
    module, the text after it the action; a token with neither is a module
    with an empty action; a module segment of [ESP_BUS_NAME_MAX] characters
    or more is a failure. *)
Fixpoint first_separator (s : cstring) : option nat :=
  match s with
  | [] => None
  | x :: s' =>
      if Ascii.eqb x "." || Ascii.eqb x ":" then Some 0%nat
      else option_map S (first_separator s')
  end.

Definition spec_parse_pattern (pattern : cstring) : option (cstring * cstring * ascii) :=
  match first_separator pattern with
  | Some i =>
      if (ESP_BUS_NAME_MAX <=? i)%nat then None
      else Some (take i pattern, drop (S i) pattern, nth i pattern NUL)
  | None =>
      if (ESP_BUS_NAME_MAX <=? length pattern)%nat then None
      else Some (pattern, [], NUL)
  end.

(** ** Values shared by the data model *)

(** [esp_err_t] and the constants of ESP-IDF's [esp_err.h] used by the bus. *)
Definition esp_err_t := Z.
Definition ESP_OK : esp_err_t := 0%Z.
Definition ESP_ERR_NO_MEM : esp_err_t := 0x101%Z.
Definition ESP_ERR_INVALID_ARG : esp_err_t := 0x102%Z.
Definition ESP_ERR_INVALID_STATE : esp_err_t := 0x103%Z.
Definition ESP_ERR_NOT_FOUND : esp_err_t := 0x105%Z.
Definition ESP_ERR_NOT_SUPPORTED : esp_err_t := 0x106%Z.
Definition ESP_ERR_TIMEOUT : esp_err_t := 0x107%Z.

(** Two's-complement reduction to [int], [int64_t], and the cast to [uint32_t]. *)
Definition wrap32 (z : Z) : Z := ((z + 2 ^ 31) mod 2 ^ 32 - 2 ^ 31)%Z.
Definition wrap64 (z : Z) : Z := ((z + 2 ^ 63) mod 2 ^ 64 - 2 ^ 63)%Z.
Definition to_uint32 (z : Z) : Z := (z mod 2 ^ 32)%Z.

Abbreviation bytes := (list Byte.byte).
(** Address of a callback that returns nothing, and an opaque [void *ctx]. *)
Abbreviation fnptr := nat (only parsing).
Abbreviation ctxptr := Z (only parsing).

(** [strcmp(a, b) == 0]. *)
Definition streq (a b : cstring) : bool :=
  if List.list_eq_dec ascii_dec a b then true else false.

(** The caller's response arguments [res], [res_size], [res_len]: is the
    buffer pointer non-null, its capacity, is the length pointer non-null. *)
Record res_slot := { res_buf : bool; res_size : nat; res_len : bool }.

(** [NULL, 0, NULL], as passed by routed requests. *)
Definition no_res : res_slot := {| res_buf := false; res_size := 0; res_len := false |}.

(** What a request handler stored through [res] and through [res_len]. *)
Record res_out := { res_written : option bytes; res_len_written : option nat }.
Definition no_out : res_out := {| res_written := None; res_len_written := None |}.

(** [esp_bus_req_fn]: action, request bytes (NULL is [None]) and length,
    response arguments, context; returns the error code and what it wrote. *)
Definition esp_bus_req_fn : Type :=
  cstring -> option bytes -> nat -> res_slot -> ctxptr -> esp_err_t * res_out.

(** [esp_bus_transform_fn]: event, payload, length, context; returns the
    contents of [out_req], [out_data] and [out_len]. *)
Definition esp_bus_transform_fn : Type :=
  cstring -> option bytes -> nat -> ctxptr -> option cstring * option bytes * nat.

(** [esp_bus_module_t], the registration record of [esp_bus.h].  A schema
    table is the list of the names it declares. *)
Record esp_bus_module_t := {
  name : option cstring;
  on_req : option esp_bus_req_fn;
  on_evt : option fnptr;
  ctx : ctxptr;
  actions : list cstring;
  events : list cstring
}.

(** ** Registry nodes and envelopes ([esp_bus_priv.h]) *)

Record module_node_t := {
  mod_name : cstring;
  mod_on_req : option esp_bus_req_fn;
  mod_on_evt : option fnptr;
  mod_ctx : ctxptr;
  mod_actions : list cstring;
  mod_events : list cstring
}.

Record sub_node_t := {
  sub_id : Z;
  sub_pattern : cstring;
  sub_handler : fnptr;
  sub_ctx : ctxptr
}.

Record route_node_t := {
  evt_pattern : cstring;
  req_pattern : cstring;
  req_data : option positive;
  req_len : nat;
  transform : option esp_bus_transform_fn;
  route_ctx : ctxptr
}.

Record svc_node_t := {
  svc_id : Z;
  svc_fn : fnptr;
  svc_ctx : ctxptr;
  interval_ms : Z;
  next_run_us : Z;
  svc_repeat : bool
}.

Inductive msg_type_t := MSG_REQ | MSG_EVT | MSG_TRIGGER.

(** [message_t].  [msg_data] points into the heap; [msg_result] tells whether
    the pointer to the caller's result variable is set; [msg_done] is the
    handle of the caller's semaphore. *)
Record message_t := {
  msg_type : msg_type_t;
  msg_pattern : cstring;
  msg_data : option positive;
  msg_len : nat;
  msg_res : res_slot;
  msg_result : bool;
  msg_done : option positive
}.

(** Invocations of user code and of the caller's semaphore, in order. *)
Inductive call :=
| CallReq (module action : cstring) (req : option bytes) (len : nat) (res : res_slot) (c : ctxptr)
| CallSub (id : Z) (handler : fnptr) (evt : cstring) (data : option bytes) (len : nat) (c : ctxptr)
| CallTransform (route_evt evt : cstring) (data : option bytes) (len : nat) (c : ctxptr)
| CallOnErr (pattern : cstring) (err : esp_err_t) (msg : cstring)
| CallSvc (id : Z) (fn : fnptr) (c : ctxptr)
| SemGive (done : positive).

(** ** Bus state *)

(** [esp_bus_state_t] ([g_bus]) together with what its handles and pointers
    refer to: the contents of the queue, the heap of payload buffers, the
    live semaphores, and the trace of invocations made so far. *)
Record esp_bus_state_t := {
  g_initialized : bool;
  g_strict : bool;
  g_on_err : option fnptr;
  g_modules : list module_node_t;
  g_subs : list sub_node_t;
  g_routes : list route_node_t;
  g_services : list svc_node_t;
  g_next_sub_id : Z;
  g_next_svc_id : Z;
  g_task : option nat;
  bus_queue : list message_t;
  bus_heap : gmap positive bytes;
  bus_sems : gset positive;
  bus_trace : list call
}.

Definition set_strict (v : bool) (w : esp_bus_state_t) : esp_bus_state_t :=
  {| g_initialized := g_initialized w; g_strict := v; g_on_err := g_on_err w;
     g_modules := g_modules w; g_subs := g_subs w; g_routes := g_routes w;
     g_services := g_services w; g_next_sub_id := g_next_sub_id w;
     g_next_svc_id := g_next_svc_id w; g_task := g_task w;
     bus_queue := bus_queue w; bus_heap := bus_heap w; bus_sems := bus_sems w;
     bus_trace := bus_trace w |}.

Definition set_modules (v : list module_node_t) (w : esp_bus_state_t) : esp_bus_state_t :=
  {| g_initialized := g_initialized w; g_strict := g_strict w; g_on_err := g_on_err w;
     g_modules := v; g_subs := g_subs w; g_routes := g_routes w;
     g_services := g_services w; g_next_sub_id := g_next_sub_id w;
     g_next_svc_id := g_next_svc_id w; g_task := g_task w;
     bus_queue := bus_queue w; bus_heap := bus_heap w; bus_sems := bus_sems w;
     bus_trace := bus_trace w |}.

(** The subscription list together with the id counter [next_sub_id]. *)
Definition set_subs (v : list sub_node_t) (next : Z) (w : esp_bus_state_t) : esp_bus_state_t :=
  {| g_initialized := g_initialized w; g_strict := g_strict w; g_on_err := g_on_err w;
     g_modules := g_modules w; g_subs := v; g_routes := g_routes w;
     g_services := g_services w; g_next_sub_id := next;
     g_next_svc_id := g_next_svc_id w; g_task := g_task w;
     bus_queue := bus_queue w; bus_heap := bus_heap w; bus_sems := bus_sems w;
     bus_trace := bus_trace w |}.

Definition set_routes (v : list route_node_t) (w : esp_bus_state_t) : esp_bus_state_t :=
  {| g_initialized := g_initialized w; g_strict := g_strict w; g_on_err := g_on_err w;
     g_modules := g_modules w; g_subs := g_subs w; g_routes := v;
     g_services := g_services w; g_next_sub_id := g_next_sub_id w;
     g_next_svc_id := g_next_svc_id w; g_task := g_task w;
     bus_queue := bus_queue w; bus_heap := bus_heap w; bus_sems := bus_sems w;
     bus_trace := bus_trace w |}.

Definition set_services (v : list svc_node_t) (w : esp_bus_state_t) : esp_bus_state_t :=
  {| g_initialized := g_initialized w; g_strict := g_strict w; g_on_err := g_on_err w;
     g_modules := g_modules w; g_subs := g_subs w; g_routes := g_routes w;
     g_services := v; g_next_sub_id := g_next_sub_id w;
     g_next_svc_id := g_next_svc_id w; g_task := g_task w;
     bus_queue := bus_queue w; bus_heap := bus_heap w; bus_sems := bus_sems w;
     bus_trace := bus_trace w |}.

(** The service list together with the id counter [next_svc_id]. *)
Definition set_services_next (v : list svc_node_t) (next : Z) (w : esp_bus_state_t)
  : esp_bus_state_t :=
  {| g_initialized := g_initialized w; g_strict := g_strict w; g_on_err := g_on_err w;
     g_modules := g_modules w; g_subs := g_subs w; g_routes := g_routes w;
     g_services := v; g_next_sub_id := g_next_sub_id w;
     g_next_svc_id := next; g_task := g_task w;
     bus_queue := bus_queue w; bus_heap := bus_heap w; bus_sems := bus_sems w;
     bus_trace := bus_trace w |}.

Definition set_queue (v : list message_t) (w : esp_bus_state_t) : esp_bus_state_t :=
  {| g_initialized := g_initialized w; g_strict := g_strict w; g_on_err := g_on_err w;
     g_modules := g_modules w; g_subs := g_subs w; g_routes := g_routes w;
     g_services := g_services w; g_next_sub_id := g_next_sub_id w;
     g_next_svc_id := g_next_svc_id w; g_task := g_task w;
     bus_queue := v; bus_heap := bus_heap w; bus_sems := bus_sems w;
     bus_trace := bus_trace w |}.

Definition set_heap (v : gmap positive bytes) (w : esp_bus_state_t) : esp_bus_state_t :=
  {| g_initialized := g_initialized w; g_strict := g_strict w; g_on_err := g_on_err w;
     g_modules := g_modules w; g_subs := g_subs w; g_routes := g_routes w;
     g_services := g_services w; g_next_sub_id := g_next_sub_id w;
     g_next_svc_id := g_next_svc_id w; g_task := g_task w;
     bus_queue := bus_queue w; bus_heap := v; bus_sems := bus_sems w;
     bus_trace := bus_trace w |}.

Definition set_sems (v : gset positive) (w : esp_bus_state_t) : esp_bus_state_t :=
  {| g_initialized := g_initialized w; g_strict := g_strict w; g_on_err := g_on_err w;
     g_modules := g_modules w; g_subs := g_subs w; g_routes := g_routes w;
     g_services := g_services w; g_next_sub_id := g_next_sub_id w;
     g_next_svc_id := g_next_svc_id w; g_task := g_task w;
     bus_queue := bus_queue w; bus_heap := bus_heap w; bus_sems := v;
     bus_trace := bus_trace w |}.

Definition set_trace (v : list call) (w : esp_bus_state_t) : esp_bus_state_t :=
  {| g_initialized := g_initialized w; g_strict := g_strict w; g_on_err := g_on_err w;
     g_modules := g_modules w; g_subs := g_subs w; g_routes := g_routes w;
     g_services := g_services w; g_next_sub_id := g_next_sub_id w;
     g_next_svc_id := g_next_svc_id w; g_task := g_task w;
     bus_queue := bus_queue w; bus_heap := bus_heap w; bus_sems := bus_sems w;
     bus_trace := v |}.

(** A user callback, the error callback or [xSemaphoreGive] is invoked. *)
Definition invoke (c : call) (w : esp_bus_state_t) : esp_bus_state_t :=
  set_trace (bus_trace w ++ [c]) w.

(** ** Memory and FreeRTOS primitives *)

(** [malloc]: on success a block at an address not in use. *)
Definition malloc (ok : bool) (w : esp_bus_state_t) : option positive * esp_bus_state_t :=
  if ok then
    let p := fresh (dom (bus_heap w)) in
    (Some p, set_heap (<[p := []]> (bus_heap w)) w)
  else (None, w).

(** [memcpy(p, src, n)]: the first [n] bytes of the caller's buffer. *)
Definition memcpy (p : positive) (src : bytes) (n : nat) (w : esp_bus_state_t) : esp_bus_state_t :=
  set_heap (<[p := take n src]> (bus_heap w)) w.

(** [if (p) free(p)]. *)
Definition free (p : option positive) (w : esp_bus_state_t) : esp_bus_state_t :=
  match p with
  | Some q => set_heap (delete q (bus_heap w)) w
  | None => w
  end.

(** The bytes a callback reads through a payload pointer. *)
Definition load (w : esp_bus_state_t) (p : option positive) : option bytes :=
  match p with
  | Some q => Some (default [] (bus_heap w !! q))
  | None => None
  end.

(** [xSemaphoreCreateBinary] and [vSemaphoreDelete]. *)
Definition xSemaphoreCreateBinary (ok : bool) (w : esp_bus_state_t)
  : option positive * esp_bus_state_t :=
  if ok then
    let s := fresh (bus_sems w) in
    (Some s, set_sems ({[s]} ∪ bus_sems w) w)
  else (None, w).

Definition vSemaphoreDelete (s : positive) (w : esp_bus_state_t) : esp_bus_state_t :=
  set_sems (bus_sems w ∖ {[s]}) w.

(** [xQueueSend]: [ok] tells whether room was found within the wait. *)
Definition xQueueSend (ok : bool) (msg : message_t) (w : esp_bus_state_t)
  : bool * esp_bus_state_t :=
  if ok then (true, set_queue (bus_queue w ++ [msg]) w) else (false, w).

(** ** Helpers of [esp_bus.c] *)

(** [esp_bus_find_module]: first node of the list whose name compares equal. *)
Fixpoint find_module_in (mods : list module_node_t) (nm : cstring) : option module_node_t :=
  match mods with
  | [] => None
  | node :: rest =>
      if streq (mod_name node) nm then Some node else find_module_in rest nm
  end.

Definition esp_bus_find_module (nm : cstring) (w : esp_bus_state_t) : option module_node_t :=
  find_module_in (g_modules w) nm.

(** [esp_bus_report_error]: the error callback, when one is installed. *)
Definition esp_bus_report_error (pattern : cstring) (err : esp_err_t) (msg : cstring)
    (w : esp_bus_state_t) : esp_bus_state_t :=
  match g_on_err w with
  | Some _ => invoke (CallOnErr pattern err msg) w
  | None => w
  end.

(** ** Request processing ([esp_bus_msg.c]) *)

Definition esp_bus_process_request (pattern : cstring) (req : option bytes) (len : nat)
    (res : res_slot) (w : esp_bus_state_t) : (esp_err_t * res_out) * esp_bus_state_t :=
  let invalid :=
    ((ESP_ERR_INVALID_ARG, no_out),
     esp_bus_report_error pattern ESP_ERR_INVALID_ARG (cs "invalid pattern") w) in
  match esp_bus_parse_pattern pattern with
  | None => invalid
  | Some (module_name, action, sep) =>
      if negb (Ascii.eqb sep ".") then invalid
      else
        match esp_bus_find_module module_name w with
        | None =>
            if g_strict w then
              ((ESP_ERR_NOT_FOUND, no_out),
               esp_bus_report_error pattern ESP_ERR_NOT_FOUND (cs "module not found") w)
            else ((ESP_OK, no_out), w)
        | Some node =>
            match mod_on_req node with
            | None =>
                ((ESP_ERR_NOT_SUPPORTED, no_out),
                 esp_bus_report_error pattern ESP_ERR_NOT_SUPPORTED (cs "no handler") w)
            | Some handler =>
                (handler action req len res (mod_ctx node),
                 invoke (CallReq (mod_name node) action req len res (mod_ctx node)) w)
            end
        end
  end.

(** ** Event dispatch ([esp_bus_msg.c]) *)

Definition dispatch_sub (evt full : cstring) (data : option bytes) (len : nat)
    (w : esp_bus_state_t) (sub : sub_node_t) : esp_bus_state_t :=
  if esp_bus_match_pattern (sub_pattern sub) full then
    invoke (CallSub (sub_id sub) (sub_handler sub) evt data len (sub_ctx sub)) w
  else w.

Definition dispatch_route (evt full : cstring) (data : option bytes) (len : nat)
    (w : esp_bus_state_t) (r : route_node_t) : esp_bus_state_t :=
  if negb (esp_bus_match_pattern (evt_pattern r) full) then w
  else
    match transform r with
    | Some fn =>
        let '(out_req, out_data, out_len) := fn evt data len (route_ctx r) in
        let w1 := invoke (CallTransform (evt_pattern r) evt data len (route_ctx r)) w in
        match out_req with
        | Some q => snd (esp_bus_process_request q out_data out_len no_res w1)
        | None => w1
        end
    | None =>
        snd (esp_bus_process_request (req_pattern r) (load w (req_data r)) (req_len r) no_res w)
    end.

Definition esp_bus_dispatch_event (src evt : cstring) (data : option bytes) (len : nat)
    (w : esp_bus_state_t) : esp_bus_state_t :=
  let full := snprintf_colon ESP_BUS_PATTERN_MAX src evt in
  let w1 := fold_left (dispatch_sub evt full data len) (g_subs w) w in
  fold_left (dispatch_route evt full data len) (g_routes w1) w1.

(** ** The worker's message processing ([esp_bus.c], [process_message]) *)

(** Returns what the worker wrote for the caller: the value stored through
    [msg->result] when that pointer is set, and the handler's response. *)
Definition process_message (msg : message_t) (w : esp_bus_state_t)
  : (option esp_err_t * res_out) * esp_bus_state_t :=
  match msg_type msg with
  | MSG_REQ =>
      let '((err, out), w1) :=
        esp_bus_process_request (msg_pattern msg) (load w (msg_data msg)) (msg_len msg)
          (msg_res msg) w in
      let stored := if msg_result msg then Some err else None in
      let w2 := match msg_done msg with
                | Some done => invoke (SemGive done) w1
                | None => w1
                end in
      ((stored, out), free (msg_data msg) w2)
  | MSG_EVT =>
      let w1 :=
        match esp_bus_parse_pattern (msg_pattern msg) with
        | Some (module, event, sep) =>
            if Ascii.eqb sep ":" then
              esp_bus_dispatch_event module event (load w (msg_data msg)) (msg_len msg) w
            else w
        | None => w
        end in
      ((None, no_out), free (msg_data msg) w1)
  | MSG_TRIGGER => ((None, no_out), w)
  end.

(** The worker receives and processes every queued envelope, oldest first
    (the receive and drain loops of [bus_task]); the result is what it wrote
    for the sender of the last one. *)
Fixpoint worker_run (q : list message_t) (last : option esp_err_t * res_out)
    (w : esp_bus_state_t) : (option esp_err_t * res_out) * esp_bus_state_t :=
  match q with
  | [] => (last, w)
  | m :: q' => let '(r, w') := process_message m w in worker_run q' r w'
  end.

Definition worker_drain (w : esp_bus_state_t)
  : (option esp_err_t * res_out) * esp_bus_state_t :=
  worker_run (bus_queue w) (None, no_out) (set_queue [] w).

(** ** The payload copy of [esp_bus_req] and [esp_bus_emit] *)

(** Both functions copy the caller's payload with the same statements: when
    the pointer is set and the length positive, [malloc], give up if it
    fails, [memcpy] and record the length.  The result is [None] when the
    function gives up, otherwise the envelope's [data] and [len] fields. *)
Definition copy_payload (ok : bool) (src : option bytes) (len : nat) (w : esp_bus_state_t)
  : option (option positive * nat * esp_bus_state_t) :=
  match src with
  | Some bs =>
      if (0 <? len)%nat then
        match malloc ok w with
        | (Some p, w1) => Some (Some p, len, memcpy p bs len w1)
        | (None, _) => None
        end
      else Some (None, 0%nat, w)
  | None => Some (None, 0%nat, w)
  end.

(** ** Requests ([esp_bus_msg.c], [esp_bus_req]) *)

(** What the environment decides during one call. *)
Record req_env := {
  payload_alloc_ok : bool;  (* malloc of the payload copy succeeds *)
  sem_alloc_ok : bool;      (* xSemaphoreCreateBinary succeeds *)
  send_ok : bool;           (* xQueueSend finds room within the timeout *)
  worker_ran : bool         (* the worker reaches the envelope before the wait expires *)
}.

(** [caller] is the handle returned by [xTaskGetCurrentTaskHandle]. *)
Definition on_worker (caller : nat) (w : esp_bus_state_t) : bool :=
  match g_task w with
  | Some t => Nat.eqb caller t
  | None => false
  end.

Definition esp_bus_req (env : req_env) (caller : nat) (pattern : option cstring)
    (req : option bytes) (len : nat) (res : res_slot) (timeout_ms : Z)
    (w : esp_bus_state_t) : (esp_err_t * res_out) * esp_bus_state_t :=
  match pattern with
  | None => ((ESP_ERR_INVALID_ARG, no_out), w)
  | Some pattern =>
    if negb (g_initialized w) then ((ESP_ERR_INVALID_ARG, no_out), w)
    else if on_worker caller w then esp_bus_process_request pattern req len res w
    else
      let pat := strncpy pattern (ESP_BUS_PATTERN_MAX - 1) in
      match copy_payload (payload_alloc_ok env) req len w with
      | None => ((ESP_ERR_NO_MEM, no_out), w)
      | Some (data, dlen, w1) =>
          (* the handoff signal, for a caller willing to wait *)
          let '(done, result_set, w2) :=
            if (0 <? timeout_ms)%Z then
              let '(d, w2) := xSemaphoreCreateBinary (sem_alloc_ok env) w1 in (d, true, w2)
            else (None, false, w1) in
          let msg := {| msg_type := MSG_REQ; msg_pattern := pat; msg_data := data;
                        msg_len := dlen; msg_res := res; msg_result := result_set;
                        msg_done := done |} in
          match xQueueSend (send_ok env) msg w2 with
          | (false, w3) =>
              let w4 := free data w3 in
              let w5 := match done with Some s => vSemaphoreDelete s w4 | None => w4 end in
              ((ESP_ERR_TIMEOUT, no_out), w5)
          | (true, w3) =>
              match done with
              | Some s =>
                  if worker_ran env then
                    (* the worker consumes the queue up to this envelope, the
                       last one, and gives the semaphore; the caller returns
                       its own result variable, ESP_OK unless stored to *)
                    let '((stored, out), w4) := worker_drain w3 in
                    ((default ESP_OK stored, out), vSemaphoreDelete s w4)
                  else ((ESP_ERR_TIMEOUT, no_out), vSemaphoreDelete s w3)
              | None => ((ESP_OK, no_out), w3)
              end
          end
      end
  end.

(** ** Events ([esp_bus_msg.c], [esp_bus_emit]) *)

Definition esp_bus_emit (alloc_ok queue_ok : bool) (src evt : option cstring)
    (data : option bytes) (len : nat) (w : esp_bus_state_t) : esp_err_t * esp_bus_state_t :=
  match src, evt with
  | Some src, Some evt =>
    if negb (g_initialized w) then (ESP_ERR_INVALID_ARG, w)
    else
      let pat := snprintf_colon ESP_BUS_PATTERN_MAX src evt in
      match copy_payload alloc_ok data len w with
      | None => (ESP_ERR_NO_MEM, w)
      | Some (p, dlen, w1) =>
          let msg := {| msg_type := MSG_EVT; msg_pattern := pat; msg_data := p;
                        msg_len := dlen; msg_res := no_res; msg_result := false;
                        msg_done := None |} in
          match xQueueSend queue_ok msg w1 with
          | (false, w2) => (ESP_ERR_TIMEOUT, free p w2)
          | (true, w2) => (ESP_OK, w2)
          end
      end
  | _, _ => (ESP_ERR_INVALID_ARG, w)
  end.

(** [esp_bus_sub]; the result is the subscription id, [-1] on failure.
    [node_ok] is the outcome of the [calloc] of the node. *)
Definition esp_bus_sub (node_ok : bool) (pattern : option cstring) (handler : option fnptr)
    (c : ctxptr) (w : esp_bus_state_t) : Z * esp_bus_state_t :=
  match pattern, handler with
  | Some pattern, Some handler =>
    if negb (g_initialized w) then ((-1)%Z, w)
    else if negb node_ok then ((-1)%Z, w)
    else
      let node := {| sub_id := g_next_sub_id w;
                     sub_pattern := strncpy pattern (ESP_BUS_PATTERN_MAX - 1);
                     sub_handler := handler; sub_ctx := c |} in
      (sub_id node, set_subs (node :: g_subs w) (wrap32 (g_next_sub_id w + 1)) w)
  | _, _ => ((-1)%Z, w)
  end.

(** ** Routes ([esp_bus_msg.c]) *)

(** [esp_bus_on].  [node_ok] and [data_ok] are the outcomes of the [calloc]
    of the node and of the [malloc] of the payload copy. *)
Definition esp_bus_on (node_ok data_ok : bool) (evt req : option cstring)
    (data : option bytes) (len : nat) (w : esp_bus_state_t) : esp_err_t * esp_bus_state_t :=
  match evt, req with
  | Some evt, Some req =>
    if negb (g_initialized w) then (ESP_ERR_INVALID_ARG, w)
    else if negb node_ok then (ESP_ERR_NO_MEM, w)
    else
      let '(p, dlen, w1) :=
        match data with
        | Some bs =>
            if (0 <? len)%nat then
              match malloc data_ok w with
              | (Some p, w1) => (Some p, len, memcpy p bs len w1)
              | (None, w1) => (None, 0%nat, w1)
              end
            else (None, 0%nat, w)
        | None => (None, 0%nat, w)
        end in
      let node := {| evt_pattern := strncpy evt (ESP_BUS_PATTERN_MAX - 1);
                     req_pattern := strncpy req (ESP_BUS_PATTERN_MAX - 1);
                     req_data := p; req_len := dlen;
                     transform := None; route_ctx := 0%Z |} in
      (ESP_OK, set_routes (node :: g_routes w1) w1)
  | _, _ => (ESP_ERR_INVALID_ARG, w)
  end.

(** [esp_bus_on_fn]. *)
Definition esp_bus_on_fn (node_ok : bool) (evt : option cstring)
    (fn : option esp_bus_transform_fn) (c : ctxptr) (w : esp_bus_state_t)
  : esp_err_t * esp_bus_state_t :=
  match evt, fn with
  | Some evt, Some fn =>
    if negb (g_initialized w) then (ESP_ERR_INVALID_ARG, w)
    else if negb node_ok then (ESP_ERR_NO_MEM, w)
    else
      let node := {| evt_pattern := strncpy evt (ESP_BUS_PATTERN_MAX - 1);
                     req_pattern := []; req_data := None; req_len := 0%nat;
                     transform := Some fn; route_ctx := c |} in
      (ESP_OK, set_routes (node :: g_routes w) w)
  | _, _ => (ESP_ERR_INVALID_ARG, w)
  end.

(** The test of [esp_bus_off] on one route: the event patterns compare
    equal, and the request filter is NULL or compares equal as well. *)
Definition off_selects (evt : cstring) (req : option cstring) (r : route_node_t) : bool :=
  if streq (evt_pattern r) evt then
    match req with
    | None => true
    | Some q => streq (req_pattern r) q
    end
  else false.

(** The [SLIST_FOREACH_SAFE] loop of [esp_bus_off]: a selected route is
    unlinked and its payload freed. *)
Fixpoint off_sweep (evt : cstring) (req : option cstring) (rs : list route_node_t)
    (w : esp_bus_state_t) : list route_node_t * esp_bus_state_t :=
  match rs with
  | [] => ([], w)
  | r :: rest =>
      if off_selects evt req r then off_sweep evt req rest (free (req_data r) w)
      else let '(rest', w') := off_sweep evt req rest w in (r :: rest', w')
  end.

Definition esp_bus_off (evt req : option cstring) (w : esp_bus_state_t)
  : esp_err_t * esp_bus_state_t :=
  match evt with
  | Some evt =>
    if negb (g_initialized w) then (ESP_ERR_INVALID_ARG, w)
    else
      let '(rs, w1) := off_sweep evt req (g_routes w) w in
      (ESP_OK, set_routes rs w1)
  | None => (ESP_ERR_INVALID_ARG, w)
  end.

(** ** Lifecycle, registration and queries ([esp_bus.c]) *)

(** [esp_bus_init].  The three arguments are the outcomes of creating the
    queue, the mutex and the worker task; [worker] is the new task's handle. *)
Definition esp_bus_init (queue_ok mutex_ok task_ok : bool) (worker : nat)
    (w : esp_bus_state_t) : esp_err_t * esp_bus_state_t :=
  if g_initialized w then (ESP_OK, w)
  else
    let zeroed t ini :=
      {| g_initialized := ini; g_strict := false; g_on_err := None;
         g_modules := []; g_subs := []; g_routes := []; g_services := [];
         g_next_sub_id := 0; g_next_svc_id := 0; g_task := t;
         bus_queue := []; bus_heap := bus_heap w; bus_sems := bus_sems w;
         bus_trace := bus_trace w |} in
    if negb queue_ok then (ESP_ERR_NO_MEM, zeroed None false)
    else if negb mutex_ok then (ESP_ERR_NO_MEM, zeroed None false)
    else if negb task_ok then (ESP_ERR_NO_MEM, zeroed None false)
    else (ESP_OK, zeroed (Some worker) true).

(** Memory before the first [esp_bus_init]: [g_bus] is a zeroed global. *)
Definition boot : esp_bus_state_t :=
  {| g_initialized := false; g_strict := false; g_on_err := None;
     g_modules := []; g_subs := []; g_routes := []; g_services := [];
     g_next_sub_id := 0; g_next_svc_id := 0; g_task := None;
     bus_queue := []; bus_heap := ∅; bus_sems := ∅; bus_trace := [] |}.

(** [esp_bus_reg].  [node_ok] is the outcome of the [calloc] of the node. *)
Definition esp_bus_reg (node_ok : bool) (module : option esp_bus_module_t)
    (w : esp_bus_state_t) : esp_err_t * esp_bus_state_t :=
  match module with
  | Some m =>
    match name m with
    | Some nm =>
      if negb (g_initialized w) then (ESP_ERR_INVALID_ARG, w)
      else
        match esp_bus_find_module nm w with
        | Some _ => (ESP_ERR_INVALID_STATE, w)
        | None =>
            if negb node_ok then (ESP_ERR_NO_MEM, w)
            else
              let node := {| mod_name := strncpy nm (ESP_BUS_NAME_MAX - 1);
                             mod_on_req := on_req m; mod_on_evt := on_evt m;
                             mod_ctx := ctx m; mod_actions := actions m;
                             mod_events := events m |} in
              (ESP_OK, set_modules (node :: g_modules w) w)
        end
    | None => (ESP_ERR_INVALID_ARG, w)
    end
  | None => (ESP_ERR_INVALID_ARG, w)
  end.

(** [esp_bus_exists]. *)
Definition esp_bus_exists (module : option cstring) (w : esp_bus_state_t) : bool :=
  match module with
  | Some nm =>
      if negb (g_initialized w) then false
      else match esp_bus_find_module nm w with Some _ => true | None => false end
  | None => false
  end.

(** [esp_bus_strict]. *)
Definition esp_bus_strict (enable : bool) (w : esp_bus_state_t) : esp_err_t * esp_bus_state_t :=
  (ESP_OK, set_strict enable w).

(** ** Timer scheduler ([esp_bus_svc.c]) *)

(** One iteration of the loop of [esp_bus_calc_next_wait]. *)
Definition next_wait_step (now min_wait : Z) (s : svc_node_t) : Z :=
  if (0 <? next_run_us s)%Z then
    let wait := wrap64 (next_run_us s - now) in
    let wait := if (wait <? 1000)%Z then 1000%Z else wait in
    if (wait <? min_wait)%Z then wait else min_wait
  else min_wait.

(** [esp_bus_calc_next_wait]; [now] is the value of [esp_bus_now_us()]. *)
Definition esp_bus_calc_next_wait (now : Z) (w : esp_bus_state_t) : Z :=
  let min_wait := fold_left (next_wait_step now) (g_services w) 100000%Z in
  let wait_ms := to_uint32 (min_wait ÷ 1000) in
  if (0 <? wait_ms)%Z then wait_ms else 1%Z.

Definition set_next_run (v : Z) (s : svc_node_t) : svc_node_t :=
  {| svc_id := svc_id s; svc_fn := svc_fn s; svc_ctx := svc_ctx s;
     interval_ms := interval_ms s; next_run_us := v; svc_repeat := svc_repeat s |}.

(** First loop of [esp_bus_run_services]: fire what is due, rearm or retire.
    The node's id is recorded with the invocation to tell timers apart. *)
Fixpoint run_due (now : Z) (ss : list svc_node_t) (w : esp_bus_state_t)
  : list svc_node_t * esp_bus_state_t :=
  match ss with
  | [] => ([], w)
  | s :: rest =>
      let '(s', w1) :=
        if (next_run_us s <=? 0)%Z then (s, w)
        else if (next_run_us s <=? now)%Z then
          let w1 := invoke (CallSvc (svc_id s) (svc_fn s) (svc_ctx s)) w in
          if svc_repeat s
          then (set_next_run (wrap64 (now + interval_ms s * 1000)) s, w1)
          else (set_next_run 0 s, w1)
        else (s, w) in
      let '(rest', w2) := run_due now rest w1 in
      (s' :: rest', w2)
  end.

(** The test of the second loop: a one-shot timer marked retired. *)
Definition retired (s : svc_node_t) : bool :=
  negb (svc_repeat s) && (next_run_us s =? 0)%Z.

(** [esp_bus_run_services]; [now] is the value of [esp_bus_now_us()]. *)
Definition esp_bus_run_services (now : Z) (w : esp_bus_state_t) : esp_bus_state_t :=
  let '(ss, w1) := run_due now (g_services w) w in
  set_services (List.filter (fun s => negb (retired s)) ss) w1.

(** Successive sweeps of the worker loop, at the given reading of the clock. *)
Definition run_sweeps (nows : list Z) (w : esp_bus_state_t) : esp_bus_state_t :=
  fold_left (fun w' now => esp_bus_run_services now w') nows w.

(** [esp_bus_trigger]: a wake-only envelope, dropped when the queue is full. *)
Definition esp_bus_trigger (queue_ok : bool) (w : esp_bus_state_t) : esp_bus_state_t :=
  if negb (g_initialized w) then w
  else
    snd (xQueueSend queue_ok
           {| msg_type := MSG_TRIGGER; msg_pattern := []; msg_data := None; msg_len := 0;
              msg_res := no_res; msg_result := false; msg_done := None |} w).

(** [add_service]; the result is the timer id, [-1] on failure.  [node_ok]
    is the outcome of the [calloc] of the node, [queue_ok] that of the wake-up
    enqueue, [now] the value of [esp_bus_now_us()]. *)
Definition add_service (node_ok queue_ok : bool) (now : Z) (fn : option fnptr)
    (interval : Z) (c : ctxptr) (rep : bool) (w : esp_bus_state_t) : Z * esp_bus_state_t :=
  match fn with
  | Some fn =>
    if negb (g_initialized w) then ((-1)%Z, w)
    else if negb node_ok then ((-1)%Z, w)
    else
      let node := {| svc_id := g_next_svc_id w; svc_fn := fn; svc_ctx := c;
                     interval_ms := interval;
                     next_run_us := wrap64 (now + interval * 1000);
                     svc_repeat := rep |} in
      (svc_id node,
       esp_bus_trigger queue_ok
         (set_services_next (node :: g_services w) (wrap32 (g_next_svc_id w + 1)) w))
  | None => ((-1)%Z, w)
  end.

(** [esp_bus_tick], [esp_bus_every] and [esp_bus_after]. *)
Definition esp_bus_tick (node_ok queue_ok : bool) (now : Z) (fn : option fnptr)
    (interval : Z) (c : ctxptr) (w : esp_bus_state_t) : Z * esp_bus_state_t :=
  add_service node_ok queue_ok now fn interval c true w.

Definition esp_bus_every (node_ok queue_ok : bool) (now : Z) (fn : option fnptr)
    (interval : Z) (c : ctxptr) (w : esp_bus_state_t) : Z * esp_bus_state_t :=
  add_service node_ok queue_ok now fn interval c true w.

Definition esp_bus_after (node_ok queue_ok : bool) (now : Z) (fn : option fnptr)
    (delay : Z) (c : ctxptr) (w : esp_bus_state_t) : Z * esp_bus_state_t :=
  add_service node_ok queue_ok now fn delay c false w.

(** ** The rest of the bus interface *)

Definition set_on_err (v : option fnptr) (w : esp_bus_state_t) : esp_bus_state_t :=
  {| g_initialized := g_initialized w; g_strict := g_strict w; g_on_err := v;
     g_modules := g_modules w; g_subs := g_subs w; g_routes := g_routes w;
     g_services := g_services w; g_next_sub_id := g_next_sub_id w;
     g_next_svc_id := g_next_svc_id w; g_task := g_task w;
     bus_queue := bus_queue w; bus_heap := bus_heap w; bus_sems := bus_sems w;
     bus_trace := bus_trace w |}.

(** [esp_bus_is_init] and [esp_bus_on_err] ([esp_bus.c]). *)
Definition esp_bus_is_init (w : esp_bus_state_t) : bool := g_initialized w.

Definition esp_bus_on_err (cb : option fnptr) (w : esp_bus_state_t)
  : esp_err_t * esp_bus_state_t :=
  (ESP_OK, set_on_err cb w).

(** [SLIST_REMOVE] of the node [esp_bus_find_module] returns: the first node
    of that name. *)
Fixpoint remove_module (nm : cstring) (mods : list module_node_t) : list module_node_t :=
  match mods with
  | [] => []
  | node :: rest =>
      if streq (mod_name node) nm then rest else node :: remove_module nm rest
  end.

(** [esp_bus_unreg] ([esp_bus.c]). *)
Definition esp_bus_unreg (nm : option cstring) (w : esp_bus_state_t)
  : esp_err_t * esp_bus_state_t :=
  match nm with
  | Some nm =>
    if negb (g_initialized w) then (ESP_ERR_INVALID_ARG, w)
    else
      match esp_bus_find_module nm w with
      | None => (ESP_ERR_NOT_FOUND, w)
      | Some _ => (ESP_OK, set_modules (remove_module nm (g_modules w)) w)
      end
  | None => (ESP_ERR_INVALID_ARG, w)
  end.

(** [esp_bus_has_action] and [esp_bus_has_event] ([esp_bus.c]): a linear
    search of the schema table of the module found; a NULL table is empty. *)
Definition esp_bus_has_action (module action : option cstring) (w : esp_bus_state_t) : bool :=
  match module, action with
  | Some m, Some a =>
      if negb (g_initialized w) then false
      else
        match esp_bus_find_module m w with
        | Some node => existsb (fun n => streq n a) (mod_actions node)
        | None => false
        end
  | _, _ => false
  end.

Definition esp_bus_has_event (module event : option cstring) (w : esp_bus_state_t) : bool :=
  match module, event with
  | Some m, Some e =>
      if negb (g_initialized w) then false
      else
        match esp_bus_find_module m w with
        | Some node => existsb (fun n => streq n e) (mod_events node)
        | None => false
        end
  | _, _ => false
  end.

(** [esp_bus_deinit] ([esp_bus.c]): the worker task is deleted, the nodes of
    the four registries are freed, each route with its payload, and the mutex
    and the queue are deleted; what the queue still held goes with it.  The
    flags, the error callback and the id counters stay as they are. *)
Definition esp_bus_deinit (w : esp_bus_state_t) : esp_err_t * esp_bus_state_t :=
  if negb (g_initialized w) then (ESP_ERR_INVALID_STATE, w)
  else
    let w1 := fold_left (fun w' r => free (req_data r) w') (g_routes w) w in
    (ESP_OK,
     {| g_initialized := false; g_strict := g_strict w1; g_on_err := g_on_err w1;
        g_modules := []; g_subs := []; g_routes := []; g_services := [];
        g_next_sub_id := g_next_sub_id w1; g_next_svc_id := g_next_svc_id w1;
        g_task := None;
        bus_queue := []; bus_heap := bus_heap w1; bus_sems := bus_sems w1;
        bus_trace := bus_trace w1 |}).

(** The loop of [esp_bus_unsub] ([esp_bus_msg.c]): the first node with the id
    is unlinked and the loop left. *)
Fixpoint remove_sub (id : Z) (subs : list sub_node_t) : list sub_node_t :=
  match subs with
  | [] => []
  | node :: rest =>
      if (sub_id node =? id)%Z then rest else node :: remove_sub id rest
  end.

Definition esp_bus_unsub (id : Z) (w : esp_bus_state_t) : esp_bus_state_t :=
  if negb (g_initialized w) || (id <? 0)%Z then w
  else set_subs (remove_sub id (g_subs w)) (g_next_sub_id w) w.

(** [remove_service] ([esp_bus_svc.c]), and [esp_bus_tick_del] and
    [esp_bus_cancel], which are that function. *)
Fixpoint remove_svc (id : Z) (ss : list svc_node_t) : list svc_node_t :=
  match ss with
  | [] => []
  | node :: rest =>
      if (svc_id node =? id)%Z then rest else node :: remove_svc id rest
  end.

Definition remove_service (id : Z) (w : esp_bus_state_t) : esp_bus_state_t :=
  if negb (g_initialized w) || (id <? 0)%Z then w
  else set_services (remove_svc id (g_services w)) w.

Definition esp_bus_tick_del (id : Z) (w : esp_bus_state_t) : esp_bus_state_t :=
  remove_service id w.

Definition esp_bus_cancel (id : Z) (w : esp_bus_state_t) : esp_bus_state_t :=
  remove_service id w.

(** [esp_bus_trigger_isr]: the same envelope, sent from an interrupt. *)
Definition esp_bus_trigger_isr (queue_ok : bool) (w : esp_bus_state_t) : esp_bus_state_t :=
  esp_bus_trigger queue_ok w.

(** ** Button module ([esp_bus_btn.c], [esp_bus_btn.h]) *)

(** Action and event names. *)
Definition BTN_GET_STATE : cstring := cs "get_state".
Definition BTN_WAIT_PRESS : cstring := cs "wait_press".
Definition BTN_WAIT_RELEASE : cstring := cs "wait_release".
Definition BTN_CONFIG : cstring := cs "config".
Definition BTN_SHORT : cstring := cs "short_press".
Definition BTN_LONG : cstring := cs "long_press".
Definition BTN_SHORT_REL : cstring := cs "short_release".
Definition BTN_LONG_REL : cstring := cs "long_release".
Definition BTN_DOUBLE : cstring := cs "double_press".

(** The schema tables, by the names they declare. *)
Definition esp_bus_btn_actions : list cstring :=
  [BTN_GET_STATE; BTN_WAIT_PRESS; BTN_WAIT_RELEASE; BTN_CONFIG].
Definition esp_bus_btn_events : list cstring :=
  [BTN_SHORT; BTN_LONG; BTN_SHORT_REL; BTN_LONG_REL; BTN_DOUBLE].

(** [esp_bus_btn_cfg_t]; the three times are [uint32_t]. *)
Record esp_bus_btn_cfg_t := {
  cfg_pin : Z;
  cfg_active_low : bool;
  cfg_long_press_ms : Z;
  cfg_double_press_ms : Z;
  cfg_debounce_ms : Z
}.

(** [btn_ctx_t].  The three states are 0 or 1; the four times are
    [int64_t] milliseconds, [press_count] is [uint32_t]. *)
Record btn_ctx_t := {
  btn_name : cstring;
  btn_pin : Z;
  btn_active_low : bool;
  long_press_ms : Z;
  double_press_ms : Z;
  debounce_ms : Z;
  btn_state : bool;
  raw_state : bool;
  last_raw_state : bool;
  press_count : Z;
  press_time_ms : Z;
  release_time_ms : Z;
  last_press_ms : Z;
  debounce_until_ms : Z;
  long_fired : bool;
  tick_id : Z
}.

(** Assignments to the fields [btn_tick] writes. *)
Definition btn_set_raw (raw : bool) (until : Z) (b : btn_ctx_t) : btn_ctx_t :=
  {| btn_name := btn_name b; btn_pin := btn_pin b; btn_active_low := btn_active_low b;
     long_press_ms := long_press_ms b; double_press_ms := double_press_ms b;
     debounce_ms := debounce_ms b; btn_state := btn_state b; raw_state := raw;
     last_raw_state := last_raw_state b; press_count := press_count b;
     press_time_ms := press_time_ms b; release_time_ms := release_time_ms b;
     last_press_ms := last_press_ms b; debounce_until_ms := until;
     long_fired := long_fired b; tick_id := tick_id b |}.

Definition btn_set_state (st : bool) (b : btn_ctx_t) : btn_ctx_t :=
  {| btn_name := btn_name b; btn_pin := btn_pin b; btn_active_low := btn_active_low b;
     long_press_ms := long_press_ms b; double_press_ms := double_press_ms b;
     debounce_ms := debounce_ms b; btn_state := st; raw_state := raw_state b;
     last_raw_state := last_raw_state b; press_count := press_count b;
     press_time_ms := press_time_ms b; release_time_ms := release_time_ms b;
     last_press_ms := last_press_ms b; debounce_until_ms := debounce_until_ms b;
     long_fired := long_fired b; tick_id := tick_id b |}.

(** [press_time_ms = now; long_fired = false; press_count++]. *)
Definition btn_set_pressed (now : Z) (b : btn_ctx_t) : btn_ctx_t :=
  {| btn_name := btn_name b; btn_pin := btn_pin b; btn_active_low := btn_active_low b;
     long_press_ms := long_press_ms b; double_press_ms := double_press_ms b;
     debounce_ms := debounce_ms b; btn_state := btn_state b; raw_state := raw_state b;
     last_raw_state := last_raw_state b; press_count := to_uint32 (press_count b + 1);
     press_time_ms := now; release_time_ms := release_time_ms b;
     last_press_ms := last_press_ms b; debounce_until_ms := debounce_until_ms b;
     long_fired := false; tick_id := tick_id b |}.

Definition btn_set_last_press (now : Z) (b : btn_ctx_t) : btn_ctx_t :=
  {| btn_name := btn_name b; btn_pin := btn_pin b; btn_active_low := btn_active_low b;
     long_press_ms := long_press_ms b; double_press_ms := double_press_ms b;
     debounce_ms := debounce_ms b; btn_state := btn_state b; raw_state := raw_state b;
     last_raw_state := last_raw_state b; press_count := press_count b;
     press_time_ms := press_time_ms b; release_time_ms := release_time_ms b;
     last_press_ms := now; debounce_until_ms := debounce_until_ms b;
     long_fired := long_fired b; tick_id := tick_id b |}.

(** [release_time_ms = now; press_time_ms = 0]. *)
Definition btn_set_released (now : Z) (b : btn_ctx_t) : btn_ctx_t :=
  {| btn_name := btn_name b; btn_pin := btn_pin b; btn_active_low := btn_active_low b;
     long_press_ms := long_press_ms b; double_press_ms := double_press_ms b;
     debounce_ms := debounce_ms b; btn_state := btn_state b; raw_state := raw_state b;
     last_raw_state := last_raw_state b; press_count := press_count b;
     press_time_ms := 0; release_time_ms := now;
     last_press_ms := last_press_ms b; debounce_until_ms := debounce_until_ms b;
     long_fired := long_fired b; tick_id := tick_id b |}.

Definition btn_set_long_fired (v : bool) (b : btn_ctx_t) : btn_ctx_t :=
  {| btn_name := btn_name b; btn_pin := btn_pin b; btn_active_low := btn_active_low b;
     long_press_ms := long_press_ms b; double_press_ms := double_press_ms b;
     debounce_ms := debounce_ms b; btn_state := btn_state b; raw_state := raw_state b;
     last_raw_state := last_raw_state b; press_count := press_count b;
     press_time_ms := press_time_ms b; release_time_ms := release_time_ms b;
     last_press_ms := last_press_ms b; debounce_until_ms := debounce_until_ms b;
     long_fired := v; tick_id := tick_id b |}.

(** [read_pin]; [level] is the value of [gpio_get_level], 0 or 1. *)
Definition read_pin (level : bool) (btn : btn_ctx_t) : bool :=
  if btn_active_low btn then negb level else level.

(** The last block of [btn_tick]: the long press while held.  [evs] are the
    events emitted so far in this tick. *)
Definition btn_check_long (now : Z) (btn : btn_ctx_t) (evs : list cstring)
  : btn_ctx_t * list cstring :=
  if btn_state btn && negb (long_fired btn) then
    let held := wrap64 (now - press_time_ms btn) in
    if (long_press_ms btn <=? held)%Z
    then (btn_set_long_fired true btn, evs ++ [BTN_LONG])
    else (btn, evs)
  else (btn, evs).

(** [btn_tick], the polling callback.  [now] is the value of [now_ms()],
    [level] what [gpio_get_level] returns if the pin is read.  The result is
    the context afterwards and the names of the events handed to
    [esp_bus_emit] with the button's name as source, no payload, in order. *)
Definition btn_tick (now : Z) (level : bool) (btn : btn_ctx_t) : btn_ctx_t * list cstring :=
  if (now <? debounce_until_ms btn)%Z then (btn, [])
  else
    let current := read_pin level btn in
    if negb (Bool.eqb current (raw_state btn)) then
      (btn_set_raw current (wrap64 (now + debounce_ms btn)) btn, [])
    else if negb (Bool.eqb current (btn_state btn)) then
      let b := btn_set_state current btn in
      if current then
        let b := btn_set_pressed now b in
        let evs :=
          BTN_SHORT ::
          (if (0 <? last_press_ms b)%Z && (wrap64 (now - last_press_ms b) <? double_press_ms b)%Z
           then [BTN_DOUBLE] else []) in
        btn_check_long now (btn_set_last_press now b) evs
      else if (press_time_ms b =? 0)%Z then (b, [])
      else
        let evs := [if long_fired b then BTN_LONG_REL else BTN_SHORT_REL] in
        btn_check_long now (btn_set_released now b) evs
    else btn_check_long now btn [].

(** Successive invocations of [btn_tick], each with its clock reading and pin
    level; the events of all of them, in order. *)
Fixpoint btn_ticks (samples : list (Z * bool)) (btn : btn_ctx_t) : btn_ctx_t * list cstring :=
  match samples with
  | [] => (btn, [])
  | (now, level) :: rest =>
      let '(b1, evs1) := btn_tick now level btn in
      let '(b2, evs2) := btn_ticks rest b1 in
      (b2, evs1 ++ evs2)
  end.

(** [esp_bus_btn_reg].  [ctx_alloc] is the result of the [calloc] of the
    context, [gpio_err] that of [gpio_config], [level] the pin level read;
    [node_ok], [svc_ok], [queue_ok] and [now] are the environment of
    [esp_bus_reg] and [esp_bus_tick]; [handler] and [tick_fn] stand for the
    addresses of [btn_req_handler] and [btn_tick].  The result is the error
    code, the context if it is still allocated, and the bus. *)
Definition esp_bus_btn_reg (ctx_alloc : option ctxptr) (gpio_err : esp_err_t) (level : bool)
    (node_ok svc_ok queue_ok : bool) (now : Z) (handler : esp_bus_req_fn) (tick_fn : fnptr)
    (nm : option cstring) (cfg : option esp_bus_btn_cfg_t) (w : esp_bus_state_t)
  : esp_err_t * option btn_ctx_t * esp_bus_state_t :=
  match nm, cfg with
  | Some nm, Some cfg =>
    match ctx_alloc with
    | None => (ESP_ERR_NO_MEM, None, w)
    | Some p =>
      let ctx0 :=
        {| btn_name := strncpy nm (ESP_BUS_NAME_MAX - 1);
           btn_pin := cfg_pin cfg; btn_active_low := cfg_active_low cfg;
           long_press_ms :=
             if (0 <? cfg_long_press_ms cfg)%Z then cfg_long_press_ms cfg else 1000%Z;
           double_press_ms :=
             if (0 <? cfg_double_press_ms cfg)%Z then cfg_double_press_ms cfg else 300%Z;
           debounce_ms :=
             if (0 <? cfg_debounce_ms cfg)%Z then cfg_debounce_ms cfg else 20%Z;
           btn_state := false; raw_state := false; last_raw_state := false;
           press_count := 0; press_time_ms := 0; release_time_ms := 0;
           last_press_ms := 0; debounce_until_ms := 0; long_fired := false;
           tick_id := 0 |} in
      if negb (gpio_err =? ESP_OK)%Z then (gpio_err, None, w)
      else
        let raw := read_pin level ctx0 in
        let ctx1 :=
          {| btn_name := btn_name ctx0; btn_pin := btn_pin ctx0;
             btn_active_low := btn_active_low ctx0;
             long_press_ms := long_press_ms ctx0; double_press_ms := double_press_ms ctx0;
             debounce_ms := debounce_ms ctx0;
             btn_state := raw; raw_state := raw; last_raw_state := raw;
             press_count := 0; press_time_ms := 0; release_time_ms := 0;
             last_press_ms := 0; debounce_until_ms := 0; long_fired := false;
             tick_id := 0 |} in
        let module :=
          {| name := Some nm; on_req := Some handler; on_evt := None; ctx := p;
             actions := esp_bus_btn_actions; events := esp_bus_btn_events |} in
        let '(err, w1) := esp_bus_reg node_ok (Some module) w in
        if negb (err =? ESP_OK)%Z then (err, None, w1)
        else
          let '(id, w2) := esp_bus_tick svc_ok queue_ok now (Some tick_fn) 10 p w1 in
          if (id <? 0)%Z then
            let '(_, w3) := esp_bus_unreg (Some nm) w2 in
            (ESP_ERR_NO_MEM, None, w3)
          else
            (ESP_OK,
             Some {| btn_name := btn_name ctx1; btn_pin := btn_pin ctx1;
                     btn_active_low := btn_active_low ctx1;
                     long_press_ms := long_press_ms ctx1;
                     double_press_ms := double_press_ms ctx1;
                     debounce_ms := debounce_ms ctx1;
                     btn_state := raw; raw_state := raw; last_raw_state := raw;
                     press_count := 0; press_time_ms := 0; release_time_ms := 0;
                     last_press_ms := 0; debounce_until_ms := 0; long_fired := false;
                     tick_id := id |},
             w2)
    end
  | _, _ => (ESP_ERR_INVALID_ARG, None, w)
  end.

(** How often an event name occurs among emitted events. *)
Definition emitted (evt : cstring) (evs : list cstring) : nat :=
  length (List.filter (streq evt) evs).

(** ** LED module ([esp_bus_led.c]) *)

Definition wrap16 (z : Z) : Z := ((z + 2 ^ 15) mod 2 ^ 16 - 2 ^ 15)%Z.

(** [led_ctx_t]: [led_state] is 0 or 1, [on_ms] and [off_ms] are
    [uint16_t], [blink_count] is [int16_t] (-1 for ever, 0 stopped). *)
Record led_ctx_t := {
  led_name : cstring;
  led_pin : Z;
  led_active_low : bool;
  led_state : bool;
  on_ms : Z;
  off_ms : Z;
  blink_count : Z;
  timer_id : Z
}.

(** The LED with what surrounds it: the levels written to its pin with
    [gpio_set_level], oldest first, and the bus. *)
Record led_world := {
  led : led_ctx_t;
  gpio : list bool;
  bus : esp_bus_state_t
}.

Definition led_set_state (v : bool) (l : led_ctx_t) : led_ctx_t :=
  {| led_name := led_name l; led_pin := led_pin l; led_active_low := led_active_low l;
     led_state := v; on_ms := on_ms l; off_ms := off_ms l;
     blink_count := blink_count l; timer_id := timer_id l |}.

Definition led_set_timer (id : Z) (l : led_ctx_t) : led_ctx_t :=
  {| led_name := led_name l; led_pin := led_pin l; led_active_low := led_active_low l;
     led_state := led_state l; on_ms := on_ms l; off_ms := off_ms l;
     blink_count := blink_count l; timer_id := id |}.

Definition led_set_count (n : Z) (l : led_ctx_t) : led_ctx_t :=
  {| led_name := led_name l; led_pin := led_pin l; led_active_low := led_active_low l;
     led_state := led_state l; on_ms := on_ms l; off_ms := off_ms l;
     blink_count := n; timer_id := timer_id l |}.

Definition led_set_times (on off : Z) (l : led_ctx_t) : led_ctx_t :=
  {| led_name := led_name l; led_pin := led_pin l; led_active_low := led_active_low l;
     led_state := led_state l; on_ms := on; off_ms := off;
     blink_count := blink_count l; timer_id := timer_id l |}.

(** [led_set_hw], [led_set] and [led_toggle]. *)
Definition led_set_hw (state : bool) (x : led_world) : led_world :=
  {| led := led x;
     gpio := gpio x ++ [if led_active_low (led x) then negb state else state];
     bus := bus x |}.

Definition led_set (state : bool) (x : led_world) : led_world :=
  led_set_hw state {| led := led_set_state state (led x); gpio := gpio x; bus := bus x |}.

Definition led_toggle (x : led_world) : led_world :=
  led_set (negb (led_state (led x))) x.

(** [led_stop_blink]. *)
Definition led_stop_blink (x : led_world) : led_world :=
  let x1 :=
    if (0 <=? timer_id (led x))%Z then
      {| led := led_set_timer (-1) (led x); gpio := gpio x;
         bus := esp_bus_cancel (timer_id (led x)) (bus x) |}
    else x in
  {| led := led_set_count 0 (led x1); gpio := gpio x1; bus := bus x1 |}.

(** [led_blink_step], the timer callback.  [node_ok], [queue_ok] and [now]
    are the environment of [esp_bus_after]; [self_fn] and [self] stand for
    the addresses of the function and of the context. *)
Definition led_blink_step (node_ok queue_ok : bool) (now : Z) (self_fn : fnptr) (self : ctxptr)
    (x : led_world) : led_world :=
  let x1 := led_toggle x in
  let reschedule (y : led_world) :=
    let next_ms := if led_state (led y) then on_ms (led y) else off_ms (led y) in
    let '(id, w) := esp_bus_after node_ok queue_ok now (Some self_fn) next_ms self (bus y) in
    {| led := led_set_timer id (led y); gpio := gpio y; bus := w |} in
  if (0 <? blink_count (led x1))%Z then
    let x2 := {| led := led_set_count (wrap16 (blink_count (led x1) - 1)) (led x1);
                 gpio := gpio x1; bus := bus x1 |} in
    if (blink_count (led x2) =? 0)%Z then
      let x3 := led_set false x2 in
      {| led := led_set_timer (-1) (led x3); gpio := gpio x3; bus := bus x3 |}
    else reschedule x2
  else reschedule x1.

(** [led_start_blink]; [on], [off] are [uint16_t], [count] is [int16_t]. *)
Definition led_start_blink (node_ok queue_ok : bool) (now : Z) (self_fn : fnptr) (self : ctxptr)
    (on off count : Z) (x : led_world) : led_world :=
  let x1 := led_stop_blink x in
  if (count =? 0)%Z then x1
  else
    let l := led_set_times (if (0 <? on)%Z then on else 200%Z)
                           (if (0 <? off)%Z then off else 200%Z) (led x1) in
    let l := led_set_count (if (count <? 0)%Z then (-1)%Z else wrap16 (count * 2)) l in
    let x2 := led_set true {| led := l; gpio := gpio x1; bus := bus x1 |} in
    let '(id, w) :=
      esp_bus_after node_ok queue_ok now (Some self_fn) (on_ms (led x2)) self (bus x2) in
    {| led := led_set_timer id (led x2); gpio := gpio x2; bus := w |}.

(** Successive invocations of [led_blink_step], each in its environment. *)
Definition led_blink_steps (envs : list (bool * bool * Z)) (self_fn : fnptr) (self : ctxptr)
    (x : led_world) : led_world :=
  fold_left (fun y '(node_ok, queue_ok, now) => led_blink_step node_ok queue_ok now self_fn self y)
            envs x.

(** The levels a blink of [n] periods writes to the pin of [l]. *)
Definition blink_levels (l : led_ctx_t) (n : nat) : list bool :=
  concat (repeat [negb (led_active_low l); led_active_low l] n).

(** ** Predicates of the specification *)

(** A pattern that is not [module.action] with a module shorter than the name
    buffer: no dot at all, or a first dot too far to the right. *)
Definition not_a_request (pattern : cstring) : Prop :=
  ~ In "." pattern \/
  exists m rest, pattern = m ++ "." :: rest /\ ~ In "." m /\ (ESP_BUS_NAME_MAX <= length m)%nat.

(** The routes an [esp_bus_off(evt, req)] is meant to remove: the event
    pattern equals [evt] and, when a request filter is given, the request
    pattern equals it. *)
Definition targeted (evt : cstring) (req : option cstring) (r : route_node_t) : Prop :=
  evt_pattern r = evt /\ forall q, req = Some q -> req_pattern r = q.

(** [w'] differs from [w] by invocations only. *)
Definition only_trace (w w' : esp_bus_state_t) : Prop := exists t, w' = set_trace t w.

(** The block [esp_bus_req] and [esp_bus_emit] obtain for the payload copy. *)
Definition payload_block (w : esp_bus_state_t) : positive := fresh (dom (bus_heap w)).

(** What the handler of a queued request reads: the copy of the first [len]
    bytes, when a copy was made. *)
Definition copied_bytes (req : option bytes) (len : nat) : option bytes :=
  match req with
  | Some bs => if (0 <? len)%nat then Some (take len bs) else None
  | None => None
  end.

Definition copied_len (req : option bytes) (len : nat) : nat :=
  match req with
  | Some _ => len
  | None => 0
  end.

(** The invocation of a subscriber for event [evt]. *)
Definition sub_call (evt : cstring) (data : option bytes) (len : nat) (sub : sub_node_t) : call :=
  CallSub (sub_id sub) (sub_handler sub) evt data len (sub_ctx sub).

(** The heap once the payloads owned by the given routes are freed. *)
Definition release (rs : list route_node_t) (h : gmap positive bytes) : gmap positive bytes :=
  fold_left (fun h' r => match req_data r with Some p => delete p h' | None => h' end) rs h.

(** A stored event pattern that does not parse back with a colon separator. *)
Definition not_an_event (pattern : cstring) : Prop :=
  match esp_bus_parse_pattern pattern with
  | None => True
  | Some (_, _, sep) => sep <> ":"
  end.

(** A timer the scheduler considers, and one whose time has come. *)
Definition armed (s : svc_node_t) : Prop := (0 < next_run_us s)%Z.
Definition due (now : Z) (s : svc_node_t) : bool :=
  (0 <? next_run_us s)%Z && (next_run_us s <=? now)%Z.

(** The time a repeating timer fired at [now] is rearmed to, as computed in
    [int64_t], and what one sweep at [now] makes of a node: a due repeating
    timer is rearmed, a due one-shot timer is gone, and so is a one-shot node
    already marked retired; any other node is unchanged. *)
Definition rearm_time (now : Z) (s : svc_node_t) : Z :=
  wrap64 (now + interval_ms s * 1000).

Definition after_sweep (now : Z) (s : svc_node_t) : option svc_node_t :=
  if due now s then
    if svc_repeat s then Some (set_next_run (rearm_time now s) s) else None
  else if retired s then None else Some s.

(** The clock reading [now] has reached the due date of [s]. *)
Definition due_at (s : svc_node_t) (now : Z) : bool := (next_run_us s <=? now)%Z.

(** The invocation of a timer's callback. *)
Definition svc_call (s : svc_node_t) : call := CallSvc (svc_id s) (svc_fn s) (svc_ctx s).

(** The wait of the specification, in microseconds: the smallest time to a
    due date among the armed timers, each no less than a millisecond, the
    whole no more than a tenth of a second. *)
Definition spec_next_wait_us (now : Z) (ss : list svc_node_t) : Z :=
  fold_right Z.min 100000%Z
    (map (fun s => Z.max 1000 (next_run_us s - now))
         (List.filter (fun s => (0 <? next_run_us s)%Z) ss)).

(** How many times timer [id] was invoked in a trace. *)
Definition fired (id : Z) (tr : list call) : nat :=
  length (List.filter (fun c => match c with CallSvc i _ _ => (i =? id)%Z | _ => false end) tr).

(** Invariants of the registries. *)

(** Every stored module name fits the name buffer. *)
Definition names_fit (w : esp_bus_state_t) : Prop :=
  forall node, In node (g_modules w) -> (length (mod_name node) < ESP_BUS_NAME_MAX)%nat.

(** Subscription ids are distinct, non-negative and below the counter. *)
Definition subs_wf (w : esp_bus_state_t) : Prop :=
  List.NoDup (map sub_id (g_subs w)) /\ (0 <= g_next_sub_id w)%Z /\
  forall node, In node (g_subs w) -> (0 <= sub_id node < g_next_sub_id w)%Z.

(** Timer ids are distinct, non-negative and below the counter. *)
Definition svcs_wf (w : esp_bus_state_t) : Prop :=
  List.NoDup (map svc_id (g_services w)) /\ (0 <= g_next_svc_id w)%Z /\
  forall node, In node (g_services w) -> (0 <= svc_id node < g_next_svc_id w)%Z.

(** How many times subscription [id] was invoked in a trace, and the errors
    reported to the error callback, in order. *)
Definition sub_calls (id : Z) (tr : list call) : nat :=
  length (List.filter (fun c => match c with CallSub i _ _ _ _ _ => (i =? id)%Z | _ => false end) tr).

Definition reported (tr : list call) : list (cstring * esp_err_t) :=
  flat_map (fun c => match c with CallOnErr p e _ => [(p, e)] | _ => [] end) tr.

(** The payload blocks owned by the envelopes of a queue. *)
Definition queue_blocks (q : list message_t) : list positive :=
  flat_map (fun m => match msg_type m, msg_data m with
                     | MSG_TRIGGER, _ => []
                     | _, Some p => [p]
                     | _, None => []
                     end) q.

(** The button's bookkeeping is consistent: it counts as pressed exactly
    when a press time is recorded. *)
Definition btn_paired (b : btn_ctx_t) : Prop :=
  btn_state b = true <-> press_time_ms b <> 0%Z.

(** One if the button is held, and one if it is held with the long press
    already reported. *)
Definition held (b : btn_ctx_t) : nat := if btn_state b then 1 else 0.

Definition held_long (b : btn_ctx_t) : nat :=
  if btn_state b && long_fired b then 1 else 0.

(** ** Sample states, for the examples *)

(** A sample request handler for the examples; it is not a function of the
    repository.  Whatever the action, a request that carries a payload is
    copied into the response buffer, as far as it fits, when the caller gave
    one, and the number of bytes copied is stored when the caller asked for
    it.  It does nothing else and always succeeds. *)
Definition echo_handler : esp_bus_req_fn :=
  fun _ req len res _ =>
    match req with
    | Some bs =>
        if res_buf res then
          let copy_len := Nat.min len (res_size res) in
          (ESP_OK, {| res_written := Some (take copy_len bs);
                      res_len_written := if res_len res then Some copy_len else None |})
        else (ESP_OK, no_out)
    | None => (ESP_OK, no_out)
    end.

Definition echo_module : esp_bus_module_t :=
  {| name := Some (cs "echo"); on_req := Some echo_handler; on_evt := None;
     ctx := 7%Z; actions := []; events := [] |}.

(** An initialised bus whose worker is task 1, then with [echo] registered. *)
Definition ready : esp_bus_state_t := snd (esp_bus_init true true true 1 boot).
Definition with_echo : esp_bus_state_t := snd (esp_bus_reg true (Some echo_module) ready).

(** A subscriber to every event, on top of [with_echo]. *)
Definition with_sub : esp_bus_state_t := snd (esp_bus_sub true (Some (cs "*")) (Some 5%nat) 0%Z with_echo).

(** Two static routes for the same event, the first one with a payload. *)
Definition with_routes : esp_bus_state_t :=
  snd (esp_bus_on true true (Some (cs "src:evt")) (Some (cs "other.act")) None 0
         (snd (esp_bus_on true true (Some (cs "src:evt")) (Some (cs "target.act"))
                 (Some [Byte.x01; Byte.x02]) 2 ready))).

(** One second after boot: a one-shot timer of 5 ms (id 0), then a repeating
    timer of 40 ms (id 1). *)
Definition with_timers : esp_bus_state_t :=
  snd (esp_bus_every true true 1000000 (Some 12%nat) 40 0%Z
         (snd (esp_bus_after true true 1000000 (Some 11%nat) 5 0%Z ready))).

(** A static route from a button event to the echo module, with a payload,
    and a bus with an error callback installed. *)
Definition with_bridge : esp_bus_state_t :=
  snd (esp_bus_on true true (Some (cs "btn1:short_press")) (Some (cs "echo.say"))
         (Some [Byte.x01; Byte.x02]) 2 with_echo).

Definition with_reporter : esp_bus_state_t := snd (esp_bus_on_err (Some 9%nat) with_echo).

(** A button as [esp_bus_btn_reg] leaves it when registered released with
    the default times, and an LED that is off, on the bus [ready]. *)
Definition btn1 : btn_ctx_t :=
  {| btn_name := cs "btn1"; btn_pin := 0; btn_active_low := true;
     long_press_ms := 1000; double_press_ms := 300; debounce_ms := 20;
     btn_state := false; raw_state := false; last_raw_state := false;
     press_count := 0; press_time_ms := 0; release_time_ms := 0; last_press_ms := 0;
     debounce_until_ms := 0; long_fired := false; tick_id := 0 |}.

Definition led1 : led_world :=
  {| led := {| led_name := cs "led1"; led_pin := 2; led_active_low := false;
               led_state := false; on_ms := 0; off_ms := 0; blink_count := 0;
               timer_id := -1 |};
     gpio := [false];
     bus := ready |}.

(** The pin of [btn1] sampled low at 0.10 s and 0.13 s, high at 0.20 s and
    0.23 s: pressed, then released. *)
Definition press_then_release : list (Z * bool) :=
  [(100, false); (130, false); (200, true); (230, true)]%Z.



(* ===================================================================== *)
(** * Part II. Verification                                               *)
(* ===================================================================== *)

Section PatternMatcher.

Implicit Types p t u : cstring.

Lemma match_scan p u :
  scan_suffixes p u = true <->
  exists u1 u2, u = u1 ++ u2 /\ u2 <> [] /\ esp_bus_match_pattern p u2 = true.
Proof.
  induction u as [|d u IH]; simpl.
  - split; [discriminate|]. intros (u1 & u2 & Hu & Hne & _).
    symmetry in Hu. apply app_eq_nil in Hu as [_ ->]. congruence.
  - destruct (esp_bus_match_pattern p (d :: u)) eqn:Hm.
    + split; [intros _|reflexivity]. exists [], (d :: u). repeat split; [discriminate | exact Hm].
    + rewrite IH. split.
      * intros (u1 & u2 & -> & Hne & H). exists (d :: u1), u2. auto.
      * intros (u1 & u2 & Hu & Hne & H). destruct u1 as [|x u1]; simpl in Hu.
        -- subst u2. congruence.
        -- injection Hu as -> ->. eauto.
Qed.

Lemma match_star_cons p d t :
  esp_bus_match_pattern ("*" :: p) (d :: t) =
  match p with [] => true | _ :: _ => scan_suffixes p (d :: t) end.
Proof.
  destruct p as [|c p]; [reflexivity|].
  change (esp_bus_match_pattern ("*" :: c :: p) (d :: t))
    with ((fix scan (u : cstring) : bool :=
             match u with
             | [] => false
             | _ :: u' => if esp_bus_match_pattern (c :: p) u then true else scan u'
             end) (d :: t)).
  generalize (d :: t). intros u. induction u as [|x u IH]; [reflexivity|].
  simpl scan_suffixes. rewrite <- IH. reflexivity.
Qed.

Lemma match_nil_r p : esp_bus_match_pattern p [] = only_stars p.
Proof. destruct p; reflexivity. Qed.

Lemma match_literal_cons c d p t :
  c <> "*" ->
  esp_bus_match_pattern (c :: p) (d :: t) =
  if Ascii.eqb c d then esp_bus_match_pattern p t else false.
Proof.
  intros Hc. apply Ascii.eqb_neq in Hc. simpl. rewrite Hc.
  destruct (Ascii.eqb c d); reflexivity.
Qed.

Lemma glob_nil_inv t : glob [] t -> t = [].
Proof. inversion 1; reflexivity. Qed.

Lemma glob_star_inv p t :
  glob ("*" :: p) t -> exists t1 t2, t = t1 ++ t2 /\ glob p t2.
Proof. inversion 1; subst; [eauto | congruence]. Qed.

Lemma glob_char_inv c p t :
  c <> "*" -> glob (c :: p) t -> exists t', t = c :: t' /\ glob p t'.
Proof. intros Hc. inversion 1; subst; [congruence | eauto]. Qed.

Lemma only_stars_glob p : only_stars p = true <-> glob p [].
Proof.
  induction p as [|c p IH]; simpl.
  - split; [constructor | reflexivity].
  - rewrite andb_true_iff, Ascii.eqb_eq, IH. split.
    + intros [-> H]. apply (glob_star p [] []), H.
    + intros H. destruct (ascii_dec c "*") as [->|Hc].
      * apply glob_star_inv in H as (t1 & t2 & Ht & H).
        symmetry in Ht. apply app_eq_nil in Ht as [_ ->]. auto.
      * apply glob_char_inv in H as (t' & Ht & _); [discriminate | exact Hc].
Qed.

(** A pattern that accepts the empty string is a run of stars: it accepts
    everything.  This is why the inner loop may stop before the empty suffix. *)
Lemma glob_empty_all p t : p <> [] -> glob p [] -> glob p t.
Proof.
  intros Hp H. destruct p as [|c p]; [congruence|].
  destruct (ascii_dec c "*") as [->|Hc].
  - apply glob_star_inv in H as (t1 & t2 & Ht & H).
    symmetry in Ht. apply app_eq_nil in Ht as [_ ->].
    rewrite <- (app_nil_r t). apply glob_star, H.
  - apply glob_char_inv in H as (t' & Ht & _); [discriminate | exact Hc].
Qed.

Lemma match_pattern_glob p : forall t, esp_bus_match_pattern p t = true <-> glob p t.
Proof.
  induction p as [|c p IH]; intros t.
  - destruct t; simpl; split; try discriminate; try constructor.
    intros H. apply glob_nil_inv in H. discriminate.
  - destruct t as [|d t].
    { rewrite match_nil_r. apply only_stars_glob. }
    destruct (ascii_dec c "*") as [->|Hc].
    + rewrite match_star_cons. destruct p as [|c' p'].
      * split; [intros _|reflexivity].
        rewrite <- (app_nil_r (d :: t)). apply glob_star, glob_nil.
      * rewrite match_scan. split.
        -- intros (u1 & u2 & -> & _ & H). apply glob_star, IH, H.
        -- intros H. apply glob_star_inv in H as (t1 & t2 & Ht & H).
           destruct t2 as [|x t2].
           ++ exists [], (d :: t). repeat split; [discriminate|].
              apply IH, glob_empty_all; [discriminate | exact H].
           ++ exists t1, (x :: t2). repeat split; [exact Ht | discriminate | apply IH, H].
    + rewrite match_literal_cons by exact Hc. split.
      * destruct (Ascii.eqb c d) eqn:E; [|discriminate].
        apply Ascii.eqb_eq in E as ->. intros H. apply glob_char; [exact Hc | apply IH, H].
      * intros H. apply glob_char_inv in H as (t' & Ht & H); [|exact Hc].
        injection Ht as -> ->. rewrite Ascii.eqb_refl. apply IH, H.
Qed.

Lemma glob_literal p : forall t, ~ In "*" p -> (glob p t <-> p = t).
Proof.
  induction p as [|c p IH]; intros t Hp.
  - split; [intros H; apply glob_nil_inv in H; auto | intros <-; constructor].
  - assert (Hc : c <> "*") by (intros ->; apply Hp; left; reflexivity).
    assert (Hp' : ~ In "*" p) by (intros H; apply Hp; right; exact H).
    split.
    + intros H. apply glob_char_inv in H as (t' & -> & H); [|exact Hc].
      f_equal. apply IH; assumption.
    + intros <-. apply glob_char; [exact Hc|]. apply IH; auto.
Qed.

(** C1. [esp_bus_match_pattern p t] is true exactly when [t] is in the glob
    language of [p] (a star stands for zero or more arbitrary characters, any
    other character for itself, the whole target is accounted for and
    characters are compared as they are); hence a pattern without a star
    accepts exactly itself, and the pattern made of a single star accepts
    every target, the empty one included. *)
Theorem match_pattern_correct :
  (forall p t, esp_bus_match_pattern p t = true <-> glob p t) /\
  (forall p t, ~ In "*" p -> (esp_bus_match_pattern p t = true <-> p = t)) /\
  (forall t, esp_bus_match_pattern ["*"] t = true).
Proof.
  split; [|split].
  - intros p t. apply match_pattern_glob.
  - intros p t Hp. rewrite match_pattern_glob. apply glob_literal, Hp.
  - intros t. apply match_pattern_glob.
    rewrite <- (app_nil_r t). apply glob_star, glob_nil.
Qed.

(** The three examples of the specification, and a pathological run of stars. *)
Example match_examples :
  esp_bus_match_pattern (cs "a*c") (cs "abc") = true /\
  esp_bus_match_pattern (cs "a*c") (cs "ac") = true /\
  esp_bus_match_pattern (cs "a*c") (cs "ab") = false /\
  esp_bus_match_pattern (cs "x*:evt") (cs "x1:evt") = true /\
  esp_bus_match_pattern (cs "a***") (cs "a") = true /\
  esp_bus_match_pattern (cs "*a") (cs "") = false.
Proof. repeat split; reflexivity. Qed.

Lemma match_pattern_correct_witness :
  ~ In "*" (cs "btn1:short") /\
  (esp_bus_match_pattern (cs "btn1:short") (cs "btn1:short") = true
   <-> cs "btn1:short" = cs "btn1:short").
Proof.
  assert (H : ~ In "*" (cs "btn1:short")).
  { simpl. intros H. repeat (destruct H as [H|H]; [discriminate H|]). exact H. }
  split; [exact H|].
  exact (proj1 (proj2 match_pattern_correct) (cs "btn1:short") (cs "btn1:short") H).
Defined.

End PatternMatcher.

Section AddressParser.

Implicit Types s m rest : cstring.

Lemma streq_true a b : streq a b = true <-> a = b.
Proof. unfold streq. destruct (List.list_eq_dec ascii_dec a b); split; congruence. Qed.

Lemma streq_false a b : streq a b = false <-> a <> b.
Proof. unfold streq. destruct (List.list_eq_dec ascii_dec a b); split; congruence. Qed.

Lemma streq_refl a : streq a a = true.
Proof. apply streq_true. reflexivity. Qed.

Lemma strchr_first s c m rest :
  s = m ++ c :: rest -> ~ In c m -> strchr s c = Some (length m).
Proof.
  intros -> Hm. induction m as [|x m IH]; simpl.
  - rewrite Ascii.eqb_refl. reflexivity.
  - assert (Hx : x <> c) by (intros ->; apply Hm; left; reflexivity).
    apply Ascii.eqb_neq in Hx. rewrite Hx, IH; [reflexivity|].
    intros H. apply Hm. right. exact H.
Qed.

Lemma strchr_absent s c : ~ In c s -> strchr s c = None.
Proof.
  induction s as [|x s IH]; simpl; intros H; [reflexivity|].
  assert (Hx : x <> c) by (intros ->; apply H; left; reflexivity).
  apply Ascii.eqb_neq in Hx. rewrite Hx, IH; [reflexivity|]. tauto.
Qed.

Lemma strchr_split s c i :
  strchr s c = Some i ->
  exists m rest, s = m ++ c :: rest /\ ~ In c m /\ length m = i.
Proof.
  revert i. induction s as [|x s IH]; simpl; intros i H; [discriminate|].
  destruct (Ascii.eqb x c) eqn:E.
  - apply Ascii.eqb_eq in E as ->. injection H as <-.
    exists [], s. repeat split. intros [].
  - destruct (strchr s c) as [j|]; [|discriminate]. injection H as <-.
    destruct (IH j eq_refl) as (m & rest & -> & Hm & <-).
    exists (x :: m), rest. repeat split.
    apply Ascii.eqb_neq in E. intros [->|H]; [congruence | exact (Hm H)].
Qed.

Lemma strchr_present s c : In c s -> exists i, strchr s c = Some i.
Proof.
  intros H. destruct (strchr s c) as [i|] eqn:E; [eauto|].
  exfalso. revert H E. induction s as [|x s IH]; simpl; [tauto|].
  destruct (Ascii.eqb x c) eqn:Ex; [discriminate|].
  apply Ascii.eqb_neq in Ex. intros [->|H]; [congruence|].
  destruct (strchr s c); [discriminate|]. auto.
Qed.

Lemma split_at_separator m c rest :
  take (length m) (m ++ c :: rest) = m /\ drop (S (length m)) (m ++ c :: rest) = rest.
Proof.
  split.
  - apply take_app_length.
  - rewrite cons_middle, app_assoc.
    replace (S (length m)) with (length (m ++ [c])) by (rewrite length_app; simpl; lia).
    apply drop_app_length.
Qed.

(** A pattern with a dot is split at its first dot, whatever precedes it. *)
Lemma parse_pattern_dot s m rest :
  s = m ++ "." :: rest -> ~ In "." m ->
  esp_bus_parse_pattern s =
  if (ESP_BUS_NAME_MAX <=? length m)%nat then None
  else Some (m, take (ESP_BUS_NAME_MAX - 1) rest, ".").
Proof.
  intros Hs Hm. unfold esp_bus_parse_pattern, strncpy.
  rewrite (strchr_first s "." m rest Hs Hm). subst s.
  destruct (split_at_separator m "." rest) as [-> ->]. reflexivity.
Qed.

(** Without a dot, a pattern with a colon is split at its first colon. *)
Lemma parse_pattern_colon s m rest :
  ~ In "." s -> s = m ++ ":" :: rest -> ~ In ":" m ->
  esp_bus_parse_pattern s =
  if (ESP_BUS_NAME_MAX <=? length m)%nat then None
  else Some (m, take (ESP_BUS_NAME_MAX - 1) rest, ":").
Proof.
  intros Hdot Hs Hm. unfold esp_bus_parse_pattern, strncpy.
  rewrite (strchr_absent s "." Hdot), (strchr_first s ":" m rest Hs Hm). subst s.
  destruct (split_at_separator m ":" rest) as [-> ->]. reflexivity.
Qed.

(** A bare token is never refused: it is cut to the size of the buffer. *)
Lemma parse_pattern_bare s :
  ~ In "." s -> ~ In ":" s ->
  esp_bus_parse_pattern s = Some (take (ESP_BUS_NAME_MAX - 1) s, [], NUL).
Proof.
  intros Hdot Hcolon. unfold esp_bus_parse_pattern, strncpy.
  rewrite (strchr_absent s "." Hdot), (strchr_absent s ":" Hcolon). reflexivity.
Qed.

(** C5, as amended.  [esp_bus_parse_pattern] splits at the first dot when the
    string has one, and otherwise at the first colon; the module is the text
    before that separator and parsing fails exactly when that text has
    [ESP_BUS_NAME_MAX] characters or more; the action is the text after the
    separator cut to [ESP_BUS_NAME_MAX - 1] characters; a string with neither
    separator never fails and yields the token cut to [ESP_BUS_NAME_MAX - 1]
    characters as module, an empty action and a NUL separator. *)
Theorem parse_pattern_amended s :
  (forall m rest, s = m ++ "." :: rest -> ~ In "." m ->
     esp_bus_parse_pattern s =
     if (ESP_BUS_NAME_MAX <=? length m)%nat then None
     else Some (m, take (ESP_BUS_NAME_MAX - 1) rest, ".")) /\
  (forall m rest, ~ In "." s -> s = m ++ ":" :: rest -> ~ In ":" m ->
     esp_bus_parse_pattern s =
     if (ESP_BUS_NAME_MAX <=? length m)%nat then None
     else Some (m, take (ESP_BUS_NAME_MAX - 1) rest, ":")) /\
  (~ In "." s -> ~ In ":" s ->
     esp_bus_parse_pattern s = Some (take (ESP_BUS_NAME_MAX - 1) s, [], NUL)).
Proof.
  split; [|split].
  - intros m rest. apply parse_pattern_dot.
  - intros m rest. apply parse_pattern_colon.
  - apply parse_pattern_bare.
Qed.

Lemma not_in_cs (c : ascii) (s : string) :
  forallb (fun x => negb (Ascii.eqb x c)) (cs s) = true -> ~ In c (cs s).
Proof.
  intros H Hin. rewrite forallb_forall in H. specialize (H c Hin).
  rewrite Ascii.eqb_refl in H. discriminate.
Qed.

Lemma parse_pattern_amended_witness :
  esp_bus_parse_pattern (cs "led1.blink") = Some (cs "led1", cs "blink", ".") /\
  esp_bus_parse_pattern (cs "btn1:short_press") = Some (cs "btn1", cs "short_press", ":") /\
  esp_bus_parse_pattern (cs "led1") = Some (cs "led1", [], NUL).
Proof.
  split; [|split].
  - exact (proj1 (parse_pattern_amended (cs "led1.blink")) (cs "led1") (cs "blink")
             eq_refl (not_in_cs "." "led1" eq_refl)).
  - exact (proj1 (proj2 (parse_pattern_amended (cs "btn1:short_press")))
             (cs "btn1") (cs "short_press")
             (not_in_cs "." "btn1:short_press" eq_refl) eq_refl
             (not_in_cs ":" "btn1" eq_refl)).
  - exact (proj2 (proj2 (parse_pattern_amended (cs "led1")))
             (not_in_cs "." "led1" eq_refl) (not_in_cs ":" "led1" eq_refl)).
Defined.

(** C5, as stated, fails: a colon before the first dot does not split the
    string, an action longer than the buffer is cut, and a bare token of
    [ESP_BUS_NAME_MAX] characters or more is cut and accepted. *)
Lemma parse_pattern_not_first_separator :
  (esp_bus_parse_pattern (cs "a:b.c") = Some (cs "a:b", cs "c", ".") /\
   spec_parse_pattern (cs "a:b.c") = Some (cs "a", cs "b.c", ":")) /\
  (esp_bus_parse_pattern (cs "m.abcdefghijklmnopqrst") = Some (cs "m", cs "abcdefghijklmno", ".") /\
   spec_parse_pattern (cs "m.abcdefghijklmnopqrst") = Some (cs "m", cs "abcdefghijklmnopqrst", ".")) /\
  (esp_bus_parse_pattern (cs "abcdefghijklmnopqrst") = Some (cs "abcdefghijklmno", [], NUL) /\
   spec_parse_pattern (cs "abcdefghijklmnopqrst") = None) /\
  esp_bus_parse_pattern (cs "a:b.c") <> spec_parse_pattern (cs "a:b.c").
Proof. repeat split; try reflexivity. vm_compute. discriminate. Qed.

End AddressParser.

Section RequestResolution.

Lemma find_module_absent mods nm :
  (forall node, In node mods -> mod_name node <> nm) -> find_module_in mods nm = None.
Proof.
  induction mods as [|n mods IH]; simpl; intros H; [reflexivity|].
  assert (E : streq (mod_name n) nm = false) by (apply streq_false, H; left; reflexivity).
  rewrite E. apply IH. intros node Hn. apply H. right. exact Hn.
Qed.

Lemma find_module_first mods pre node post nm :
  mods = pre ++ node :: post -> mod_name node = nm ->
  (forall n, In n pre -> mod_name n <> nm) ->
  find_module_in mods nm = Some node.
Proof.
  intros -> Hnode Hpre. induction pre as [|n pre IH]; simpl.
  - rewrite (proj2 (streq_true _ _) Hnode). reflexivity.
  - assert (E : streq (mod_name n) nm = false) by (apply streq_false, Hpre; left; reflexivity).
    rewrite E. apply IH. intros n' Hn'. apply Hpre. right. exact Hn'.
Qed.

Lemma find_module_found mods nm node :
  find_module_in mods nm = Some node ->
  exists pre post, mods = pre ++ node :: post /\ mod_name node = nm /\
                   (forall n, In n pre -> mod_name n <> nm).
Proof.
  induction mods as [|n mods IH]; simpl; [discriminate|].
  destruct (streq (mod_name n) nm) eqn:E.
  - intros [= ->]. apply streq_true in E. exists [], mods. repeat split; [exact E | intros ? []].
  - intros H. destruct (IH H) as (pre & post & -> & Hn & Hpre).
    apply streq_false in E. exists (n :: pre), post. repeat split; [exact Hn|].
    intros n' [<-|Hn']; [exact E | apply Hpre, Hn'].
Qed.

Lemma parse_not_a_request pattern :
  not_a_request pattern ->
  match esp_bus_parse_pattern pattern with
  | None => True
  | Some (_, _, sep) => sep <> "."
  end.
Proof.
  intros [Hdot | (m & rest & Hs & Hm & Hlen)].
  - unfold esp_bus_parse_pattern. rewrite (strchr_absent _ _ Hdot).
    destruct (strchr pattern ":") as [i|]; [|discriminate].
    destruct (ESP_BUS_NAME_MAX <=? i)%nat; [exact I | discriminate].
  - rewrite (parse_pattern_dot _ _ _ Hs Hm).
    apply Nat.leb_le in Hlen. rewrite Hlen. exact I.
Qed.

(** C2.  [esp_bus_process_request] resolves a pattern as follows.  A pattern
    that does not parse as module, dot, action is an invalid-argument
    failure.  Otherwise, with [m] the text before the first dot: when no
    registered module is named [m] the result is success in non-strict mode
    and a not-found failure in strict mode; when the first module named [m]
    has no request handler the result is a not-supported failure; and when it
    has one, the handler is invoked with the action, the request bytes and
    length, the caller's response arguments and the module's context, and
    its error code and response are returned as they are. *)
Theorem process_request_resolution pattern req len res w :
  (not_a_request pattern ->
     fst (esp_bus_process_request pattern req len res w) = (ESP_ERR_INVALID_ARG, no_out)) /\
  (forall m rest,
     pattern = m ++ "." :: rest -> ~ In "." m -> (length m < ESP_BUS_NAME_MAX)%nat ->
     ((forall node, In node (g_modules w) -> mod_name node <> m) ->
        esp_bus_process_request pattern req len res w =
        if g_strict w
        then ((ESP_ERR_NOT_FOUND, no_out),
              esp_bus_report_error pattern ESP_ERR_NOT_FOUND (cs "module not found") w)
        else ((ESP_OK, no_out), w)) /\
     (forall pre node post,
        g_modules w = pre ++ node :: post -> mod_name node = m ->
        (forall n, In n pre -> mod_name n <> m) ->
        match mod_on_req node with
        | None =>
            fst (esp_bus_process_request pattern req len res w) =
            (ESP_ERR_NOT_SUPPORTED, no_out)
        | Some handler =>
            esp_bus_process_request pattern req len res w =
            (handler (take (ESP_BUS_NAME_MAX - 1) rest) req len res (mod_ctx node),
             invoke (CallReq m (take (ESP_BUS_NAME_MAX - 1) rest) req len res (mod_ctx node)) w)
        end)).
Proof.
  split.
  - intros H. apply parse_not_a_request in H. unfold esp_bus_process_request.
    destruct (esp_bus_parse_pattern pattern) as [[[mn act] sep]|]; [|reflexivity].
    apply Ascii.eqb_neq in H. rewrite H. reflexivity.
  - intros m rest Hs Hm Hlen. unfold esp_bus_process_request.
    rewrite (parse_pattern_dot _ _ _ Hs Hm).
    apply Nat.leb_gt in Hlen. rewrite Hlen. simpl negb. cbv iota.
    unfold esp_bus_find_module. split.
    + intros Habs. rewrite (find_module_absent _ _ Habs). reflexivity.
    + intros pre node post Hmods Hnode Hpre.
      rewrite (find_module_first _ _ _ _ _ Hmods Hnode Hpre).
      destruct (mod_on_req node); [rewrite Hnode|]; reflexivity.
Qed.

End RequestResolution.

Section Registration.

(** C4.  When a module named [nm] is present in the registry of an initialised
    bus, [esp_bus_reg] with a record of that name returns the invalid-state
    error and changes nothing: the module found before is found after, with
    the handlers and context it had, and [esp_bus_exists] still answers yes. *)
Theorem reg_duplicate_rejected node_ok m nm node w :
  g_initialized w = true ->
  name m = Some nm ->
  In node (g_modules w) -> mod_name node = nm ->
  fst (esp_bus_reg node_ok (Some m) w) = ESP_ERR_INVALID_STATE /\
  snd (esp_bus_reg node_ok (Some m) w) = w /\
  esp_bus_find_module nm (snd (esp_bus_reg node_ok (Some m) w)) = esp_bus_find_module nm w /\
  esp_bus_exists (Some nm) (snd (esp_bus_reg node_ok (Some m) w)) = true.
Proof.
  intros Hinit Hname Hin Hnode.
  assert (Hfound : exists n, esp_bus_find_module nm w = Some n).
  { unfold esp_bus_find_module. destruct (find_module_in (g_modules w) nm) as [n|] eqn:E; [eauto|].
    exfalso. revert E. clear -Hin Hnode. induction (g_modules w) as [|x l IH]; [destruct Hin|].
    simpl. destruct (streq (mod_name x) nm) eqn:Ex; [discriminate|].
    destruct Hin as [->|Hin]; [|auto]. apply streq_false in Ex. congruence. }
  destruct Hfound as [n Hn].
  unfold esp_bus_reg, esp_bus_exists. rewrite Hname, Hinit. simpl negb. cbv iota.
  rewrite Hn. simpl. rewrite Hinit, Hn. auto.
Qed.

(** X3.  The module registered first is the one that stays: a second registration
    under a name that fits the name buffer is refused and the first record's
    handlers and context are the ones found afterwards. *)
Lemma reg_twice ok2 m1 m2 nm w :
  g_initialized w = true ->
  name m1 = Some nm -> name m2 = Some nm ->
  (length nm < ESP_BUS_NAME_MAX)%nat ->
  esp_bus_find_module nm w = None ->
  let w1 := snd (esp_bus_reg true (Some m1) w) in
  fst (esp_bus_reg true (Some m1) w) = ESP_OK /\
  esp_bus_reg ok2 (Some m2) w1 = (ESP_ERR_INVALID_STATE, w1) /\
  exists node, esp_bus_find_module nm w1 = Some node /\
               mod_on_req node = on_req m1 /\ mod_on_evt node = on_evt m1 /\
               mod_ctx node = ctx m1.
Proof.
  intros Hinit H1 H2 Hlen Hfree.
  assert (Htake : strncpy nm (ESP_BUS_NAME_MAX - 1) = nm).
  { unfold strncpy. apply take_ge. unfold ESP_BUS_NAME_MAX in *. lia. }
  assert (Hreg : esp_bus_reg true (Some m1) w =
                 (ESP_OK, set_modules ({| mod_name := nm; mod_on_req := on_req m1;
                                          mod_on_evt := on_evt m1; mod_ctx := ctx m1;
                                          mod_actions := actions m1;
                                          mod_events := events m1 |} :: g_modules w) w)).
  { unfold esp_bus_reg. rewrite H1, Hinit, Hfree, Htake. reflexivity. }
  rewrite Hreg. cbn [fst snd]. split; [reflexivity|].
  assert (Hfind : forall node, esp_bus_find_module nm (set_modules (node :: g_modules w) w) =
                               if streq (mod_name node) nm then Some node
                               else esp_bus_find_module nm w) by reflexivity.
  split.
  - unfold esp_bus_reg. rewrite H2, Hfind. cbn [mod_name g_initialized set_modules].
    rewrite Hinit, streq_refl. reflexivity.
  - eexists. rewrite Hfind. cbn [mod_name]. rewrite streq_refl.
    split; [reflexivity|]. cbn. auto.
Qed.

(** A name that does not fit the buffer is stored cut, and is not recognised
    when it is registered again. *)
Example reg_long_name_twice :
  let m := {| name := Some (cs "abcdefghijklmnopqrst"); on_req := None; on_evt := None;
              ctx := 0%Z; actions := []; events := [] |} in
  let w1 := snd (esp_bus_reg true (Some m) ready) in
  fst (esp_bus_reg true (Some m) w1) = ESP_OK /\
  map mod_name (g_modules (snd (esp_bus_reg true (Some m) w1))) =
    [cs "abcdefghijklmno"; cs "abcdefghijklmno"].
Proof. split; reflexivity. Qed.

Lemma reg_twice_witness :
  fst (esp_bus_reg true (Some echo_module) ready) = ESP_OK /\
  esp_bus_reg false (Some echo_module) with_echo = (ESP_ERR_INVALID_STATE, with_echo).
Proof.
  destruct (reg_twice false echo_module echo_module (cs "echo") ready eq_refl eq_refl eq_refl
              (proj1 (Nat.ltb_lt 4 16) eq_refl) eq_refl) as (H1 & H2 & _).
  split; [exact H1 | exact H2].
Defined.

Lemma reg_duplicate_rejected_witness :
  fst (esp_bus_reg true (Some echo_module) with_echo) = ESP_ERR_INVALID_STATE /\
  snd (esp_bus_reg true (Some echo_module) with_echo) = with_echo /\
  esp_bus_find_module (cs "echo") (snd (esp_bus_reg true (Some echo_module) with_echo)) =
    esp_bus_find_module (cs "echo") with_echo /\
  esp_bus_exists (Some (cs "echo")) (snd (esp_bus_reg true (Some echo_module) with_echo)) = true.
Proof.
  apply (reg_duplicate_rejected true echo_module (cs "echo")
           {| mod_name := cs "echo"; mod_on_req := Some echo_handler; mod_on_evt := None;
              mod_ctx := 7%Z; mod_actions := []; mod_events := [] |} with_echo).
  - reflexivity.
  - reflexivity.
  - left. reflexivity.
  - reflexivity.
Defined.

Lemma process_request_resolution_witness :
  esp_bus_process_request (cs "echo.say") (Some [Byte.x01]) 1 no_res with_echo =
  (echo_handler (cs "say") (Some [Byte.x01]) 1%nat no_res 7%Z,
   invoke (CallReq (cs "echo") (cs "say") (Some [Byte.x01]) 1 no_res 7%Z) with_echo).
Proof.
  exact (proj2 (proj2 (process_request_resolution (cs "echo.say") (Some [Byte.x01]) 1 no_res with_echo)
                  (cs "echo") (cs "say") eq_refl (not_in_cs "." "echo" eq_refl)
                  (proj1 (Nat.ltb_lt 4 16) eq_refl))
           [] {| mod_name := cs "echo"; mod_on_req := Some echo_handler; mod_on_evt := None;
                 mod_ctx := 7%Z; mod_actions := []; mod_events := [] |} []
           eq_refl eq_refl (fun _ H => match H with end)).
Defined.

End Registration.

Section Routes.

Lemma set_heap_same w : set_heap (bus_heap w) w = w.
Proof. destruct w; reflexivity. Qed.

Lemma free_set_heap p h w :
  free p (set_heap h w) =
  set_heap (match p with Some q => delete q h | None => h end) w.
Proof. destruct p; reflexivity. Qed.

Lemma free_as_set_heap p w :
  free p w = set_heap (match p with Some q => delete q (bus_heap w) | None => bus_heap w end) w.
Proof. destruct p; [reflexivity | symmetry; apply set_heap_same]. Qed.

Lemma off_selects_targeted evt req r : off_selects evt req r = true <-> targeted evt req r.
Proof.
  unfold off_selects, targeted. destruct (streq (evt_pattern r) evt) eqn:E.
  - apply streq_true in E. destruct req as [q|].
    + rewrite streq_true. split; [intros H; split; [exact E|]; intros ? [= <-]; exact H|].
      intros [_ H]. apply H. reflexivity.
    + split; [intros _; split; [exact E | discriminate] | reflexivity].
  - apply streq_false in E. split; [discriminate | intros [H _]; contradiction].
Qed.

Lemma off_sweep_eq evt req rs : forall w,
  off_sweep evt req rs w =
  (List.filter (fun r => negb (off_selects evt req r)) rs,
   set_heap (release (List.filter (off_selects evt req) rs) (bus_heap w)) w).
Proof.
  induction rs as [|r rs IH]; intros w; simpl.
  - rewrite set_heap_same. reflexivity.
  - destruct (off_selects evt req r); simpl.
    + rewrite IH, free_as_set_heap. reflexivity.
    + rewrite IH. reflexivity.
Qed.

Lemma release_keeps_none rs : forall (h : gmap positive bytes) p,
  h !! p = None -> release rs h !! p = None.
Proof.
  induction rs as [|r rs IH]; intros h p Hp; simpl; [exact Hp|].
  apply IH. destruct (req_data r) as [q|]; [|exact Hp].
  destruct (decide (q = p)) as [->|Hne].
  - apply lookup_delete_eq.
  - rewrite lookup_delete_ne by exact Hne. exact Hp.
Qed.

Lemma release_frees rs : forall (h : gmap positive bytes) r p,
  In r rs -> req_data r = Some p -> release rs h !! p = None.
Proof.
  induction rs as [|r0 rs IH]; intros h r p Hin Hp; [destruct Hin|].
  simpl. destruct Hin as [->|Hin].
  - rewrite Hp. apply release_keeps_none, lookup_delete_eq.
  - eapply IH; eassumption.
Qed.

Lemma release_frame rs : forall (h : gmap positive bytes) p,
  (forall r, In r rs -> req_data r <> Some p) -> release rs h !! p = h !! p.
Proof.
  induction rs as [|r0 rs IH]; intros h p H; simpl; [reflexivity|].
  rewrite IH by (intros r Hr; apply H; right; exact Hr).
  destruct (req_data r0) as [q|] eqn:E; [|reflexivity].
  apply lookup_delete_ne. intros ->. apply (H r0); [left; reflexivity | exact E].
Qed.

(** C9.  On an initialised bus [esp_bus_off evt req] succeeds and keeps, in
    their order, exactly the routes it does not select; it selects a route
    when its event pattern equals [evt] and, if a request filter is given,
    its request pattern equals the filter (so a NULL filter selects every
    route of that event pattern).  The payload block of every removed route
    is freed, every other block of the heap is as before, and nothing else
    of the bus changes. *)
Theorem off_removes_selected evt req w :
  g_initialized w = true ->
  (forall r, off_selects evt req r = true <-> targeted evt req r) /\
  esp_bus_off (Some evt) req w =
    (ESP_OK,
     set_routes (List.filter (fun r => negb (off_selects evt req r)) (g_routes w))
       (set_heap (release (List.filter (off_selects evt req) (g_routes w)) (bus_heap w)) w)) /\
  (forall r p, In r (g_routes w) -> targeted evt req r -> req_data r = Some p ->
     bus_heap (snd (esp_bus_off (Some evt) req w)) !! p = None) /\
  (forall p, (forall r, In r (g_routes w) -> targeted evt req r -> req_data r <> Some p) ->
     bus_heap (snd (esp_bus_off (Some evt) req w)) !! p = bus_heap w !! p).
Proof.
  intros Hinit.
  assert (Heq : esp_bus_off (Some evt) req w =
    (ESP_OK,
     set_routes (List.filter (fun r => negb (off_selects evt req r)) (g_routes w))
       (set_heap (release (List.filter (off_selects evt req) (g_routes w)) (bus_heap w)) w))).
  { unfold esp_bus_off. rewrite Hinit, off_sweep_eq. reflexivity. }
  split; [apply off_selects_targeted|]. split; [exact Heq|].
  rewrite Heq. cbn [snd bus_heap set_routes set_heap]. split.
  - intros r p Hin Ht Hp. apply (release_frees _ _ r); [|exact Hp].
    apply filter_In. split; [exact Hin | apply off_selects_targeted, Ht].
  - intros p H. apply release_frame. intros r Hr.
    apply filter_In in Hr as [Hin Hsel]. apply H; [exact Hin | apply off_selects_targeted, Hsel].
Qed.

Lemma off_removes_selected_witness :
  esp_bus_off (Some (cs "src:evt")) (Some (cs "target.act")) with_routes =
  (ESP_OK,
   set_routes
     (List.filter (fun r => negb (off_selects (cs "src:evt") (Some (cs "target.act")) r))
        (g_routes with_routes))
     (set_heap
        (release (List.filter (off_selects (cs "src:evt") (Some (cs "target.act")))
                    (g_routes with_routes)) (bus_heap with_routes))
        with_routes)).
Proof.
  exact (proj1 (proj2 (off_removes_selected (cs "src:evt") (Some (cs "target.act"))
                         with_routes eq_refl))).
Defined.

(** The same call, evaluated: with the filter only the matching pair goes,
    and its payload with it; without the filter both routes go. *)
Example off_examples :
  map req_pattern (g_routes with_routes) = [cs "other.act"; cs "target.act"] /\
  size (bus_heap with_routes) = 1%nat /\
  map req_pattern
    (g_routes (snd (esp_bus_off (Some (cs "src:evt")) (Some (cs "target.act")) with_routes)))
    = [cs "other.act"] /\
  size (bus_heap (snd (esp_bus_off (Some (cs "src:evt")) (Some (cs "target.act")) with_routes)))
    = 0%nat /\
  g_routes (snd (esp_bus_off (Some (cs "src:evt")) None with_routes)) = [] /\
  map req_pattern
    (g_routes (snd (esp_bus_off (Some (cs "src:evt")) (Some (cs "other.act")) with_routes)))
    = [cs "target.act"] /\
  size (bus_heap (snd (esp_bus_off (Some (cs "src:evt")) (Some (cs "other.act")) with_routes)))
    = 1%nat.
Proof. repeat split; vm_compute; reflexivity. Qed.

End Routes.

Section PayloadAllocation.

(** The two enqueuing operations give up when the payload copy cannot be
    allocated: the caller gets the no-memory error and the bus is untouched. *)
Lemma req_payload_alloc_failure env caller pattern bs len res timeout_ms w :
  g_initialized w = true -> on_worker caller w = false ->
  payload_alloc_ok env = false -> (0 < len)%nat ->
  esp_bus_req env caller (Some pattern) (Some bs) len res timeout_ms w =
  ((ESP_ERR_NO_MEM, no_out), w).
Proof.
  intros Hinit Hw Hfail Hlen. unfold esp_bus_req, copy_payload, malloc.
  rewrite Hinit, Hw, Hfail. apply Nat.ltb_lt in Hlen. rewrite Hlen. reflexivity.
Qed.

Lemma emit_payload_alloc_failure queue_ok src evt bs len w :
  g_initialized w = true -> (0 < len)%nat ->
  esp_bus_emit false queue_ok (Some src) (Some evt) (Some bs) len w = (ESP_ERR_NO_MEM, w).
Proof.
  intros Hinit Hlen. unfold esp_bus_emit, copy_payload, malloc.
  rewrite Hinit. apply Nat.ltb_lt in Hlen. rewrite Hlen. reflexivity.
Qed.

(** [esp_bus_on] does not: when the node is allocated and the payload copy
    is not, the route is linked with a NULL payload of length zero and the
    call reports success. *)
Lemma on_payload_alloc_failure evt req bs len w :
  g_initialized w = true -> (0 < len)%nat ->
  esp_bus_on true false (Some evt) (Some req) (Some bs) len w =
  (ESP_OK,
   set_routes ({| evt_pattern := strncpy evt (ESP_BUS_PATTERN_MAX - 1);
                  req_pattern := strncpy req (ESP_BUS_PATTERN_MAX - 1);
                  req_data := None; req_len := 0; transform := None;
                  route_ctx := 0%Z |} :: g_routes w) w).
Proof.
  intros Hinit Hlen. unfold esp_bus_on, malloc.
  rewrite Hinit. apply Nat.ltb_lt in Hlen. rewrite Hlen. reflexivity.
Qed.

(** C6, at the failing input: on a freshly initialised bus, a route with a
    one-byte payload is requested and the payload allocation fails.  The call
    returns [ESP_OK] and the registry holds the route without its payload,
    where [esp_bus_req] and [esp_bus_emit] in the same situation return
    [ESP_ERR_NO_MEM] and leave the bus as it was. *)
Theorem on_adds_route_without_payload :
  esp_bus_on true false (Some (cs "a:e")) (Some (cs "b.f")) (Some [Byte.x01]) 1 ready =
    (ESP_OK,
     set_routes [{| evt_pattern := cs "a:e"; req_pattern := cs "b.f"; req_data := None;
                    req_len := 0; transform := None; route_ctx := 0%Z |}] ready) /\
  esp_bus_emit false true (Some (cs "a")) (Some (cs "e")) (Some [Byte.x01]) 1 ready =
    (ESP_ERR_NO_MEM, ready) /\
  esp_bus_req {| payload_alloc_ok := false; sem_alloc_ok := true; send_ok := true;
                 worker_ran := true |} 2 (Some (cs "b.f")) (Some [Byte.x01]) 1 no_res 0 ready =
    ((ESP_ERR_NO_MEM, no_out), ready).
Proof. repeat split. Qed.

End PayloadAllocation.

Section DroppedEvents.

Lemma dot_not_an_event pattern : In "." pattern -> not_an_event pattern.
Proof.
  intros H. destruct (strchr_present _ _ H) as [i Hi].
  destruct (strchr_split _ _ _ Hi) as (m & rest & Hs & Hm & _).
  unfold not_an_event. rewrite (parse_pattern_dot _ _ _ Hs Hm).
  destruct (ESP_BUS_NAME_MAX <=? length m)%nat; [exact I | discriminate].
Qed.

Lemma process_event_dropped msg w :
  msg_type msg = MSG_EVT -> not_an_event (msg_pattern msg) ->
  process_message msg w = ((None, no_out), free (msg_data msg) w).
Proof.
  intros Ht Hp. unfold process_message. rewrite Ht. unfold not_an_event in Hp.
  destruct (esp_bus_parse_pattern (msg_pattern msg)) as [[[m e] sep]|]; [|reflexivity].
  apply Ascii.eqb_neq in Hp. rewrite Hp. reflexivity.
Qed.

Lemma dot_in_source src evt :
  In "." src -> (length src < ESP_BUS_PATTERN_MAX)%nat ->
  In "." (snprintf_colon ESP_BUS_PATTERN_MAX src evt).
Proof.
  intros Hdot Hlen. unfold snprintf_colon. rewrite take_app.
  apply in_or_app. left. rewrite take_ge by lia. exact Hdot.
Qed.

(** C10.  An event envelope whose stored pattern does not parse back with a
    colon as separator is dropped by the worker: its payload is freed and
    that is all -- no subscriber, route, handler or error callback is
    invoked, nothing is stored for any caller and the registries and the
    queue are as before.  Every successfully emitted event whose stored
    pattern contains a dot is such an envelope: the emitter has received
    [ESP_OK] and the event is lost.  A dot in a source name that fits the
    pattern buffer is a dot in the stored pattern. *)
Theorem unparsed_event_dropped :
  (forall msg w,
     msg_type msg = MSG_EVT -> not_an_event (msg_pattern msg) ->
     process_message msg w = ((None, no_out), free (msg_data msg) w) /\
     bus_trace (snd (process_message msg w)) = bus_trace w /\
     bus_heap (snd (process_message msg w)) =
       match msg_data msg with Some p => delete p (bus_heap w) | None => bus_heap w end) /\
  (forall alloc_ok src evt data len w w1,
     In "." (snprintf_colon ESP_BUS_PATTERN_MAX src evt) ->
     esp_bus_emit alloc_ok true (Some src) (Some evt) data len w = (ESP_OK, w1) ->
     exists msg,
       bus_queue w1 = bus_queue w ++ [msg] /\
       msg_pattern msg = snprintf_colon ESP_BUS_PATTERN_MAX src evt /\
       forall w', process_message msg w' = ((None, no_out), free (msg_data msg) w')) /\
  (forall src evt,
     In "." src -> (length src < ESP_BUS_PATTERN_MAX)%nat ->
     In "." (snprintf_colon ESP_BUS_PATTERN_MAX src evt)).
Proof.
  split; [|split; [|apply dot_in_source]].
  - intros msg w Ht Hp. rewrite (process_event_dropped msg w Ht Hp).
    repeat split; destruct (msg_data msg); reflexivity.
  - intros alloc_ok src evt data len w w1 Hdot Hemit.
    unfold esp_bus_emit in Hemit.
    destruct (negb (g_initialized w)); [discriminate|].
    destruct (copy_payload alloc_ok data len w) as [[[p dlen] w0]|] eqn:Hcopy; [|discriminate].
    unfold xQueueSend in Hemit. injection Hemit as <-. unfold copy_payload in Hcopy.
    exists {| msg_type := MSG_EVT;
              msg_pattern := snprintf_colon ESP_BUS_PATTERN_MAX src evt;
              msg_data := p; msg_len := dlen; msg_res := no_res;
              msg_result := false; msg_done := None |}.
    split; [|split; [reflexivity|]].
    + cbn [bus_queue set_queue]. f_equal.
      destruct data as [bs|]; [destruct (0 <? len)%nat|]; try (injection Hcopy as <- <- <-; reflexivity).
      unfold malloc in Hcopy. destruct alloc_ok; [|discriminate].
      injection Hcopy as <- <- <-. reflexivity.
    + intros w'. apply process_event_dropped; [reflexivity|].
      apply dot_not_an_event, Hdot.
Qed.

(** An event from source [a.b] on a bus with a subscriber to everything. *)
Lemma unparsed_event_dropped_witness :
  exists msg,
    bus_queue (snd (esp_bus_emit true true (Some (cs "a.b")) (Some (cs "e"))
                      (Some [Byte.x01]) 1 with_sub)) = bus_queue with_sub ++ [msg] /\
    msg_pattern msg = snprintf_colon ESP_BUS_PATTERN_MAX (cs "a.b") (cs "e") /\
    forall w', process_message msg w' = ((None, no_out), free (msg_data msg) w').
Proof.
  apply (proj1 (proj2 unparsed_event_dropped) true (cs "a.b") (cs "e")
           (Some [Byte.x01]) 1%nat with_sub).
  - apply (proj2 (proj2 unparsed_event_dropped)); [right; left; reflexivity | unfold ESP_BUS_PATTERN_MAX; cbn; lia].
  - vm_compute. reflexivity.
Defined.

(** The worker's turn after an emit, evaluated: the event of source [ab]
    reaches the subscriber, the event of source [a.b] reaches nobody, and in
    both cases the emitter was told [ESP_OK] and the payload is freed. *)
Example emit_then_drain_examples :
  let emit src := esp_bus_emit true true (Some (cs src)) (Some (cs "e")) (Some [Byte.x01]) 1
                    with_sub in
  fst (emit "ab"%string) = ESP_OK /\
  bus_trace (snd (worker_drain (snd (emit "ab"%string)))) =
    [CallSub 0 5%nat (cs "e") (Some [Byte.x01]) 1 0%Z] /\
  fst (emit "a.b"%string) = ESP_OK /\
  bus_trace (snd (worker_drain (snd (emit "a.b"%string)))) = [] /\
  size (bus_heap (snd (emit "a.b"%string))) = 1%nat /\
  size (bus_heap (snd (worker_drain (snd (emit "a.b"%string))))) = 0%nat.
Proof. repeat split; vm_compute; reflexivity. Qed.

End DroppedEvents.

Section Requests.

Lemma only_trace_refl w : only_trace w w.
Proof. exists (bus_trace w). destruct w; reflexivity. Qed.

Lemma only_trace_trans w1 w2 w3 : only_trace w1 w2 -> only_trace w2 w3 -> only_trace w1 w3.
Proof. intros [t ->] [t' ->]. exists t'. reflexivity. Qed.

Lemma invoke_only_trace c w : only_trace w (invoke c w).
Proof. eexists. reflexivity. Qed.

Lemma report_error_only_trace pattern err msg w :
  only_trace w (esp_bus_report_error pattern err msg w).
Proof.
  unfold esp_bus_report_error. destruct (g_on_err w);
    [apply invoke_only_trace | apply only_trace_refl].
Qed.

Lemma process_request_only_trace pattern req len res w :
  only_trace w (snd (esp_bus_process_request pattern req len res w)).
Proof.
  unfold esp_bus_process_request.
  destruct (esp_bus_parse_pattern pattern) as [[[m a] sep]|];
    [|apply report_error_only_trace].
  destruct (negb (Ascii.eqb sep ".")); [apply report_error_only_trace|].
  destruct (esp_bus_find_module m w) as [node|].
  - destruct (mod_on_req node); [apply invoke_only_trace | apply report_error_only_trace].
  - destruct (g_strict w); [apply report_error_only_trace | apply only_trace_refl].
Qed.

Lemma fold_only_trace {A} (f : esp_bus_state_t -> A -> esp_bus_state_t) l :
  (forall w a, only_trace w (f w a)) -> forall w, only_trace w (fold_left f l w).
Proof.
  intros Hf. induction l as [|a l IH]; intros w; simpl; [apply only_trace_refl|].
  eapply only_trace_trans; [apply Hf | apply IH].
Qed.

Lemma dispatch_event_only_trace src evt data len w :
  only_trace w (esp_bus_dispatch_event src evt data len w).
Proof.
  unfold esp_bus_dispatch_event.
  set (full := snprintf_colon ESP_BUS_PATTERN_MAX src evt).
  apply (only_trace_trans _ (fold_left (dispatch_sub evt full data len) (g_subs w) w));
    apply fold_only_trace.
  - intros w' sub. unfold dispatch_sub.
    destruct (esp_bus_match_pattern _ _); [apply invoke_only_trace | apply only_trace_refl].
  - intros w' r. unfold dispatch_route.
    destruct (negb _); [apply only_trace_refl|].
    destruct (transform r) as [fn|]; [|apply process_request_only_trace].
    destruct (fn evt data len (route_ctx r)) as [[out_req out_data] out_len].
    destruct out_req; [|apply invoke_only_trace].
    eapply only_trace_trans; [apply invoke_only_trace | apply process_request_only_trace].
Qed.

Lemma free_only_trace p w w' : only_trace w w' -> only_trace (free p w) (free p w').
Proof. intros [t ->]. exists t. destruct p; reflexivity. Qed.

(** The worker changes the bus by invocations and by freeing the payload. *)
Lemma process_message_frame msg w :
  only_trace (match msg_type msg with
              | MSG_TRIGGER => w
              | _ => free (msg_data msg) w
              end) (snd (process_message msg w)).
Proof.
  unfold process_message. destruct (msg_type msg).
  - pose proof (process_request_only_trace (msg_pattern msg) (load w (msg_data msg))
                  (msg_len msg) (msg_res msg) w) as H.
    destruct (esp_bus_process_request _ _ _ _ w) as [[err out] w1]. cbn [snd] in *.
    apply free_only_trace. destruct (msg_done msg);
      [eapply only_trace_trans; [exact H | apply invoke_only_trace] | exact H].
  - cbn [snd]. apply free_only_trace.
    destruct (esp_bus_parse_pattern _) as [[[m e] sep]|]; [|apply only_trace_refl].
    destruct (Ascii.eqb sep ":"); [apply dispatch_event_only_trace | apply only_trace_refl].
  - apply only_trace_refl.
Qed.










Lemma payload_block_free w : bus_heap w !! payload_block w = None.
Proof. unfold payload_block. apply not_elem_of_dom. apply is_fresh. Qed.


(** What the payload copy leaves behind: nothing, or one block at
    [payload_block w] that was free before. *)
Lemma copy_payload_inv ok src len w data dlen w1 :
  copy_payload ok src len w = Some (data, dlen, w1) ->
  (data = None /\ w1 = w) \/
  (data = Some (payload_block w) /\
   exists x, w1 = set_heap (<[payload_block w := x]> (bus_heap w)) w).
Proof.
  unfold copy_payload, malloc, memcpy. destruct src as [bs|].
  - destruct (0 <? len)%nat.
    + destruct ok; [|discriminate]. intros [= <- <- <-]. right. split; [reflexivity|].
      exists (take len bs). cbn [bus_heap set_heap]. rewrite insert_insert_eq.
      destruct w; reflexivity.
    + intros [= <- <- <-]. left. auto.
  - intros [= <- <- <-]. left. auto.
Qed.

Lemma copy_payload_succeeds src len w :
  exists data dlen w1, copy_payload true src len w = Some (data, dlen, w1).
Proof.
  unfold copy_payload, malloc. destruct src; [destruct (0 <? len)%nat|]; eauto.
Qed.

Lemma free_copied ok src len w data dlen w1 :
  copy_payload ok src len w = Some (data, dlen, w1) -> free data w1 = w.
Proof.
  intros H. apply copy_payload_inv in H as [[-> ->]|[-> [x ->]]]; [reflexivity|].
  cbn [free bus_heap set_heap]. rewrite delete_insert_eq, delete_id by apply payload_block_free.
  destruct w; reflexivity.
Qed.


Lemma set_sems_same w : set_sems (bus_sems w) w = w.
Proof. destruct w; reflexivity. Qed.












(** The same call with a timeout of 100 ms: when the worker runs, the caller
    gets the handler's result and the payload block is free again; when it
    does not, the caller gets a timeout and the block stays with the queued
    envelope. *)
Example req_blocking_examples :
  let env ran := {| payload_alloc_ok := true; sem_alloc_ok := true; send_ok := true;
                    worker_ran := ran |} in
  let call ran := esp_bus_req (env ran) 2 (Some (cs "echo.say")) (Some [Byte.x01]) 1
                    {| res_buf := true; res_size := 8; res_len := true |} 100 with_echo in
  fst (call true) = (ESP_OK, {| res_written := Some [Byte.x01]; res_len_written := Some 1%nat |}) /\
  size (bus_heap (snd (call true))) = 0%nat /\ bus_queue (snd (call true)) = [] /\
  fst (call false) = (ESP_ERR_TIMEOUT, no_out) /\
  size (bus_heap (snd (call false))) = 1%nat /\ length (bus_queue (snd (call false))) = 1%nat.
Proof. repeat split; vm_compute; reflexivity. Qed.

End Requests.

Section Scheduler.

Local Open Scope Z_scope.

Lemma wrap64_small z : - 2 ^ 63 <= z < 2 ^ 63 -> wrap64 z = z.
Proof. intros H. unfold wrap64. rewrite Z.mod_small; lia. Qed.

Lemma next_wait_step_bounds now acc s :
  1000 <= acc <= 100000 -> 1000 <= next_wait_step now acc s <= 100000.
Proof.
  intros H. unfold next_wait_step.
  destruct (0 <? next_run_us s); [|exact H].
  destruct (wrap64 (next_run_us s - now) <? 1000) eqn:E1.
  - destruct (1000 <? acc) eqn:E2; lia.
  - apply Z.ltb_ge in E1.
    destruct (wrap64 (next_run_us s - now) <? acc) eqn:E2; [|exact H].
    apply Z.ltb_lt in E2. lia.
Qed.

Lemma fold_next_wait_bounds now ss : forall acc,
  1000 <= acc <= 100000 -> 1000 <= fold_left (next_wait_step now) ss acc <= 100000.
Proof.
  induction ss as [|s ss IH]; intros acc H; simpl; [exact H|].
  apply IH, next_wait_step_bounds, H.
Qed.

Lemma ms_of_wait min_wait :
  1000 <= min_wait <= 100000 ->
  (if 0 <? to_uint32 (min_wait ÷ 1000) then to_uint32 (min_wait ÷ 1000) else 1) = min_wait / 1000
  /\ 1 <= min_wait / 1000 <= 100.
Proof.
  intros H. rewrite Z.quot_div_nonneg by lia.
  assert (Hq : 1 <= min_wait / 1000 <= 100).
  { split; [apply Z.div_le_lower_bound; lia | apply Z.div_le_upper_bound; lia]. }
  split; [|exact Hq]. unfold to_uint32. rewrite Z.mod_small by lia.
  destruct (0 <? min_wait / 1000) eqn:E; [reflexivity|]. apply Z.ltb_ge in E. lia.
Qed.

Lemma fold_min_acc l : forall x acc,
  fold_right Z.min (Z.min x acc) l = Z.min x (fold_right Z.min acc l).
Proof. induction l as [|y l IH]; intros x acc; simpl; [reflexivity|]. rewrite IH. lia. Qed.

Lemma next_wait_step_min now acc s :
  0 <= now < 2 ^ 63 -> - 2 ^ 63 <= next_run_us s < 2 ^ 63 ->
  next_wait_step now acc s =
  if 0 <? next_run_us s then Z.min (Z.max 1000 (next_run_us s - now)) acc else acc.
Proof.
  intros Hnow Hs. unfold next_wait_step.
  destruct (0 <? next_run_us s) eqn:E; [|reflexivity]. apply Z.ltb_lt in E.
  rewrite wrap64_small by lia.
  destruct (next_run_us s - now <? 1000) eqn:E1;
    [apply Z.ltb_lt in E1 | apply Z.ltb_ge in E1].
  - destruct (1000 <? acc) eqn:E2; [apply Z.ltb_lt in E2 | apply Z.ltb_ge in E2]; lia.
  - destruct (next_run_us s - now <? acc) eqn:E2; [apply Z.ltb_lt in E2 | apply Z.ltb_ge in E2]; lia.
Qed.

Lemma fold_next_wait_min now ss : forall acc,
  0 <= now < 2 ^ 63 ->
  (forall s, In s ss -> - 2 ^ 63 <= next_run_us s < 2 ^ 63) ->
  fold_left (next_wait_step now) ss acc =
  fold_right Z.min acc
    (map (fun s => Z.max 1000 (next_run_us s - now))
       (List.filter (fun s => 0 <? next_run_us s) ss)).
Proof.
  induction ss as [|s ss IH]; intros acc Hnow Hss; simpl; [reflexivity|].
  rewrite IH by (auto; intros s' Hs'; apply Hss; right; exact Hs').
  rewrite next_wait_step_min by (auto; apply Hss; left; reflexivity).
  destruct (0 <? next_run_us s); simpl; [|reflexivity].
  apply fold_min_acc.
Qed.

(** C7.  [esp_bus_calc_next_wait] is at least one millisecond and at most a
    hundred, whatever the registry holds, armed timers or none; and it is
    the whole number of milliseconds in the smallest time to a due date
    among the timers with a positive due date, each such time taken as no
    less than a millisecond and the whole as no more than a tenth of a
    second.  The second part reads the clock and the due dates as [int64_t]
    values, the clock not negative. *)
Theorem calc_next_wait_correct now w :
  1 <= esp_bus_calc_next_wait now w <= 100 /\
  (0 <= now < 2 ^ 63 ->
   (forall s, In s (g_services w) -> - 2 ^ 63 <= next_run_us s < 2 ^ 63) ->
   esp_bus_calc_next_wait now w = spec_next_wait_us now (g_services w) / 1000) /\
  ((forall s, In s (g_services w) -> next_run_us s <= 0) ->
   esp_bus_calc_next_wait now w = 100).
Proof.
  unfold esp_bus_calc_next_wait.
  pose proof (fold_next_wait_bounds now (g_services w) 100000 ltac:(lia)) as Hb.
  destruct (ms_of_wait _ Hb) as [Heq Hms]. rewrite Heq.
  split; [exact Hms|]. split.
  - intros Hnow Hss. unfold spec_next_wait_us.
    rewrite fold_next_wait_min by assumption. reflexivity.
  - intros Hnone.
    assert (Hfold : fold_left (next_wait_step now) (g_services w) 100000 = 100000).
    { clear -Hnone. generalize 100000. induction (g_services w) as [|s ss IH]; intros acc; simpl; [reflexivity|].
      unfold next_wait_step at 2.
      assert (E : (0 <? next_run_us s) = false) by (apply Z.ltb_ge, Hnone; left; reflexivity).
      rewrite E. apply IH. intros s' Hs'. apply Hnone. right. exact Hs'. }
    rewrite Hfold. reflexivity.
Qed.


Lemma with_timers_services :
  g_services with_timers =
  [ {| svc_id := 1; svc_fn := 12%nat; svc_ctx := 0; interval_ms := 40;
       next_run_us := 1040000; svc_repeat := true |};
    {| svc_id := 0; svc_fn := 11%nat; svc_ctx := 0; interval_ms := 5;
       next_run_us := 1005000; svc_repeat := false |} ].
Proof. reflexivity. Qed.

Lemma calc_next_wait_correct_witness :
  esp_bus_calc_next_wait 1000000 with_timers =
  spec_next_wait_us 1000000 (g_services with_timers) / 1000.
Proof.
  apply (proj1 (proj2 (calc_next_wait_correct 1000000 with_timers))).
  - lia.
  - intros s Hs. rewrite with_timers_services in Hs.
    destruct Hs as [<-|[<-|[]]]; cbn; lia.
Defined.

(** At one second the one-shot timer is 5 ms away, the repeating one 40 ms;
    with the clock past every due date the wait is the minimum. *)
Example calc_next_wait_examples :
  esp_bus_calc_next_wait 1000000 with_timers = 5 /\
  esp_bus_calc_next_wait 1004500 with_timers = 1 /\
  esp_bus_calc_next_wait 2000000 with_timers = 1 /\
  esp_bus_calc_next_wait 1000000 ready = 100.
Proof. repeat split. Qed.



Lemma run_due_trace now ss : forall w,
  snd (run_due now ss w) =
  set_trace (bus_trace w ++ map svc_call (List.filter (due now) ss)) w.
Proof.
  induction ss as [|s ss IH]; intros w; simpl.
  - rewrite app_nil_r. destruct w; reflexivity.
  - unfold due at 1.
    destruct (next_run_us s <=? 0) eqn:E0.
    + assert (E : (0 <? next_run_us s) = false) by (apply Z.ltb_ge, Z.leb_le, E0).
      rewrite E. simpl. specialize (IH w).
      destruct (run_due now ss w) as [rest' w2]. exact IH.
    + assert (E : (0 <? next_run_us s) = true) by (apply Z.ltb_lt, Z.leb_gt, E0).
      rewrite E. simpl. destruct (next_run_us s <=? now).
      * destruct (svc_repeat s);
          match goal with
          | |- context [run_due now ss ?w1] =>
              specialize (IH w1); destruct (run_due now ss w1) as [rest' w2]
          end; cbn [snd] in *; rewrite IH; unfold invoke; cbn [set_trace bus_trace];
          rewrite <- app_assoc; reflexivity.
      * specialize (IH w). destruct (run_due now ss w) as [rest' w2]. exact IH.
Qed.

Lemma run_due_nodes now ss : forall w,
  List.filter (fun s => negb (retired s)) (fst (run_due now ss w)) = omap (after_sweep now) ss.
Proof.
  induction ss as [|s ss IH]; intros w; [reflexivity|].
  cbn [run_due omap list_omap]. unfold after_sweep at 1, due.
  destruct (next_run_us s <=? 0) eqn:E0.
  - assert (E : (0 <? next_run_us s) = false) by (apply Z.ltb_ge, Z.leb_le, E0).
    rewrite E. cbn [andb]. specialize (IH w).
    destruct (run_due now ss w) as [rest' w2]. cbn [fst List.filter] in *.
    destruct (retired s); cbn [negb]; [exact IH | f_equal; exact IH].
  - assert (E : (0 <? next_run_us s) = true) by (apply Z.ltb_lt, Z.leb_gt, E0).
    rewrite E. cbn [andb]. destruct (next_run_us s <=? now).
    + destruct (svc_repeat s) eqn:Er;
        match goal with
        | |- context [run_due now ss ?w1] =>
            specialize (IH w1); destruct (run_due now ss w1) as [rest' w2]
        end; cbn [fst List.filter] in *; unfold retired; cbn [svc_repeat next_run_us set_next_run];
        rewrite Er; cbn; [f_equal; exact IH | exact IH].
    + specialize (IH w). destruct (run_due now ss w) as [rest' w2]. cbn [fst List.filter] in *.
      assert (Er : retired s = false).
      { unfold retired. apply Z.leb_gt in E0.
        assert (En : (next_run_us s =? 0) = false) by (apply Z.eqb_neq; lia).
        rewrite En. apply andb_false_r. }
      rewrite Er. cbn [negb]. f_equal. exact IH.
Qed.

Lemma run_services_eq now w :
  esp_bus_run_services now w =
  set_services (omap (after_sweep now) (g_services w))
    (set_trace (bus_trace w ++ map svc_call (List.filter (due now) (g_services w))) w).
Proof.
  unfold esp_bus_run_services.
  pose proof (run_due_trace now (g_services w) w) as Ht.
  pose proof (run_due_nodes now (g_services w) w) as Hn.
  destruct (run_due now (g_services w) w) as [ss w1]. cbn [fst snd] in *.
  rewrite Hn, Ht. reflexivity.
Qed.


Lemma fired_app id t1 t2 : fired id (t1 ++ t2) = (fired id t1 + fired id t2)%nat.
Proof. unfold fired. rewrite List.filter_app, length_app. reflexivity. Qed.

Lemma fired_svc_calls id ss :
  fired id (map svc_call ss) = length (List.filter (fun s => svc_id s =? id) ss).
Proof.
  unfold fired. induction ss as [|s ss IH]; [reflexivity|].
  cbn [map List.filter svc_call]. destruct (svc_id s =? id); cbn [length]; rewrite IH; reflexivity.
Qed.

Lemma after_sweep_id now s s' : after_sweep now s = Some s' -> svc_id s' = svc_id s.
Proof.
  unfold after_sweep. destruct (due now s).
  - destruct (svc_repeat s); [|discriminate]. intros [= <-]. reflexivity.
  - destruct (retired s); [discriminate|]. intros [= <-]. reflexivity.
Qed.

Lemma sweep_ids_in now ss i :
  In i (map svc_id (omap (after_sweep now) ss)) -> In i (map svc_id ss).
Proof.
  induction ss as [|s ss IH]; [intros []|].
  cbn [omap list_omap map]. destruct (after_sweep now s) as [s'|] eqn:E.
  - cbn [map]. intros [<-|H]; [left; symmetry; eapply after_sweep_id, E | right; apply IH, H].
  - intros H. right. apply IH, H.
Qed.

Lemma sweep_ids_nodup now ss :
  List.NoDup (map svc_id ss) -> List.NoDup (map svc_id (omap (after_sweep now) ss)).
Proof.
  induction ss as [|s ss IH]; [intros _; constructor|].
  cbn [omap list_omap map]. intros H. apply List.NoDup_cons_iff in H as [Hs Hss].
  destruct (after_sweep now s) as [s'|] eqn:E; [|apply IH, Hss].
  cbn [map]. apply List.NoDup_cons_iff. split; [|apply IH, Hss].
  rewrite (after_sweep_id _ _ _ E). intros H. apply Hs. eapply sweep_ids_in, H.
Qed.

Lemma sweep_keeps now ss s :
  In s ss -> after_sweep now s = Some s -> In s (omap (after_sweep now) ss).
Proof.
  induction ss as [|x ss IH]; [intros []|]. cbn [omap list_omap].
  intros [->|H] E.
  - rewrite E. left. reflexivity.
  - destruct (after_sweep now x); [right|]; apply IH; assumption.
Qed.

Lemma sweep_drops now ss s :
  List.NoDup (map svc_id ss) -> In s ss -> after_sweep now s = None ->
  ~ In (svc_id s) (map svc_id (omap (after_sweep now) ss)).
Proof.
  induction ss as [|x ss IH]; [intros _ []|]. cbn [omap list_omap map].
  intros Hnd Hin E. apply List.NoDup_cons_iff in Hnd as [Hx Hss].
  destruct Hin as [->|Hin].
  - rewrite E. intros H. apply Hx. eapply sweep_ids_in, H.
  - destruct (after_sweep now x) as [x'|] eqn:Ex; [|apply IH; assumption].
    cbn [map]. intros [H|H]; [|revert H; apply IH; assumption].
    rewrite (after_sweep_id _ _ _ Ex) in H. apply Hx. rewrite H.
    apply in_map, Hin.
Qed.

Lemma count_absent id (P : svc_node_t -> bool) ss :
  ~ In id (map svc_id ss) ->
  length (List.filter (fun x => svc_id x =? id) (List.filter P ss)) = 0%nat.
Proof.
  induction ss as [|x ss IH]; [reflexivity|]. cbn [map List.filter]. intros H.
  assert (Hx : svc_id x <> id) by (intros E; apply H; left; exact E).
  assert (Hss : ~ In id (map svc_id ss)) by (intros E; apply H; right; exact E).
  destruct (P x); [|apply IH, Hss]. cbn [List.filter].
  apply Z.eqb_neq in Hx. rewrite Hx. apply IH, Hss.
Qed.

Lemma count_unique (P : svc_node_t -> bool) ss s :
  List.NoDup (map svc_id ss) -> In s ss ->
  length (List.filter (fun x => svc_id x =? svc_id s) (List.filter P ss)) =
  if P s then 1%nat else 0%nat.
Proof.
  induction ss as [|x ss IH]; [intros _ []|]. cbn [map List.filter].
  intros Hnd Hin. apply List.NoDup_cons_iff in Hnd as [Hx Hss].
  destruct Hin as [->|Hin].
  - destruct (P s); [|apply count_absent, Hx].
    cbn [List.filter]. rewrite Z.eqb_refl. cbn [length].
    rewrite (count_absent _ P ss Hx). reflexivity.
  - assert (Hne : svc_id x <> svc_id s).
    { intros E. apply Hx. rewrite E. apply in_map, Hin. }
    destruct (P x); [|apply IH; assumption]. cbn [List.filter].
    apply Z.eqb_neq in Hne. rewrite Hne. apply IH; assumption.
Qed.

(** A timer that is not registered does not fire and does not come back. *)
Lemma absent_never_fires id nows : forall w,
  ~ In id (map svc_id (g_services w)) ->
  fired id (bus_trace (run_sweeps nows w)) = fired id (bus_trace w) /\
  ~ In id (map svc_id (g_services (run_sweeps nows w))).
Proof.
  unfold run_sweeps. induction nows as [|now nows IH]; intros w Habs; [split; [reflexivity | exact Habs]|].
  cbn [fold_left]. rewrite run_services_eq.
  match goal with |- context [fold_left _ nows ?w1] => destruct (IH w1) as [Hf Ha] end.
  { cbn [g_services set_services]. intros H. apply Habs. eapply sweep_ids_in, H. }
  split; [|exact Ha]. rewrite Hf. cbn [bus_trace set_services set_trace].
  rewrite fired_app, fired_svc_calls, (count_absent _ _ _ Habs). lia.
Qed.

Lemma one_shot_once nows : forall w s,
  List.NoDup (map svc_id (g_services w)) -> In s (g_services w) ->
  svc_repeat s = false -> armed s ->
  fired (svc_id s) (bus_trace (run_sweeps nows w)) =
    (fired (svc_id s) (bus_trace w) + if existsb (due_at s) nows then 1 else 0)%nat /\
  (existsb (due_at s) nows = true ->
     ~ In (svc_id s) (map svc_id (g_services (run_sweeps nows w)))) /\
  (existsb (due_at s) nows = false -> In s (g_services (run_sweeps nows w))).
Proof.
  induction nows as [|now nows IH]; intros w s Hnd Hin Hone Harmed.
  - cbn. split; [lia|]. split; [discriminate | intros _; exact Hin].
  - assert (Hdue : due now s = due_at s now).
    { unfold due, due_at. unfold armed in Harmed. apply Z.ltb_lt in Harmed. rewrite Harmed. reflexivity. }
    unfold run_sweeps in *. cbn [fold_left existsb]. rewrite run_services_eq.
    set (w1 := set_services _ _).
    assert (Hnd1 : List.NoDup (map svc_id (g_services w1))) by apply sweep_ids_nodup, Hnd.
    assert (Hf1 : fired (svc_id s) (bus_trace w1) =
                  (fired (svc_id s) (bus_trace w) + if due_at s now then 1 else 0)%nat).
    { subst w1. cbn [bus_trace set_services set_trace].
      rewrite fired_app, fired_svc_calls, (count_unique _ _ _ Hnd Hin), Hdue. reflexivity. }
    destruct (due_at s now) eqn:E; cbn [orb].
    + assert (Hgone : ~ In (svc_id s) (map svc_id (g_services w1))).
      { apply sweep_drops; [exact Hnd | exact Hin|]. unfold after_sweep. rewrite Hdue, Hone. reflexivity. }
      destruct (absent_never_fires (svc_id s) nows w1 Hgone) as [Hf Ha].
      unfold run_sweeps in *. rewrite Hf, Hf1. split; [reflexivity|]. split; [intros _; exact Ha | discriminate].
    + assert (Hkept : In s (g_services w1)).
      { apply sweep_keeps; [exact Hin|]. unfold after_sweep. rewrite Hdue.
        assert (Er : retired s = false).
        { unfold retired, armed in *. assert (En : (next_run_us s =? 0) = false) by (apply Z.eqb_neq; lia).
          rewrite En. apply andb_false_r. }
        rewrite Er. reflexivity. }
      destruct (IH w1 s Hnd1 Hkept Hone Harmed) as (Hf & Hyes & Hno).
      rewrite Hf, Hf1. split; [lia|]. split; assumption.
Qed.


Lemma rearm_time_exact now s :
  0 <= now < 2 ^ 62 -> 0 <= interval_ms s < 2 ^ 32 ->
  rearm_time now s = now + interval_ms s * 1000.
Proof. intros Hnow Hi. unfold rearm_time. apply wrap64_small. lia. Qed.

(** C8.  One sweep at clock reading [now] invokes, in registry order, the
    callback of every timer with a positive due date not later than [now],
    once each and nothing else.  Afterwards a repeating timer that fired is
    due at [now] plus its interval (however late the sweep was: firings
    missed in between are skipped), a one-shot timer that fired is no longer
    in the registry, and every other armed timer is as it was.  Hence, over
    any sequence of sweeps of a registry with distinct ids, an armed one-shot
    timer fires exactly once if one of the sweeps reaches its due date (and
    its id is then gone from the registry), and not at all otherwise (and the
    timer is then still registered, unchanged). *)
Theorem run_services_sweep now w :
  esp_bus_run_services now w =
    set_services (omap (after_sweep now) (g_services w))
      (set_trace (bus_trace w ++ map svc_call (List.filter (due now) (g_services w))) w) /\
  (forall s, In s (g_services w) -> due now s = true -> svc_repeat s = true ->
     In (set_next_run (rearm_time now s) s) (g_services (esp_bus_run_services now w)) /\
     (0 <= now < 2 ^ 62 -> 0 <= interval_ms s < 2 ^ 32 ->
      rearm_time now s = now + interval_ms s * 1000)) /\
  (forall s, In s (g_services w) -> due now s = true -> svc_repeat s = false ->
     ~ In s (g_services (esp_bus_run_services now w)) /\
     (List.NoDup (map svc_id (g_services w)) ->
      ~ In (svc_id s) (map svc_id (g_services (esp_bus_run_services now w))))) /\
  (forall s, In s (g_services w) -> armed s -> due now s = false ->
     In s (g_services (esp_bus_run_services now w))) /\
  (forall nows s,
     List.NoDup (map svc_id (g_services w)) -> In s (g_services w) ->
     svc_repeat s = false -> armed s ->
     fired (svc_id s) (bus_trace (run_sweeps nows w)) =
       (fired (svc_id s) (bus_trace w) + if existsb (due_at s) nows then 1 else 0)%nat /\
     (existsb (due_at s) nows = true ->
        ~ In (svc_id s) (map svc_id (g_services (run_sweeps nows w)))) /\
     (existsb (due_at s) nows = false -> In s (g_services (run_sweeps nows w)))).
Proof.
  split; [apply run_services_eq|]. rewrite run_services_eq. cbn [g_services set_services].
  split; [|split; [|split]].
  - intros s Hin Hdue Hrep. split; [|apply rearm_time_exact].
    induction (g_services w) as [|x ss IH]; [destruct Hin|]. cbn [omap list_omap].
    destruct Hin as [->|Hin].
    + unfold after_sweep at 1. rewrite Hdue, Hrep. left. reflexivity.
    + destruct (after_sweep now x); [right|]; apply IH, Hin.
  - intros s Hin Hdue Hone.
    assert (Hnone : after_sweep now s = None) by (unfold after_sweep; rewrite Hdue, Hone; reflexivity).
    split; [|intros Hnd; apply sweep_drops; assumption].
    clear Hin. induction (g_services w) as [|x ss IH]; [intros []|]. cbn [omap list_omap].
    destruct (after_sweep now x) as [x'|] eqn:Ex; [|exact IH].
    intros [->|H]; [|exact (IH H)].
    revert Ex. unfold after_sweep. destruct (due now x) eqn:Edx.
    + destruct (svc_repeat x) eqn:Erx; [|discriminate]. intros [= E].
      rewrite <- E in Hone. cbn in Hone. congruence.
    + destruct (retired x); [discriminate|]. intros [= ->]. congruence.
  - intros s Hin Harmed Hdue. apply sweep_keeps; [exact Hin|].
    unfold after_sweep. rewrite Hdue.
    assert (Er : retired s = false).
    { unfold retired, armed in *.
      assert (En : (next_run_us s =? 0) = false) by (apply Z.eqb_neq; lia).
      rewrite En. apply andb_false_r. }
    rewrite Er. reflexivity.
  - intros nows s. apply one_shot_once.
Qed.

Lemma with_timers_ids : List.NoDup (map svc_id (g_services with_timers)).
Proof.
  rewrite with_timers_services. cbn.
  apply List.NoDup_cons; [intros [H|[]]; discriminate H|].
  apply List.NoDup_cons; [intros []|]. apply List.NoDup_nil.
Qed.

(** The one-shot timer of [with_timers], due at 1.005 s, over three sweeps. *)
Lemma run_services_sweep_witness :
  fired 0 (bus_trace (run_sweeps [1000000; 1006000; 1050000] with_timers)) = 1%nat /\
  ~ In 0 (map svc_id (g_services (run_sweeps [1000000; 1006000; 1050000] with_timers))).
Proof.
  destruct (proj2 (proj2 (proj2 (proj2 (run_services_sweep 0 with_timers))))
              [1000000; 1006000; 1050000]
              {| svc_id := 0; svc_fn := 11%nat; svc_ctx := 0; interval_ms := 5;
                 next_run_us := 1005000; svc_repeat := false |}
              with_timers_ids (or_intror (or_introl eq_refl)) eq_refl eq_refl) as (Hf & Hgone & _).
  split; [exact Hf | exact (Hgone eq_refl)].
Defined.

(** The trace of those sweeps: nothing at 1.000 s, the one-shot timer at
    1.006 s, the repeating timer at 1.050 s, rearmed to 1.090 s. *)
Example run_sweeps_example :
  bus_trace (run_sweeps [1000000; 1006000; 1050000] with_timers) =
    [CallSvc 0 11%nat 0; CallSvc 1 12%nat 0] /\
  map (fun s => (svc_id s, next_run_us s))
      (g_services (run_sweeps [1000000; 1006000; 1050000] with_timers)) = [(1, 1090000)].
Proof. split; reflexivity. Qed.

(** A one-shot timer registered at clock zero with no delay carries the due
    date zero, the mark of a retired timer: the next sweep reclaims it
    without having fired it.  Such a timer is not [armed]. *)
Example one_shot_at_clock_zero :
  let w := snd (esp_bus_after true true 0 (Some 11%nat) 0 0 ready) in
  map next_run_us (g_services w) = [0] /\
  bus_trace (esp_bus_run_services 10 w) = [] /\
  g_services (esp_bus_run_services 10 w) = [].
Proof. repeat split. Qed.

End Scheduler.

Section FurtherProperties.

Lemma process_request_result_frame pattern req len res w w' :
  g_modules w' = g_modules w -> g_strict w' = g_strict w ->
  fst (esp_bus_process_request pattern req len res w') =
  fst (esp_bus_process_request pattern req len res w).
Proof.
  intros Hm Hs. unfold esp_bus_process_request, esp_bus_find_module. rewrite Hm, Hs.
  destruct (esp_bus_parse_pattern pattern) as [[[m a] sep]|]; [|reflexivity].
  destruct (negb (Ascii.eqb sep ".")); [reflexivity|].
  destruct (find_module_in (g_modules w) m) as [node|].
  - destruct (mod_on_req node); reflexivity.
  - destruct (g_strict w); reflexivity.
Qed.

(** X1.  A blocking request that the worker reaches in time, on a bus with
    nothing else queued: the caller gets what the resolution of the stored
    pattern returns for the copied payload and the caller's response
    arguments -- by C2 the handler's own result and response.  With the
    sample echo handler the bytes sent come back. *)
Theorem req_answered env caller pattern req len res timeout_ms w :
  g_initialized w = true -> on_worker caller w = false -> bus_queue w = [] ->
  (0 < timeout_ms)%Z ->
  payload_alloc_ok env = true -> sem_alloc_ok env = true ->
  send_ok env = true -> worker_ran env = true ->
  fst (esp_bus_req env caller (Some pattern) req len res timeout_ms w) =
  fst (esp_bus_process_request (strncpy pattern (ESP_BUS_PATTERN_MAX - 1))
         (copied_bytes req len) (copied_len req len) res w).
Proof.
  intros Hinit Hw Hq Ht Hpa Hsa Hso Hwr. unfold esp_bus_req.
  rewrite Hinit, Hw, Hpa, Hsa, Hso, Hwr. cbn [negb].
  apply Z.ltb_lt in Ht. rewrite Ht.
  unfold copy_payload, copied_bytes, copied_len, malloc, memcpy, xSemaphoreCreateBinary,
    xQueueSend, worker_drain.
  destruct req as [bs|]; [destruct (0 <? len)%nat eqn:El|];
    cbn [fst snd bus_queue set_queue set_sems set_heap bus_heap bus_sems];
    rewrite Hq; cbn [app worker_run]; unfold process_message; cbn [msg_type msg_pattern msg_data msg_len msg_res msg_result msg_done load];
    match goal with
    | |- context [esp_bus_process_request ?p ?r ?l ?s ?w0] =>
        pose proof (process_request_result_frame p r l s w w0 eq_refl eq_refl) as Hf;
        destruct (esp_bus_process_request p r l s w0) as [[err out] w1]
    end; cbn [fst snd default] in *.
  - cbn [bus_heap set_queue set_sems set_heap] in Hf. rewrite lookup_insert_eq in Hf.
    exact Hf.
  - apply Nat.ltb_ge in El. assert (len = 0%nat) as -> by lia. exact Hf.
  - exact Hf.
Qed.

(** X2.  A full queue: the event is refused with a timeout and the bus is as
    before, the payload copy released. *)
Theorem emit_queue_full src evt data len w :
  g_initialized w = true ->
  esp_bus_emit true false (Some src) (Some evt) data len w = (ESP_ERR_TIMEOUT, w).
Proof.
  intros Hinit. unfold esp_bus_emit. rewrite Hinit. cbn [negb].
  destruct (copy_payload_succeeds data len w) as (p & dlen & w1 & Hc). rewrite Hc.
  cbn [xQueueSend]. rewrite (free_copied _ _ _ _ _ _ _ Hc). reflexivity.
Qed.

Lemma fold_dispatch_sub evt full data len subs : forall w,
  fold_left (dispatch_sub evt full data len) subs w =
  set_trace (bus_trace w ++
             map (sub_call evt data len)
               (List.filter (fun sub => esp_bus_match_pattern (sub_pattern sub) full) subs)) w.
Proof.
  induction subs as [|sub subs IH]; intros w; cbn [fold_left List.filter map].
  - rewrite app_nil_r. destruct w; reflexivity.
  - rewrite IH. unfold dispatch_sub.
    destruct (esp_bus_match_pattern (sub_pattern sub) full); [|reflexivity].
    unfold invoke. cbn [bus_trace set_trace map]. rewrite <- app_assoc. reflexivity.
Qed.

Lemma dispatch_route_skip evt full data len w r :
  esp_bus_match_pattern (evt_pattern r) full = false ->
  dispatch_route evt full data len w r = w.
Proof. intros H. unfold dispatch_route. rewrite H. reflexivity. Qed.

Lemma fold_dispatch_route_none evt full data len rs : forall w,
  (forall r, In r rs -> esp_bus_match_pattern (evt_pattern r) full = false) ->
  fold_left (dispatch_route evt full data len) rs w = w.
Proof.
  induction rs as [|r rs IH]; intros w H; [reflexivity|]. cbn [fold_left].
  rewrite dispatch_route_skip by (apply H; left; reflexivity).
  apply IH. intros r' Hr'. apply H. right. exact Hr'.
Qed.

Lemma req_answered_witness :
  fst (esp_bus_req {| payload_alloc_ok := true; sem_alloc_ok := true; send_ok := true;
                      worker_ran := true |} 2 (Some (cs "echo.say"))
         (Some [Byte.x01; Byte.x02]) 2 {| res_buf := true; res_size := 8; res_len := true |}
         100 with_echo) =
  (ESP_OK, {| res_written := Some [Byte.x01; Byte.x02]; res_len_written := Some 2%nat |}).
Proof.
  apply (req_answered {| payload_alloc_ok := true; sem_alloc_ok := true; send_ok := true;
                         worker_ran := true |} 2 (cs "echo.say") (Some [Byte.x01; Byte.x02]) 2
           {| res_buf := true; res_size := 8; res_len := true |} 100 with_echo);
    reflexivity.
Defined.

Lemma emit_queue_full_witness :
  esp_bus_emit true false (Some (cs "a")) (Some (cs "e")) (Some [Byte.x01]) 1 ready =
  (ESP_ERR_TIMEOUT, ready).
Proof. exact (emit_queue_full (cs "a") (cs "e") (Some [Byte.x01]) 1 ready eq_refl). Defined.

(** The subscription test of the specification: a subscriber to [x*:evt]
    sees the events of sources [x1] and [x2], not that of [y1] nor another
    event; and a route from [a:e] to [echo.say] makes the event invoke the
    handler within the dispatch, until the route is removed. *)
Example dispatch_examples :
  let w := snd (esp_bus_sub true (Some (cs "x*:evt")) (Some 9%nat) 0%Z ready) in
  let seen src evt := length (bus_trace (esp_bus_dispatch_event (cs src) (cs evt) None 0 w)) in
  seen "x1"%string "evt"%string = 1%nat /\ seen "x2"%string "evt"%string = 1%nat /\
  seen "y1"%string "evt"%string = 0%nat /\ seen "x1"%string "other"%string = 0%nat /\
  let routed := snd (esp_bus_on true true (Some (cs "a:e")) (Some (cs "echo.say")) None 0
                       with_echo) in
  bus_trace (esp_bus_dispatch_event (cs "a") (cs "e") None 0 routed) =
    [CallReq (cs "echo") (cs "say") None 0 no_res 7%Z] /\
  bus_trace (esp_bus_dispatch_event (cs "a") (cs "e") None 0
               (snd (esp_bus_off (Some (cs "a:e")) (Some (cs "echo.say")) routed))) = [].
Proof. repeat split; vm_compute; reflexivity. Qed.

End FurtherProperties.

Section ModuleRegistry.

Lemma find_remove_other nm nm' mods :
  nm' <> nm -> find_module_in (remove_module nm mods) nm' = find_module_in mods nm'.
Proof.
  intros Hne. induction mods as [|node rest IH]; [reflexivity|].
  cbn [remove_module find_module_in].
  destruct (streq (mod_name node) nm) eqn:E.
  - apply streq_true in E.
    destruct (streq (mod_name node) nm') eqn:E'; [|reflexivity].
    apply streq_true in E'. congruence.
  - cbn [find_module_in]. rewrite IH. reflexivity.
Qed.

Lemma remove_module_first nm pre node post :
  (forall n, In n pre -> mod_name n <> nm) -> mod_name node = nm ->
  remove_module nm (pre ++ node :: post) = pre ++ post.
Proof.
  intros Hpre Hnode. induction pre as [|n pre IH]; cbn [remove_module app].
  - rewrite Hnode, streq_refl. reflexivity.
  - assert (E : streq (mod_name n) nm = false) by (apply streq_false, Hpre; left; reflexivity).
    rewrite E, IH; [reflexivity|]. intros n' Hn'. apply Hpre. right. exact Hn'.
Qed.

(** X5.  Registration undone: when [esp_bus_reg] succeeds for a name that
    fits the name buffer, the module exists under that name, and
    [esp_bus_unreg] with the same name succeeds and gives back the bus as it
    was before the registration, where the name did not exist. *)
Theorem reg_unreg_round_trip m nm w :
  name m = Some nm -> (length nm < ESP_BUS_NAME_MAX)%nat ->
  fst (esp_bus_reg true (Some m) w) = ESP_OK ->
  esp_bus_exists (Some nm) (snd (esp_bus_reg true (Some m) w)) = true /\
  esp_bus_unreg (Some nm) (snd (esp_bus_reg true (Some m) w)) = (ESP_OK, w) /\
  esp_bus_exists (Some nm) w = false.
Proof.
  intros Hname Hlen Hok.
  assert (Hinit : g_initialized w = true).
  { revert Hok. unfold esp_bus_reg. rewrite Hname.
    destruct (g_initialized w); [reflexivity | discriminate]. }
  assert (Hfind : esp_bus_find_module nm w = None).
  { revert Hok. unfold esp_bus_reg. rewrite Hname, Hinit. cbn [negb].
    destruct (esp_bus_find_module nm w); [discriminate | reflexivity]. }
  assert (Htake : strncpy nm (ESP_BUS_NAME_MAX - 1) = nm).
  { unfold strncpy. apply take_ge. unfold ESP_BUS_NAME_MAX in *. lia. }
  assert (Hreg : snd (esp_bus_reg true (Some m) w) =
                 set_modules ({| mod_name := nm; mod_on_req := on_req m; mod_on_evt := on_evt m;
                                 mod_ctx := ctx m; mod_actions := actions m;
                                 mod_events := events m |} :: g_modules w) w).
  { unfold esp_bus_reg. rewrite Hname, Hinit, Hfind, Htake. reflexivity. }
  rewrite Hreg. unfold esp_bus_exists, esp_bus_unreg, esp_bus_find_module in *.
  cbn [g_initialized set_modules g_modules find_module_in mod_name remove_module].
  rewrite Hinit, Hfind, streq_refl. cbn [negb]. repeat split.
  f_equal. destruct w; reflexivity.
Qed.

(** X6.  On an initialised bus [esp_bus_unreg] fails with
    [ESP_ERR_NOT_FOUND] and changes nothing when no module carries the name;
    otherwise it unlinks the first node of that name, the one
    [esp_bus_find_module] returns, and nothing else.  Either way the lookup
    of every other name is as before. *)
Theorem unreg_removes_first nm w :
  g_initialized w = true ->
  match esp_bus_find_module nm w with
  | None => esp_bus_unreg (Some nm) w = (ESP_ERR_NOT_FOUND, w)
  | Some node =>
      exists pre post,
        g_modules w = pre ++ node :: post /\
        (forall n, In n pre -> mod_name n <> nm) /\
        mod_name node = nm /\
        esp_bus_unreg (Some nm) w = (ESP_OK, set_modules (pre ++ post) w)
  end /\
  forall nm', nm' <> nm ->
    esp_bus_find_module nm' (snd (esp_bus_unreg (Some nm) w)) = esp_bus_find_module nm' w.
Proof.
  intros Hinit. unfold esp_bus_unreg. rewrite Hinit. cbn [negb]. split.
  - destruct (esp_bus_find_module nm w) as [node|] eqn:Hfind; [|reflexivity].
    apply find_module_found in Hfind. destruct Hfind as (pre & post & Hmods & Hnode & Hpre).
    exists pre, post. repeat split; try assumption.
    rewrite Hmods, (remove_module_first nm pre node post Hpre Hnode). reflexivity.
  - intros nm' Hne. destruct (esp_bus_find_module nm w); [|reflexivity].
    cbn [snd]. unfold esp_bus_find_module. cbn [set_modules g_modules].
    apply find_remove_other. exact Hne.
Qed.

Lemma existsb_streq l a : existsb (fun n => streq n a) l = true <-> In a l.
Proof.
  rewrite existsb_exists. split.
  - intros (x & Hx & E). apply streq_true in E. subst. exact Hx.
  - intros H. exists a. split; [exact H | apply streq_refl].
Qed.

(** X8.  The queries after a registration: for a module registered under a
    name that fits, [esp_bus_has_action] and [esp_bus_has_event] are true
    for exactly the names of its two schema tables, and the answers of the
    three queries for any other module name are as before. *)
Theorem reg_then_query m nm w :
  name m = Some nm -> (length nm < ESP_BUS_NAME_MAX)%nat ->
  fst (esp_bus_reg true (Some m) w) = ESP_OK ->
  (forall a, esp_bus_has_action (Some nm) (Some a) (snd (esp_bus_reg true (Some m) w)) = true
             <-> In a (actions m)) /\
  (forall e, esp_bus_has_event (Some nm) (Some e) (snd (esp_bus_reg true (Some m) w)) = true
             <-> In e (events m)) /\
  (forall nm' x, nm' <> nm ->
     esp_bus_exists (Some nm') (snd (esp_bus_reg true (Some m) w)) = esp_bus_exists (Some nm') w /\
     esp_bus_has_action (Some nm') x (snd (esp_bus_reg true (Some m) w))
       = esp_bus_has_action (Some nm') x w /\
     esp_bus_has_event (Some nm') x (snd (esp_bus_reg true (Some m) w))
       = esp_bus_has_event (Some nm') x w).
Proof.
  intros Hname Hlen Hok.
  assert (Hinit : g_initialized w = true).
  { revert Hok. unfold esp_bus_reg. rewrite Hname.
    destruct (g_initialized w); [reflexivity | discriminate]. }
  assert (Hfind : esp_bus_find_module nm w = None).
  { revert Hok. unfold esp_bus_reg. rewrite Hname, Hinit. cbn [negb].
    destruct (esp_bus_find_module nm w); [discriminate | reflexivity]. }
  assert (Htake : strncpy nm (ESP_BUS_NAME_MAX - 1) = nm).
  { unfold strncpy. apply take_ge. unfold ESP_BUS_NAME_MAX in *. lia. }
  assert (Hreg : snd (esp_bus_reg true (Some m) w) =
                 set_modules ({| mod_name := nm; mod_on_req := on_req m; mod_on_evt := on_evt m;
                                 mod_ctx := ctx m; mod_actions := actions m;
                                 mod_events := events m |} :: g_modules w) w).
  { unfold esp_bus_reg. rewrite Hname, Hinit, Hfind, Htake. reflexivity. }
  rewrite Hreg. unfold esp_bus_has_action, esp_bus_has_event, esp_bus_exists, esp_bus_find_module.
  cbn [g_initialized set_modules g_modules find_module_in mod_name].
  rewrite Hinit, streq_refl. cbn [negb mod_actions mod_events].
  split; [|split].
  - intros a. apply existsb_streq.
  - intros e. apply existsb_streq.
  - intros nm' x Hne.
    assert (E : streq nm nm' = false) by (apply streq_false; congruence).
    rewrite E. destruct x; repeat split; reflexivity.
Qed.

Lemma reg_names_fit ok m w : names_fit w -> names_fit (snd (esp_bus_reg ok m w)).
Proof.
  intros Hfit. unfold esp_bus_reg.
  destruct m as [m|]; [|exact Hfit].
  destruct (name m) as [nm|]; [|exact Hfit].
  destruct (g_initialized w); cbn [negb]; [|exact Hfit].
  destruct (esp_bus_find_module nm w); [exact Hfit|].
  destruct ok; cbn [negb]; [|exact Hfit].
  intros node [<-|Hin]; [|apply Hfit, Hin].
  cbn [mod_name]. unfold strncpy, ESP_BUS_NAME_MAX.
  rewrite length_take. lia.
Qed.

Lemma remove_module_incl nm mods n : In n (remove_module nm mods) -> In n mods.
Proof.
  induction mods as [|x rest IH]; cbn [remove_module]; [tauto|].
  destruct (streq (mod_name x) nm).
  - intros H. right. exact H.
  - intros [<-|H]; [left; reflexivity | right; apply IH, H].
Qed.

Lemma unreg_names_fit nm w : names_fit w -> names_fit (snd (esp_bus_unreg nm w)).
Proof.
  intros Hfit. unfold esp_bus_unreg.
  destruct nm as [nm|]; [|exact Hfit].
  destruct (g_initialized w); cbn [negb]; [|exact Hfit].
  destruct (esp_bus_find_module nm w); [|exact Hfit].
  intros node Hin. apply Hfit. exact (remove_module_incl nm _ node Hin).
Qed.

Lemma long_name_absent nm w :
  names_fit w -> (ESP_BUS_NAME_MAX <= length nm)%nat -> esp_bus_find_module nm w = None.
Proof.
  intros Hfit Hlen. apply find_module_absent. intros n Hin E.
  specialize (Hfit n Hin). rewrite E in Hfit. lia.
Qed.

(** X7.  Names that do not fit.  [esp_bus_reg] stores the first
    [ESP_BUS_NAME_MAX - 1] characters of the name, while [esp_bus_exists],
    [esp_bus_has_action] and [esp_bus_unreg] compare the stored name with
    their whole argument.  So on a bus whose stored names fit the buffer -- an
    invariant of registration -- a module registered under a longer name is
    accepted, but it is not found, has no action and cannot be unregistered
    under the name it was registered with: it answers to the truncated name
    only. *)
Theorem long_name_unreachable m nm w :
  g_initialized w = true -> names_fit w ->
  name m = Some nm -> (ESP_BUS_NAME_MAX <= length nm)%nat ->
  fst (esp_bus_reg true (Some m) w) = ESP_OK /\
  names_fit (snd (esp_bus_reg true (Some m) w)) /\
  esp_bus_exists (Some nm) (snd (esp_bus_reg true (Some m) w)) = false /\
  (forall x, esp_bus_has_action (Some nm) x (snd (esp_bus_reg true (Some m) w)) = false) /\
  esp_bus_unreg (Some nm) (snd (esp_bus_reg true (Some m) w))
    = (ESP_ERR_NOT_FOUND, snd (esp_bus_reg true (Some m) w)) /\
  esp_bus_exists (Some (take (ESP_BUS_NAME_MAX - 1) nm)) (snd (esp_bus_reg true (Some m) w)) = true.
Proof.
  intros Hinit Hfit Hname Hlen.
  pose proof (reg_names_fit true (Some m) w Hfit) as Hfit'.
  pose proof (long_name_absent nm _ Hfit' Hlen) as Habs.
  assert (Hinit' : g_initialized (snd (esp_bus_reg true (Some m) w)) = true).
  { unfold esp_bus_reg. rewrite Hname, Hinit. cbn [negb].
    destruct (esp_bus_find_module nm w); exact Hinit. }
  split; [|split; [exact Hfit'|split; [|split; [|split]]]].
  - unfold esp_bus_reg. rewrite Hname, Hinit, (long_name_absent nm w Hfit Hlen). reflexivity.
  - unfold esp_bus_exists. rewrite Hinit', Habs. reflexivity.
  - intros x. unfold esp_bus_has_action. rewrite Hinit', Habs. destruct x; reflexivity.
  - unfold esp_bus_unreg. rewrite Hinit', Habs. reflexivity.
  - unfold esp_bus_exists. rewrite Hinit'. cbn [negb].
    unfold esp_bus_reg. rewrite Hname, Hinit, (long_name_absent nm w Hfit Hlen).
    cbn [negb snd]. unfold esp_bus_find_module. cbn [set_modules g_modules find_module_in mod_name].
    unfold strncpy. rewrite streq_refl. reflexivity.
Qed.

Lemma ready_names_fit : names_fit ready.
Proof. intros node []. Qed.

Lemma reg_unreg_round_trip_witness :
  esp_bus_exists (Some (cs "echo")) with_echo = true /\
  esp_bus_unreg (Some (cs "echo")) with_echo = (ESP_OK, ready) /\
  esp_bus_exists (Some (cs "echo")) ready = false.
Proof.
  apply (reg_unreg_round_trip echo_module (cs "echo") ready);
    [reflexivity | unfold ESP_BUS_NAME_MAX; cbn; lia | reflexivity].
Defined.

Lemma unreg_removes_first_witness :
  esp_bus_unreg (Some (cs "nobody")) with_echo = (ESP_ERR_NOT_FOUND, with_echo) /\
  forall nm', nm' <> cs "nobody" ->
    esp_bus_find_module nm' (snd (esp_bus_unreg (Some (cs "nobody")) with_echo))
    = esp_bus_find_module nm' with_echo.
Proof. exact (unreg_removes_first (cs "nobody") with_echo eq_refl). Defined.

Lemma reg_then_query_witness :
  esp_bus_has_action (Some (cs "led1")) (Some (cs "on"))
    (snd (esp_bus_reg true
            (Some {| name := Some (cs "led1"); on_req := None; on_evt := None; ctx := 0%Z;
                     actions := [cs "on"; cs "off"]; events := [] |}) ready)) = true.
Proof.
  apply (proj1 (reg_then_query
                  {| name := Some (cs "led1"); on_req := None; on_evt := None; ctx := 0%Z;
                     actions := [cs "on"; cs "off"]; events := [] |} (cs "led1") ready
                  eq_refl ltac:(unfold ESP_BUS_NAME_MAX; cbn; lia) eq_refl)).
  left. reflexivity.
Defined.

Lemma long_name_unreachable_witness :
  esp_bus_exists (Some (cs "front_door_button"))
    (snd (esp_bus_reg true
            (Some {| name := Some (cs "front_door_button"); on_req := None; on_evt := None;
                     ctx := 0%Z; actions := []; events := [] |}) ready)) = false.
Proof.
  apply (long_name_unreachable
           {| name := Some (cs "front_door_button"); on_req := None; on_evt := None;
              ctx := 0%Z; actions := []; events := [] |} (cs "front_door_button") ready
           eq_refl ready_names_fit eq_refl).
  unfold ESP_BUS_NAME_MAX. cbn. lia.
Defined.

End ModuleRegistry.

Section Subscriptions.

Local Open Scope Z_scope.

Lemma wrap32_small z : - 2 ^ 31 <= z < 2 ^ 31 -> wrap32 z = z.
Proof. intros H. unfold wrap32. rewrite Z.mod_small; lia. Qed.

Lemma remove_sub_absent id subs : ~ In id (map sub_id subs) -> remove_sub id subs = subs.
Proof.
  induction subs as [|s subs IH]; [reflexivity|]. cbn [map remove_sub]. intros H.
  assert (E : (sub_id s =? id) = false) by (apply Z.eqb_neq; intros E; apply H; left; exact E).
  rewrite E, IH; [reflexivity|]. intros Hin. apply H. right. exact Hin.
Qed.

Lemma remove_sub_incl id subs s : In s (remove_sub id subs) -> In s subs.
Proof.
  induction subs as [|x subs IH]; cbn [remove_sub]; [tauto|].
  destruct (sub_id x =? id).
  - intros H. right. exact H.
  - intros [<-|H]; [left; reflexivity | right; apply IH, H].
Qed.

Lemma remove_sub_ids id subs i : In i (map sub_id (remove_sub id subs)) -> In i (map sub_id subs).
Proof.
  rewrite !in_map_iff. intros (s & E & H). exists s. split; [exact E | eapply remove_sub_incl, H].
Qed.

Lemma remove_sub_nodup id subs :
  List.NoDup (map sub_id subs) -> List.NoDup (map sub_id (remove_sub id subs)).
Proof.
  induction subs as [|s subs IH]; [intros _; constructor|]. cbn [map remove_sub].
  intros H. apply List.NoDup_cons_iff in H as [Hs Hss].
  destruct (sub_id s =? id); [exact Hss|]. cbn [map].
  apply List.NoDup_cons_iff. split; [|apply IH, Hss].
  intros Hin. apply Hs. eapply remove_sub_ids, Hin.
Qed.

Lemma remove_sub_gone id subs :
  List.NoDup (map sub_id subs) -> ~ In id (map sub_id (remove_sub id subs)).
Proof.
  induction subs as [|s subs IH]; [intros _ []|]. cbn [map remove_sub].
  intros H. apply List.NoDup_cons_iff in H as [Hs Hss].
  destruct (sub_id s =? id) eqn:E.
  - apply Z.eqb_eq in E. rewrite <- E. exact Hs.
  - cbn [map]. apply Z.eqb_neq in E. intros [H|H]; [exact (E H) | exact (IH Hss H)].
Qed.

Lemma remove_sub_others id i (P : sub_node_t -> bool) subs :
  i <> id ->
  List.filter (fun s => (sub_id s =? i) && P s) (remove_sub id subs) =
  List.filter (fun s => (sub_id s =? i) && P s) subs.
Proof.
  intros Hne. induction subs as [|s subs IH]; [reflexivity|]. cbn [remove_sub List.filter].
  destruct (sub_id s =? id) eqn:E.
  - apply Z.eqb_eq in E.
    assert (E' : (sub_id s =? i) = false) by (apply Z.eqb_neq; congruence).
    rewrite E'. reflexivity.
  - cbn [List.filter]. rewrite IH. reflexivity.
Qed.

Lemma sub_calls_app id t1 t2 : sub_calls id (t1 ++ t2) = (sub_calls id t1 + sub_calls id t2)%nat.
Proof. unfold sub_calls. rewrite List.filter_app, length_app. reflexivity. Qed.

Lemma sub_calls_subs id evt data len subs :
  sub_calls id (map (sub_call evt data len) subs) =
  length (List.filter (fun s => sub_id s =? id) subs).
Proof.
  unfold sub_calls. induction subs as [|s subs IH]; [reflexivity|].
  cbn [map List.filter sub_call]. destruct (sub_id s =? id); cbn [length]; rewrite IH; reflexivity.
Qed.

Lemma report_error_sub_calls id pattern err msg w :
  sub_calls id (bus_trace (esp_bus_report_error pattern err msg w)) = sub_calls id (bus_trace w).
Proof.
  unfold esp_bus_report_error, invoke. destruct (g_on_err w); [|reflexivity].
  cbn [bus_trace set_trace]. rewrite sub_calls_app. cbn. lia.
Qed.

Lemma process_request_sub_calls id pattern req len res w :
  sub_calls id (bus_trace (snd (esp_bus_process_request pattern req len res w))) =
  sub_calls id (bus_trace w).
Proof.
  unfold esp_bus_process_request.
  destruct (esp_bus_parse_pattern pattern) as [[[m a] sep]|];
    [|apply report_error_sub_calls].
  destruct (negb (Ascii.eqb sep ".")); [apply report_error_sub_calls|].
  destruct (esp_bus_find_module m w) as [node|].
  - destruct (mod_on_req node); [|apply report_error_sub_calls].
    cbn [snd]. unfold invoke. cbn [bus_trace set_trace]. rewrite sub_calls_app. cbn. lia.
  - destruct (g_strict w); [apply report_error_sub_calls | reflexivity].
Qed.

Lemma dispatch_route_sub_calls id evt full data len w r :
  sub_calls id (bus_trace (dispatch_route evt full data len w r)) = sub_calls id (bus_trace w).
Proof.
  unfold dispatch_route. destruct (negb _); [reflexivity|].
  destruct (transform r) as [fn|]; [|apply process_request_sub_calls].
  destruct (fn evt data len (route_ctx r)) as [[out_req out_data] out_len].
  assert (H : sub_calls id (bus_trace (invoke (CallTransform (evt_pattern r) evt data len
                                                 (route_ctx r)) w)) = sub_calls id (bus_trace w)).
  { unfold invoke. cbn [bus_trace set_trace]. rewrite sub_calls_app. cbn. lia. }
  destruct out_req; [|exact H]. rewrite process_request_sub_calls. exact H.
Qed.

Lemma fold_route_sub_calls id evt full data len rs : forall w,
  sub_calls id (bus_trace (fold_left (dispatch_route evt full data len) rs w)) =
  sub_calls id (bus_trace w).
Proof.
  induction rs as [|r rs IH]; intros w; [reflexivity|]. cbn [fold_left].
  rewrite IH. apply dispatch_route_sub_calls.
Qed.

Lemma filter_filter_and {A} (P Q : A -> bool) l :
  List.filter P (List.filter Q l) = List.filter (fun x => P x && Q x) l.
Proof.
  induction l as [|x l IH]; [reflexivity|]. cbn [List.filter].
  destruct (Q x); cbn [List.filter]; rewrite ?andb_true_r, ?andb_false_r;
    [destruct (P x)|]; rewrite IH; reflexivity.
Qed.

Lemma dispatch_sub_calls id src evt data len w :
  sub_calls id (bus_trace (esp_bus_dispatch_event src evt data len w)) =
  (sub_calls id (bus_trace w) +
   length (List.filter
             (fun s => (sub_id s =? id)%Z &&
                       esp_bus_match_pattern (sub_pattern s)
                         (snprintf_colon ESP_BUS_PATTERN_MAX src evt)) (g_subs w)))%nat.
Proof.
  unfold esp_bus_dispatch_event. rewrite fold_route_sub_calls, fold_dispatch_sub.
  cbn [bus_trace set_trace]. rewrite sub_calls_app, sub_calls_subs, filter_filter_and.
  reflexivity.
Qed.

Lemma filter_none {A} (P : A -> bool) l : (forall x, In x l -> P x = false) -> List.filter P l = [].
Proof.
  induction l as [|x l IH]; [reflexivity|]. intros H. cbn [List.filter].
  rewrite (H x) by (left; reflexivity). apply IH. intros y Hy. apply H. right. exact Hy.
Qed.

(** X9.  Subscription ids.  On an initialised bus whose subscription ids
    are distinct and below the counter, [esp_bus_sub] returns the counter's
    value, an id no subscription carries, and keeps that invariant (as long
    as the counter stays below [INT32_MAX]); [esp_bus_unsub] with that id
    gives back the subscription list as it was. *)
Theorem sub_unsub_round_trip pattern handler c w :
  g_initialized w = true -> subs_wf w -> g_next_sub_id w < 2 ^ 31 - 1 ->
  fst (esp_bus_sub true (Some pattern) (Some handler) c w) = g_next_sub_id w /\
  ~ In (g_next_sub_id w) (map sub_id (g_subs w)) /\
  subs_wf (snd (esp_bus_sub true (Some pattern) (Some handler) c w)) /\
  g_subs (esp_bus_unsub (g_next_sub_id w)
            (snd (esp_bus_sub true (Some pattern) (Some handler) c w))) = g_subs w.
Proof.
  intros Hinit (Hnd & H0 & Hids) Hmax.
  assert (Hfresh : ~ In (g_next_sub_id w) (map sub_id (g_subs w))).
  { rewrite in_map_iff. intros (s & E & Hs). specialize (Hids s Hs). lia. }
  unfold esp_bus_sub. rewrite Hinit. cbn [negb fst snd sub_id].
  rewrite wrap32_small by lia.
  split; [reflexivity|]. split; [exact Hfresh|]. split.
  - unfold subs_wf. cbn [g_subs set_subs g_next_sub_id map sub_id].
    split; [apply List.NoDup_cons; assumption|]. split; [lia|].
    intros s [<-|Hs]; [cbn [sub_id]; lia|]. specialize (Hids s Hs). lia.
  - unfold esp_bus_unsub. cbn [g_initialized set_subs negb orb].
    assert (E : (g_next_sub_id w <? 0) = false) by (apply Z.ltb_ge; lia).
    rewrite E, Hinit. cbn [negb orb g_subs set_subs remove_sub sub_id].
    rewrite Z.eqb_refl. reflexivity.
Qed.

(** X10.  After [esp_bus_unsub id] the dispatch of an event never invokes
    subscription [id], and invokes every other subscription exactly as often
    as it would have without the call; the ids stay distinct, and an id that
    is not registered leaves the bus unchanged. *)
Theorem unsubscribed_not_called id src evt data len w :
  g_initialized w = true -> subs_wf w ->
  subs_wf (esp_bus_unsub id w) /\
  sub_calls id (bus_trace (esp_bus_dispatch_event src evt data len (esp_bus_unsub id w)))
    = sub_calls id (bus_trace w) /\
  (forall id', id' <> id ->
     sub_calls id' (bus_trace (esp_bus_dispatch_event src evt data len (esp_bus_unsub id w)))
     = sub_calls id' (bus_trace (esp_bus_dispatch_event src evt data len w))) /\
  (~ In id (map sub_id (g_subs w)) -> esp_bus_unsub id w = w).
Proof.
  intros Hinit (Hnd & H0 & Hids). unfold esp_bus_unsub. rewrite Hinit. cbn [negb orb].
  destruct (id <? 0) eqn:Eneg.
  - apply Z.ltb_lt in Eneg. split; [exact (conj Hnd (conj H0 Hids))|]. split; [|split; reflexivity].
    rewrite dispatch_sub_calls, filter_none; [cbn; lia|].
    intros s Hs. specialize (Hids s Hs).
    assert (E : (sub_id s =? id) = false) by (apply Z.eqb_neq; lia). rewrite E. reflexivity.
  - split; [|split; [|split]].
    + unfold subs_wf. cbn [g_subs set_subs g_next_sub_id].
      split; [apply remove_sub_nodup, Hnd|]. split; [exact H0|].
      intros s Hs. apply Hids. eapply remove_sub_incl, Hs.
    + rewrite dispatch_sub_calls. cbn [bus_trace g_subs set_subs].
      rewrite filter_none; [cbn; lia|].
      intros s Hs.
      assert (E : (sub_id s =? id) = false).
      { apply Z.eqb_neq. intros E. apply (remove_sub_gone id (g_subs w) Hnd).
        apply in_map_iff. exists s. split; [exact E | exact Hs]. }
      rewrite E. reflexivity.
    + intros id' Hne. rewrite !dispatch_sub_calls. cbn [bus_trace g_subs set_subs].
      rewrite remove_sub_others by exact Hne. reflexivity.
    + intros Habs. rewrite remove_sub_absent by exact Habs. destruct w; reflexivity.
Qed.

Lemma with_sub_wf : subs_wf with_sub.
Proof.
  split; [|split].
  - change (List.NoDup [0]). apply List.NoDup_cons; [intros []|apply List.NoDup_nil].
  - change (0 <= 1). lia.
  - intros s [<-|[]]. change (0 <= 0 < 1). lia.
Qed.

Lemma sub_unsub_round_trip_witness :
  fst (esp_bus_sub true (Some (cs "btn1:*")) (Some 6%nat) 0 with_sub) = 1 /\
  g_subs (esp_bus_unsub 1 (snd (esp_bus_sub true (Some (cs "btn1:*")) (Some 6%nat) 0 with_sub)))
    = g_subs with_sub.
Proof.
  destruct (sub_unsub_round_trip (cs "btn1:*") 6%nat 0 with_sub eq_refl with_sub_wf
              ltac:(change (1 < 2 ^ 31 - 1); lia)) as (Hid & _ & _ & Hback).
  split; [exact Hid | exact Hback].
Defined.

Lemma unsubscribed_not_called_witness :
  sub_calls 0 (bus_trace (esp_bus_dispatch_event (cs "btn1") (cs "short_press") None 0
                            (esp_bus_unsub 0 with_sub))) = 0%nat.
Proof.
  exact (proj1 (proj2 (unsubscribed_not_called 0 (cs "btn1") (cs "short_press") None 0
                         with_sub eq_refl with_sub_wf))).
Defined.

End Subscriptions.

Section Timers.

Local Open Scope Z_scope.

Lemma remove_svc_absent id ss : ~ In id (map svc_id ss) -> remove_svc id ss = ss.
Proof.
  induction ss as [|s ss IH]; [reflexivity|]. cbn [map remove_svc]. intros H.
  assert (E : (svc_id s =? id) = false) by (apply Z.eqb_neq; intros E; apply H; left; exact E).
  rewrite E, IH; [reflexivity|]. intros Hin. apply H. right. exact Hin.
Qed.

Lemma remove_svc_incl id ss s : In s (remove_svc id ss) -> In s ss.
Proof.
  induction ss as [|x ss IH]; cbn [remove_svc]; [tauto|].
  destruct (svc_id x =? id).
  - intros H. right. exact H.
  - intros [<-|H]; [left; reflexivity | right; apply IH, H].
Qed.

Lemma remove_svc_ids id ss i : In i (map svc_id (remove_svc id ss)) -> In i (map svc_id ss).
Proof.
  rewrite !in_map_iff. intros (s & E & H). exists s. split; [exact E | eapply remove_svc_incl, H].
Qed.

Lemma remove_svc_nodup id ss :
  List.NoDup (map svc_id ss) -> List.NoDup (map svc_id (remove_svc id ss)).
Proof.
  induction ss as [|s ss IH]; [intros _; constructor|]. cbn [map remove_svc].
  intros H. apply List.NoDup_cons_iff in H as [Hs Hss].
  destruct (svc_id s =? id); [exact Hss|]. cbn [map].
  apply List.NoDup_cons_iff. split; [|apply IH, Hss].
  intros Hin. apply Hs. eapply remove_svc_ids, Hin.
Qed.

Lemma remove_svc_gone id ss :
  List.NoDup (map svc_id ss) -> ~ In id (map svc_id (remove_svc id ss)).
Proof.
  induction ss as [|s ss IH]; [intros _ []|]. cbn [map remove_svc].
  intros H. apply List.NoDup_cons_iff in H as [Hs Hss].
  destruct (svc_id s =? id) eqn:E.
  - apply Z.eqb_eq in E. rewrite <- E. exact Hs.
  - cbn [map]. apply Z.eqb_neq in E. intros [H|H]; [exact (E H) | exact (IH Hss H)].
Qed.

Lemma remove_svc_others id i (P : svc_node_t -> bool) ss :
  i <> id ->
  List.filter (fun s => svc_id s =? i) (List.filter P (remove_svc id ss)) =
  List.filter (fun s => svc_id s =? i) (List.filter P ss).
Proof.
  intros Hne. induction ss as [|s ss IH]; [reflexivity|]. cbn [remove_svc List.filter].
  destruct (svc_id s =? id) eqn:E.
  - apply Z.eqb_eq in E.
    assert (E' : (svc_id s =? i) = false) by (apply Z.eqb_neq; congruence).
    destruct (P s); [|reflexivity]. cbn [List.filter]. rewrite E'. reflexivity.
  - cbn [List.filter]. destruct (P s); [|exact IH]. cbn [List.filter]. rewrite IH. reflexivity.
Qed.

Lemma sweep_remove_commute id now ss :
  List.NoDup (map svc_id ss) ->
  omap (after_sweep now) (remove_svc id ss) = remove_svc id (omap (after_sweep now) ss).
Proof.
  induction ss as [|s ss IH]; [reflexivity|]. cbn [map remove_svc omap list_omap].
  intros H. apply List.NoDup_cons_iff in H as [Hs Hss].
  destruct (svc_id s =? id) eqn:E.
  - destruct (after_sweep now s) as [s'|] eqn:Es.
    + cbn [remove_svc]. rewrite (after_sweep_id _ _ _ Es), E. reflexivity.
    + symmetry. apply remove_svc_absent. apply Z.eqb_eq in E. rewrite <- E.
      intros Hin. apply Hs. eapply sweep_ids_in, Hin.
  - cbn [omap list_omap]. destruct (after_sweep now s) as [s'|] eqn:Es; [|apply IH, Hss].
    cbn [remove_svc]. rewrite (after_sweep_id _ _ _ Es), E, (IH Hss). reflexivity.
Qed.

Lemma trigger_services ok w :
  g_services (esp_bus_trigger ok w) = g_services w /\
  g_next_svc_id (esp_bus_trigger ok w) = g_next_svc_id w /\
  bus_trace (esp_bus_trigger ok w) = bus_trace w.
Proof.
  unfold esp_bus_trigger, xQueueSend. destruct (negb (g_initialized w)); [repeat split|].
  destruct ok; repeat split.
Qed.

Lemma only_trace_services w w' :
  only_trace w w' -> g_services w' = g_services w /\ g_next_svc_id w' = g_next_svc_id w.
Proof. intros [t ->]. split; reflexivity. Qed.

Lemma process_message_services msg w :
  g_services (snd (process_message msg w)) = g_services w /\
  g_next_svc_id (snd (process_message msg w)) = g_next_svc_id w.
Proof.
  destruct (only_trace_services _ _ (process_message_frame msg w)) as [-> ->].
  destruct (msg_type msg); try (split; reflexivity);
    destruct (msg_data msg); split; reflexivity.
Qed.

Lemma wf_fresh w : svcs_wf w -> ~ In (g_next_svc_id w) (map svc_id (g_services w)).
Proof.
  intros (_ & _ & Hids). rewrite in_map_iff. intros (s & E & Hs). specialize (Hids s Hs). lia.
Qed.

Lemma add_service_wf node_ok queue_ok now fn interval c rep w :
  svcs_wf w -> g_next_svc_id w < 2 ^ 31 - 1 ->
  svcs_wf (snd (add_service node_ok queue_ok now fn interval c rep w)).
Proof.
  intros Hwf Hmax. pose proof (wf_fresh w Hwf) as Hfresh. destruct Hwf as (Hnd & H0 & Hids).
  unfold add_service.
  destruct fn as [fn|]; [|exact (conj Hnd (conj H0 Hids))].
  destruct (g_initialized w); cbn [negb]; [|exact (conj Hnd (conj H0 Hids))].
  destruct node_ok; cbn [negb]; [|exact (conj Hnd (conj H0 Hids))].
  cbn [fst snd svc_id]. rewrite wrap32_small by lia.
  unfold svcs_wf.
  match goal with |- context [esp_bus_trigger queue_ok ?w1] =>
    destruct (trigger_services queue_ok w1) as (-> & -> & _) end.
  cbn [g_services g_next_svc_id set_services_next map svc_id].
  split; [apply List.NoDup_cons; assumption|]. split; [lia|].
  intros s [<-|Hs]; [cbn [svc_id]; lia|]. specialize (Hids s Hs). lia.
Qed.

Lemma add_service_id node_ok queue_ok now fn interval c rep w :
  fst (add_service node_ok queue_ok now fn interval c rep w) <> -1 ->
  fst (add_service node_ok queue_ok now fn interval c rep w) = g_next_svc_id w /\
  In (g_next_svc_id w)
     (map svc_id (g_services (snd (add_service node_ok queue_ok now fn interval c rep w)))).
Proof.
  unfold add_service.
  destruct fn as [fn|]; [|intros H; contradiction H; reflexivity].
  destruct (g_initialized w); cbn [negb]; [|intros H; contradiction H; reflexivity].
  destruct node_ok; cbn [negb]; [|intros H; contradiction H; reflexivity].
  intros _. cbn [fst snd svc_id]. split; [reflexivity|].
  match goal with |- context [esp_bus_trigger queue_ok ?w1] =>
    destruct (trigger_services queue_ok w1) as (-> & _ & _) end.
  left. reflexivity.
Qed.

Lemma remove_service_wf id w : svcs_wf w -> svcs_wf (remove_service id w).
Proof.
  intros (Hnd & H0 & Hids). unfold remove_service.
  destruct (negb (g_initialized w) || (id <? 0)); [exact (conj Hnd (conj H0 Hids))|].
  unfold svcs_wf. cbn [g_services set_services g_next_svc_id].
  split; [apply remove_svc_nodup, Hnd|]. split; [exact H0|].
  intros s Hs. apply Hids. eapply remove_svc_incl, Hs.
Qed.

Lemma run_services_wf now w : svcs_wf w -> svcs_wf (esp_bus_run_services now w).
Proof.
  intros (Hnd & H0 & Hids). rewrite run_services_eq. unfold svcs_wf.
  cbn [g_services set_services g_next_svc_id set_trace].
  split; [apply sweep_ids_nodup, Hnd|]. split; [exact H0|].
  intros s Hs.
  assert (Hin : In (svc_id s) (map svc_id (g_services w))).
  { eapply sweep_ids_in. apply in_map, Hs. }
  apply in_map_iff in Hin as (s0 & E & Hs0). rewrite <- E. apply Hids, Hs0.
Qed.

Lemma process_message_wf msg w : svcs_wf w -> svcs_wf (snd (process_message msg w)).
Proof.
  intros Hwf. unfold svcs_wf. destruct (process_message_services msg w) as [-> ->]. exact Hwf.
Qed.

(** X11.  Timer ids are unique.  Distinct ids below the counter are an
    invariant of the scheduler: [add_service] (behind [esp_bus_tick],
    [esp_bus_every] and [esp_bus_after]) hands out the counter's value, which
    no registered timer carries, as long as the counter stays below
    [INT32_MAX]; [remove_service], a sweep and the processing of a message
    keep it.  This is the assumption the one-shot property of C8 is stated
    under. *)
Theorem timer_ids_unique w :
  svcs_wf w ->
  (forall node_ok queue_ok now fn interval c rep,
     g_next_svc_id w < 2 ^ 31 - 1 ->
     svcs_wf (snd (add_service node_ok queue_ok now fn interval c rep w)) /\
     (fst (add_service node_ok queue_ok now fn interval c rep w) <> -1 ->
      fst (add_service node_ok queue_ok now fn interval c rep w) = g_next_svc_id w /\
      ~ In (g_next_svc_id w) (map svc_id (g_services w)) /\
      In (g_next_svc_id w)
         (map svc_id (g_services (snd (add_service node_ok queue_ok now fn interval c rep w)))))) /\
  (forall id, svcs_wf (remove_service id w)) /\
  (forall now, svcs_wf (esp_bus_run_services now w)) /\
  (forall msg, svcs_wf (snd (process_message msg w))).
Proof.
  intros Hwf. split; [|split; [|split]].
  - intros node_ok queue_ok now fn interval c rep Hmax.
    split; [apply add_service_wf; assumption|]. intros Hok.
    destruct (add_service_id _ _ _ _ _ _ _ _ Hok) as [Hid Hin].
    split; [exact Hid|]. split; [apply wf_fresh, Hwf | exact Hin].
  - intros id. apply remove_service_wf, Hwf.
  - intros now. apply run_services_wf, Hwf.
  - intros msg. apply process_message_wf, Hwf.
Qed.

Lemma sweeps_cancel_commute id nows : forall w1 w2,
  List.NoDup (map svc_id (g_services w2)) ->
  g_services w1 = remove_svc id (g_services w2) ->
  (forall id', id' <> id -> fired id' (bus_trace w1) = fired id' (bus_trace w2)) ->
  forall id', id' <> id ->
    fired id' (bus_trace (run_sweeps nows w1)) = fired id' (bus_trace (run_sweeps nows w2)).
Proof.
  unfold run_sweeps. induction nows as [|now nows IH]; intros w1 w2 Hnd Hss Hf; [exact Hf|].
  cbn [fold_left]. apply IH.
  - rewrite run_services_eq. cbn [g_services set_services]. apply sweep_ids_nodup, Hnd.
  - rewrite !run_services_eq. cbn [g_services set_services]. rewrite Hss.
    apply sweep_remove_commute, Hnd.
  - intros id' Hne. rewrite !run_services_eq. cbn [bus_trace set_services set_trace].
    rewrite !fired_app, !fired_svc_calls, Hss, (Hf id' Hne), remove_svc_others by exact Hne.
    reflexivity.
Qed.

(** X12.  A cancelled timer is silent: after [esp_bus_cancel id] (and
    [esp_bus_tick_del], the same function) no later sweep invokes the
    callback of [id], the id does not come back, and every other timer fires
    exactly as often as it would have without the call.  Cancelling an id
    that is not registered changes nothing. *)
Theorem cancel_stops_timer id nows w :
  g_initialized w = true -> svcs_wf w ->
  fired id (bus_trace (run_sweeps nows (esp_bus_cancel id w))) = fired id (bus_trace w) /\
  ~ In id (map svc_id (g_services (run_sweeps nows (esp_bus_cancel id w)))) /\
  (forall id', id' <> id ->
     fired id' (bus_trace (run_sweeps nows (esp_bus_cancel id w)))
     = fired id' (bus_trace (run_sweeps nows w))) /\
  (~ In id (map svc_id (g_services w)) -> esp_bus_cancel id w = w).
Proof.
  intros Hinit (Hnd & H0 & Hids). unfold esp_bus_cancel, remove_service.
  rewrite Hinit. cbn [negb orb].
  destruct (id <? 0) eqn:Eneg.
  - apply Z.ltb_lt in Eneg.
    assert (Habs : ~ In id (map svc_id (g_services w))).
    { rewrite in_map_iff. intros (s & E & Hs). specialize (Hids s Hs). lia. }
    destruct (absent_never_fires id nows w Habs) as [Hf Ha].
    split; [exact Hf|]. split; [exact Ha|]. split; reflexivity.
  - assert (Habs : ~ In id (map svc_id (g_services (set_services (remove_svc id (g_services w)) w)))).
    { cbn [g_services set_services]. apply remove_svc_gone, Hnd. }
    destruct (absent_never_fires id nows _ Habs) as [Hf Ha].
    split; [exact Hf|]. split; [exact Ha|]. split.
    + apply sweeps_cancel_commute; [exact Hnd | reflexivity | reflexivity].
    + intros Hno. rewrite remove_svc_absent by exact Hno. destruct w; reflexivity.
Qed.

Lemma quiet_sweeps nows : forall w s,
  List.NoDup (map svc_id (g_services w)) -> In s (g_services w) -> armed s ->
  (forall t, In t nows -> t < next_run_us s) ->
  fired (svc_id s) (bus_trace (run_sweeps nows w)) = fired (svc_id s) (bus_trace w) /\
  In s (g_services (run_sweeps nows w)) /\
  List.NoDup (map svc_id (g_services (run_sweeps nows w))).
Proof.
  unfold run_sweeps. induction nows as [|now nows IH]; intros w s Hnd Hin Harmed Hq.
  - split; [reflexivity|]. split; assumption.
  - cbn [fold_left]. rewrite run_services_eq. set (w1 := set_services _ _).
    assert (Hdue : due now s = false).
    { unfold due. assert (E : (next_run_us s <=? now) = false).
      { apply Z.leb_gt, Hq. left. reflexivity. }
      rewrite E. apply andb_false_r. }
    assert (Hkept : In s (g_services w1)).
    { apply sweep_keeps; [exact Hin|]. unfold after_sweep. rewrite Hdue.
      assert (Er : retired s = false).
      { unfold retired, armed in *.
        assert (En : (next_run_us s =? 0) = false) by (apply Z.eqb_neq; lia).
        rewrite En. apply andb_false_r. }
      rewrite Er. reflexivity. }
    assert (Hnd1 : List.NoDup (map svc_id (g_services w1))) by apply sweep_ids_nodup, Hnd.
    destruct (IH w1 s Hnd1 Hkept Harmed) as (Hf & Hi & Hn).
    { intros t Ht. apply Hq. right. exact Ht. }
    split; [|split; assumption]. rewrite Hf. subst w1. cbn [bus_trace set_services set_trace].
    rewrite fired_app, fired_svc_calls, (count_unique _ _ _ Hnd Hin), Hdue. lia.
Qed.

Lemma sweep_rearms now ss s :
  In s ss -> due now s = true -> svc_repeat s = true ->
  In (set_next_run (rearm_time now s) s) (omap (after_sweep now) ss).
Proof.
  intros Hin Hdue Hrep. induction ss as [|x ss IH]; [destruct Hin|]. cbn [omap list_omap].
  destruct Hin as [->|Hin].
  - unfold after_sweep at 1. rewrite Hdue, Hrep. left. reflexivity.
  - destruct (after_sweep now x); [right|]; apply IH, Hin.
Qed.

(** X13.  The period of a repeating timer.  A repeating timer that fires
    in a sweep at [now] does not fire again in any sweep before
    [now + interval], however many there are, and fires in the first sweep
    at or after that time: lateness is not made up by a burst. *)
Theorem repeating_timer_period now nows later w s :
  List.NoDup (map svc_id (g_services w)) -> In s (g_services w) ->
  svc_repeat s = true -> due now s = true ->
  0 <= now < 2 ^ 62 -> 0 <= interval_ms s < 2 ^ 32 ->
  (forall t, In t nows -> t < now + interval_ms s * 1000) ->
  now + interval_ms s * 1000 <= later ->
  fired (svc_id s) (bus_trace (run_sweeps nows (esp_bus_run_services now w)))
    = (fired (svc_id s) (bus_trace w) + 1)%nat /\
  fired (svc_id s)
    (bus_trace (esp_bus_run_services later (run_sweeps nows (esp_bus_run_services now w))))
    = (fired (svc_id s) (bus_trace w) + 2)%nat.
Proof.
  intros Hnd Hin Hrep Hdue Hnow Hint Hq Hlater.
  assert (Hpos : 0 < next_run_us s <= now).
  { unfold due in Hdue. apply andb_true_iff in Hdue as [H1 H2].
    apply Z.ltb_lt in H1. apply Z.leb_le in H2. lia. }
  set (s1 := set_next_run (rearm_time now s) s).
  assert (Hre : next_run_us s1 = now + interval_ms s * 1000).
  { subst s1. cbn [next_run_us set_next_run]. apply rearm_time_exact; assumption. }
  assert (Hf1 : fired (svc_id s) (bus_trace (esp_bus_run_services now w))
                = (fired (svc_id s) (bus_trace w) + 1)%nat).
  { rewrite run_services_eq. cbn [bus_trace set_services set_trace].
    rewrite fired_app, fired_svc_calls, (count_unique _ _ _ Hnd Hin), Hdue. reflexivity. }
  assert (Hin1 : In s1 (g_services (esp_bus_run_services now w))).
  { rewrite run_services_eq. cbn [g_services set_services]. apply sweep_rearms; assumption. }
  assert (Hnd1 : List.NoDup (map svc_id (g_services (esp_bus_run_services now w)))).
  { rewrite run_services_eq. cbn [g_services set_services]. apply sweep_ids_nodup, Hnd. }
  destruct (quiet_sweeps nows (esp_bus_run_services now w) s1 Hnd1 Hin1) as (Hf & Hi & Hn).
  { unfold armed. lia. }
  { intros t Ht. rewrite Hre. apply Hq, Ht. }
  change (svc_id s1) with (svc_id s) in Hf.
  split; [rewrite Hf; exact Hf1|].
  rewrite run_services_eq. cbn [bus_trace set_services set_trace].
  rewrite fired_app, fired_svc_calls.
  change (svc_id s) with (svc_id s1) at 2.
  rewrite (count_unique _ _ _ Hn Hi), Hf, Hf1.
  assert (Hd : due later s1 = true).
  { unfold due. rewrite Hre. apply andb_true_iff. split; [apply Z.ltb_lt | apply Z.leb_le]; lia. }
  rewrite Hd. lia.
Qed.

(** X14.  [esp_bus_after] from registration to firing: on a bus with
    distinct timer ids the call returns a fresh id, and over any later
    sweeps the callback is invoked once if some sweep reads a clock of at
    least [now + delay] and not at all otherwise. *)
Theorem after_fires_once queue_ok now delay fn c nows w :
  g_initialized w = true -> svcs_wf w -> g_next_svc_id w < 2 ^ 31 - 1 ->
  0 <= now < 2 ^ 62 -> 0 <= delay < 2 ^ 32 -> 0 < now + delay * 1000 ->
  fst (esp_bus_after true queue_ok now (Some fn) delay c w) = g_next_svc_id w /\
  fired (g_next_svc_id w)
    (bus_trace (run_sweeps nows (snd (esp_bus_after true queue_ok now (Some fn) delay c w))))
  = (fired (g_next_svc_id w) (bus_trace w)
     + if existsb (fun t => (now + delay * 1000 <=? t)%Z) nows then 1 else 0)%nat.
Proof.
  intros Hinit Hwf Hmax Hnow Hdelay Hpos.
  destruct (add_service_wf true queue_ok now (Some fn) delay c false w Hwf Hmax)
    as (Hnd' & _ & _).
  unfold esp_bus_after in *. revert Hnd'. unfold add_service. rewrite Hinit.
  cbn [negb fst snd svc_id]. intros Hnd'.
  split; [reflexivity|].
  set (s := {| svc_id := g_next_svc_id w; svc_fn := fn; svc_ctx := c; interval_ms := delay;
               next_run_us := wrap64 (now + delay * 1000); svc_repeat := false |}) in *.
  set (w' := esp_bus_trigger queue_ok _) in *.
  destruct (trigger_services queue_ok
              (set_services_next (s :: g_services w) (wrap32 (g_next_svc_id w + 1)) w))
    as (Hss & _ & Htr).
  fold w' in Hss, Htr. cbn [g_services set_services_next bus_trace] in Hss, Htr.
  assert (Hin : In s (g_services w')) by (rewrite Hss; left; reflexivity).
  assert (Hrun : next_run_us s = now + delay * 1000).
  { subst s. cbn [next_run_us]. apply wrap64_small. lia. }
  destruct (one_shot_once nows w' s Hnd' Hin eq_refl) as (Hf & _ & _).
  { unfold armed. lia. }
  change (svc_id s) with (g_next_svc_id w) in Hf. rewrite Hf, Htr.
  unfold due_at. rewrite Hrun. reflexivity.
Qed.

Lemma with_timers_wf : svcs_wf with_timers.
Proof.
  split; [exact with_timers_ids|]. split; [change (0 <= 2); lia|].
  intros s Hs. rewrite with_timers_services in Hs. change (g_next_svc_id with_timers) with 2.
  destruct Hs as [<-|[<-|[]]]; cbn [svc_id]; lia.
Qed.

Lemma ready_svcs_wf : svcs_wf ready.
Proof.
  split; [apply List.NoDup_nil|]. split; [change (0 <= 0); lia | intros s []].
Qed.

Lemma timer_ids_unique_witness :
  svcs_wf (esp_bus_run_services 1006000 with_timers).
Proof. exact (proj1 (proj2 (proj2 (timer_ids_unique with_timers with_timers_wf))) 1006000). Defined.

Lemma cancel_stops_timer_witness :
  fired 1 (bus_trace (run_sweeps [1050000; 1100000] (esp_bus_cancel 1 with_timers))) = 0%nat.
Proof.
  exact (proj1 (cancel_stops_timer 1 [1050000; 1100000] with_timers eq_refl with_timers_wf)).
Defined.

Lemma repeating_timer_period_witness :
  fired 1 (bus_trace (run_sweeps [1060000; 1089999] (esp_bus_run_services 1050000 with_timers)))
    = 1%nat /\
  fired 1 (bus_trace (esp_bus_run_services 1090000
                        (run_sweeps [1060000; 1089999]
                           (esp_bus_run_services 1050000 with_timers)))) = 2%nat.
Proof.
  apply (repeating_timer_period 1050000 [1060000; 1089999] 1090000 with_timers
           {| svc_id := 1; svc_fn := 12%nat; svc_ctx := 0; interval_ms := 40;
              next_run_us := 1040000; svc_repeat := true |}
           with_timers_ids (or_introl eq_refl) eq_refl eq_refl).
  - lia.
  - cbn [interval_ms]. lia.
  - cbn [interval_ms]. intros t [<-|[<-|[]]]; lia.
  - cbn [interval_ms]. lia.
Defined.

Lemma after_fires_once_witness :
  fired 0 (bus_trace (run_sweeps [1004000; 1005000; 1006000]
                        (snd (esp_bus_after true true 1000000 (Some 11%nat) 5 0 ready)))) = 1%nat.
Proof.
  apply (proj2 (after_fires_once true 1000000 5 11%nat 0 [1004000; 1005000; 1006000] ready
                  eq_refl ready_svcs_wf ltac:(change (0 < 2 ^ 31 - 1); lia)
                  ltac:(lia) ltac:(lia) ltac:(lia))).
Defined.

End Timers.

Section Lifecycle.

Lemma fold_free_routes rs : forall w,
  fold_left (fun w' r => free (req_data r) w') rs w = set_heap (release rs (bus_heap w)) w.
Proof.
  induction rs as [|r rs IH]; intros w; cbn [fold_left release].
  - symmetry. apply set_heap_same.
  - rewrite IH. unfold release. cbn [fold_left].
    destruct (req_data r); cbn [free bus_heap set_heap]; reflexivity.
Qed.

Lemma uninitialised_refuses w :
  g_initialized w = false ->
  (forall ok m, esp_bus_reg ok m w = (ESP_ERR_INVALID_ARG, w)) /\
  (forall nm, esp_bus_unreg nm w = (ESP_ERR_INVALID_ARG, w)) /\
  (forall env caller p req len res t,
     esp_bus_req env caller p req len res t w = ((ESP_ERR_INVALID_ARG, no_out), w)) /\
  (forall a q src evt data len, esp_bus_emit a q src evt data len w = (ESP_ERR_INVALID_ARG, w)) /\
  (forall ok p h c, esp_bus_sub ok p h c w = ((-1)%Z, w)) /\
  (forall id, esp_bus_unsub id w = w) /\
  (forall n d evt req data len, esp_bus_on n d evt req data len w = (ESP_ERR_INVALID_ARG, w)) /\
  (forall n evt fn c, esp_bus_on_fn n evt fn c w = (ESP_ERR_INVALID_ARG, w)) /\
  (forall evt req, esp_bus_off evt req w = (ESP_ERR_INVALID_ARG, w)) /\
  (forall n q now fn i c rep, add_service n q now fn i c rep w = ((-1)%Z, w)) /\
  (forall id, remove_service id w = w) /\
  (forall q, esp_bus_trigger q w = w) /\
  (forall nm x, esp_bus_exists nm w = false /\ esp_bus_has_action nm x w = false /\
                esp_bus_has_event nm x w = false) /\
  esp_bus_deinit w = (ESP_ERR_INVALID_STATE, w).
Proof.
  intros Hinit.
  repeat match goal with |- _ /\ _ => split end.
  - intros ok [m|]; [|reflexivity]. unfold esp_bus_reg. rewrite Hinit.
    destruct (name m); reflexivity.
  - intros [nm|]; [|reflexivity]. unfold esp_bus_unreg. rewrite Hinit. reflexivity.
  - intros env caller [p|] req len res t; [|reflexivity]. unfold esp_bus_req.
    rewrite Hinit. reflexivity.
  - intros a q [src|] [evt|] data len; try reflexivity. unfold esp_bus_emit.
    rewrite Hinit. reflexivity.
  - intros ok [p|] [h|] c; try reflexivity. unfold esp_bus_sub. rewrite Hinit. reflexivity.
  - intros id. unfold esp_bus_unsub. rewrite Hinit. reflexivity.
  - intros n d [evt|] [req|] data len; try reflexivity. unfold esp_bus_on.
    rewrite Hinit. reflexivity.
  - intros n [evt|] [fn|] c; try reflexivity. unfold esp_bus_on_fn. rewrite Hinit. reflexivity.
  - intros [evt|] req; [|reflexivity]. unfold esp_bus_off. rewrite Hinit. reflexivity.
  - intros n q now [fn|] i c rep; [|reflexivity]. unfold add_service. rewrite Hinit. reflexivity.
  - intros id. unfold remove_service. rewrite Hinit. reflexivity.
  - intros q. unfold esp_bus_trigger. rewrite Hinit. reflexivity.
  - intros nm x. unfold esp_bus_exists, esp_bus_has_action, esp_bus_has_event.
    rewrite Hinit. destruct nm, x; repeat split.
  - unfold esp_bus_deinit. rewrite Hinit. reflexivity.
Qed.

(** X15.  [esp_bus_deinit] on an initialised bus succeeds, empties the four
    registries and the queue and clears the initialised flag.  It frees the
    payload of every route and no other block: in particular the payload
    blocks owned by envelopes still queued stay allocated although the queue
    that referred to them is gone. *)
Theorem deinit_releases w :
  g_initialized w = true ->
  fst (esp_bus_deinit w) = ESP_OK /\
  g_initialized (snd (esp_bus_deinit w)) = false /\
  g_modules (snd (esp_bus_deinit w)) = [] /\
  g_subs (snd (esp_bus_deinit w)) = [] /\
  g_routes (snd (esp_bus_deinit w)) = [] /\
  g_services (snd (esp_bus_deinit w)) = [] /\
  bus_queue (snd (esp_bus_deinit w)) = [] /\
  bus_sems (snd (esp_bus_deinit w)) = bus_sems w /\
  bus_trace (snd (esp_bus_deinit w)) = bus_trace w /\
  (forall r p, In r (g_routes w) -> req_data r = Some p ->
     bus_heap (snd (esp_bus_deinit w)) !! p = None) /\
  (forall p, (forall r, In r (g_routes w) -> req_data r <> Some p) ->
     bus_heap (snd (esp_bus_deinit w)) !! p = bus_heap w !! p).
Proof.
  intros Hinit. unfold esp_bus_deinit. rewrite Hinit. cbn [negb fst snd].
  rewrite fold_free_routes.
  cbn [g_initialized g_modules g_subs g_routes g_services bus_queue bus_sems bus_trace bus_heap
       set_heap].
  repeat match goal with |- _ /\ _ => split end; try reflexivity.
  - intros r p Hr Hp. eapply release_frees; eassumption.
  - intros p Hp. apply release_frame, Hp.
Qed.

(** X16.  After [esp_bus_deinit] every operation of the interface refuses
    and leaves the bus unchanged, a second [esp_bus_deinit] included, until
    [esp_bus_init] is called again; that call starts from a zeroed bus:
    strict mode off, no error callback, ids restarting at zero. *)
Theorem deinit_then_refuses w :
  g_initialized w = true ->
  (forall ok m, esp_bus_reg ok m (snd (esp_bus_deinit w))
                = (ESP_ERR_INVALID_ARG, snd (esp_bus_deinit w))) /\
  (forall env caller p req len res t,
     esp_bus_req env caller p req len res t (snd (esp_bus_deinit w))
     = ((ESP_ERR_INVALID_ARG, no_out), snd (esp_bus_deinit w))) /\
  (forall a q src evt data len,
     esp_bus_emit a q src evt data len (snd (esp_bus_deinit w))
     = (ESP_ERR_INVALID_ARG, snd (esp_bus_deinit w))) /\
  (forall ok p h c, esp_bus_sub ok p h c (snd (esp_bus_deinit w))
                    = ((-1)%Z, snd (esp_bus_deinit w))) /\
  (forall n d evt req data len,
     esp_bus_on n d evt req data len (snd (esp_bus_deinit w))
     = (ESP_ERR_INVALID_ARG, snd (esp_bus_deinit w))) /\
  (forall n q now fn i c rep,
     add_service n q now fn i c rep (snd (esp_bus_deinit w))
     = ((-1)%Z, snd (esp_bus_deinit w))) /\
  (forall nm, esp_bus_exists nm (snd (esp_bus_deinit w)) = false) /\
  esp_bus_deinit (snd (esp_bus_deinit w)) = (ESP_ERR_INVALID_STATE, snd (esp_bus_deinit w)) /\
  (forall t,
     fst (esp_bus_init true true true t (snd (esp_bus_deinit w))) = ESP_OK /\
     g_initialized (snd (esp_bus_init true true true t (snd (esp_bus_deinit w)))) = true /\
     g_strict (snd (esp_bus_init true true true t (snd (esp_bus_deinit w)))) = false /\
     g_on_err (snd (esp_bus_init true true true t (snd (esp_bus_deinit w)))) = None /\
     g_next_sub_id (snd (esp_bus_init true true true t (snd (esp_bus_deinit w)))) = 0%Z /\
     g_next_svc_id (snd (esp_bus_init true true true t (snd (esp_bus_deinit w)))) = 0%Z).
Proof.
  intros Hinit.
  assert (Hoff : g_initialized (snd (esp_bus_deinit w)) = false).
  { unfold esp_bus_deinit. rewrite Hinit. reflexivity. }
  destruct (uninitialised_refuses _ Hoff)
    as (Hreg & _ & Hreq & Hemit & Hsub & _ & Hon & _ & _ & Hadd & _ & _ & Hq & Hde).
  repeat match goal with |- _ /\ _ => split end; try assumption.
  - intros nm. exact (proj1 (Hq nm None)).
  - intros t. unfold esp_bus_init. rewrite Hoff. repeat split.
Qed.

End Lifecycle.

Section ErrorReporting.

(** X17.  What the error callback sees.  With a callback installed, the
    resolution of a request makes exactly one invocation or none: either
    the module's handler is called (and whatever it returns, error codes
    included, is not reported), or the callback is called once with the
    pattern and the very code the resolution returns, which is one of
    invalid argument, not found and not supported, or -- unknown module,
    strict mode off -- nothing is called and the result is [ESP_OK]. *)
Theorem request_error_reporting cb pattern req len res w :
  g_on_err w = Some cb ->
  (exists m a c,
     bus_trace (snd (esp_bus_process_request pattern req len res w))
     = bus_trace w ++ [CallReq m a req len res c]) \/
  (exists msg,
     bus_trace (snd (esp_bus_process_request pattern req len res w))
     = bus_trace w ++ [CallOnErr pattern (fst (fst (esp_bus_process_request pattern req len res w))) msg] /\
     snd (fst (esp_bus_process_request pattern req len res w)) = no_out /\
     In (fst (fst (esp_bus_process_request pattern req len res w)))
        [ESP_ERR_INVALID_ARG; ESP_ERR_NOT_FOUND; ESP_ERR_NOT_SUPPORTED]) \/
  (esp_bus_process_request pattern req len res w = ((ESP_OK, no_out), w) /\ g_strict w = false).
Proof.
  intros Hcb. unfold esp_bus_process_request, esp_bus_report_error. rewrite Hcb.
  destruct (esp_bus_parse_pattern pattern) as [[[m a] sep]|].
  2: { right. left. eexists. cbn. split; [reflexivity|]. split; [reflexivity | left; reflexivity]. }
  destruct (negb (Ascii.eqb sep ".")).
  { right. left. eexists. cbn. split; [reflexivity|]. split; [reflexivity | left; reflexivity]. }
  destruct (esp_bus_find_module m w) as [node|].
  - destruct (mod_on_req node) as [h|].
    + left. exists (mod_name node), a, (mod_ctx node). reflexivity.
    + right. left. eexists. cbn. split; [reflexivity|]. split; [reflexivity|].
      right. right. left. reflexivity.
  - destruct (g_strict w) eqn:Es.
    + right. left. eexists. cbn. split; [reflexivity|]. split; [reflexivity|].
      right. left. reflexivity.
    + right. right. split; reflexivity.
Qed.

End ErrorReporting.

Section RouteRoundTrip.

Lemma off_sweep_none evt req rs : forall w,
  (forall r, In r rs -> off_selects evt req r = false) -> off_sweep evt req rs w = (rs, w).
Proof.
  induction rs as [|r rs IH]; intros w H; [reflexivity|]. cbn [off_sweep].
  rewrite (H r) by (left; reflexivity).
  rewrite IH by (intros r' Hr'; apply H; right; exact Hr'). reflexivity.
Qed.

(** X20.  A route added and removed: [esp_bus_on] followed by [esp_bus_off]
    with the same two patterns (both fitting the pattern buffer, and
    selecting no route that was there before) gives back the bus as it was,
    the payload copy freed -- whether or not the copy could be allocated. *)
Theorem on_off_round_trip data_ok evt req data len w :
  g_initialized w = true ->
  (length evt < ESP_BUS_PATTERN_MAX)%nat -> (length req < ESP_BUS_PATTERN_MAX)%nat ->
  (forall r, In r (g_routes w) -> ~ targeted evt (Some req) r) ->
  fst (esp_bus_on true data_ok (Some evt) (Some req) data len w) = ESP_OK /\
  esp_bus_off (Some evt) (Some req)
    (snd (esp_bus_on true data_ok (Some evt) (Some req) data len w)) = (ESP_OK, w).
Proof.
  intros Hinit Hevt Hreq Hnone.
  assert (Hte : strncpy evt (ESP_BUS_PATTERN_MAX - 1) = evt).
  { unfold strncpy. apply take_ge. unfold ESP_BUS_PATTERN_MAX in *. lia. }
  assert (Htr : strncpy req (ESP_BUS_PATTERN_MAX - 1) = req).
  { unfold strncpy. apply take_ge. unfold ESP_BUS_PATTERN_MAX in *. lia. }
  assert (Hsel : forall r, In r (g_routes w) -> off_selects evt (Some req) r = false).
  { intros r Hr. destruct (off_selects evt (Some req) r) eqn:E; [|reflexivity].
    apply off_selects_targeted in E. destruct (Hnone r Hr E). }
  unfold esp_bus_on. rewrite Hinit, Hte, Htr. cbn [negb].
  assert (Hnode : forall p n, off_selects evt (Some req)
                    {| evt_pattern := evt; req_pattern := req; req_data := p; req_len := n;
                       transform := None; route_ctx := 0%Z |} = true).
  { intros p n. unfold off_selects. cbn [evt_pattern req_pattern]. rewrite !streq_refl. reflexivity. }
  assert (Hplain : forall n,
            esp_bus_off (Some evt) (Some req)
              (set_routes ({| evt_pattern := evt; req_pattern := req; req_data := None;
                              req_len := n; transform := None; route_ctx := 0%Z |}
                           :: g_routes w) w) = (ESP_OK, w)).
  { intros n. unfold esp_bus_off. cbn [g_initialized set_routes negb g_routes off_sweep].
    rewrite Hinit, Hnode. cbn [negb req_data free].
    rewrite off_sweep_none by exact Hsel. destruct w; reflexivity. }
  destruct data as [bs|]; [destruct (0 <? len)%nat; [destruct data_ok|]|];
    cbn [malloc memcpy fst snd]; try (split; [reflexivity | apply Hplain]).
  split; [reflexivity|].
  unfold esp_bus_off, memcpy. cbn [g_initialized set_routes set_heap negb g_routes off_sweep bus_heap].
  rewrite Hinit, Hnode. cbn [negb req_data free bus_heap set_heap g_routes].
  rewrite off_sweep_none by exact Hsel.
  cbn [set_routes set_heap g_initialized g_strict g_on_err g_modules g_subs g_routes g_services
       g_next_sub_id g_next_svc_id g_task bus_queue bus_heap bus_sems bus_trace].
  rewrite insert_insert_eq, delete_insert_eq, delete_id
    by (apply not_elem_of_dom, is_fresh).
  destruct w; reflexivity.
Qed.

End RouteRoundTrip.

Section RoutedRequests.

Lemma report_error_extends pattern err msg w :
  exists l, esp_bus_report_error pattern err msg w = set_trace (bus_trace w ++ l) w.
Proof.
  unfold esp_bus_report_error, invoke. destruct (g_on_err w).
  - eexists. reflexivity.
  - exists []. rewrite app_nil_r. destruct w; reflexivity.
Qed.

Lemma process_request_extends pattern req len res w :
  exists l, snd (esp_bus_process_request pattern req len res w) = set_trace (bus_trace w ++ l) w.
Proof.
  unfold esp_bus_process_request.
  destruct (esp_bus_parse_pattern pattern) as [[[m a] sep]|];
    [|apply report_error_extends].
  destruct (negb (Ascii.eqb sep ".")); [apply report_error_extends|].
  destruct (esp_bus_find_module m w) as [node|].
  - destruct (mod_on_req node); [|apply report_error_extends].
    eexists. reflexivity.
  - destruct (g_strict w); [apply report_error_extends|].
    exists []. rewrite app_nil_r. destruct w; reflexivity.
Qed.

Lemma dispatch_route_extends evt full data len w r :
  exists l, dispatch_route evt full data len w r = set_trace (bus_trace w ++ l) w.
Proof.
  unfold dispatch_route. destruct (negb _).
  { exists []. rewrite app_nil_r. destruct w; reflexivity. }
  destruct (transform r) as [fn|]; [|apply process_request_extends].
  destruct (fn evt data len (route_ctx r)) as [[out_req out_data] out_len].
  destruct out_req as [q|]; [|eexists; reflexivity].
  destruct (process_request_extends q out_data out_len no_res
              (invoke (CallTransform (evt_pattern r) evt data len (route_ctx r)) w)) as [l ->].
  eexists. unfold invoke. cbn [bus_trace set_trace]. rewrite <- app_assoc. reflexivity.
Qed.




End RoutedRequests.

Section Scenarios.

Lemma deinit_releases_witness :
  fst (esp_bus_deinit with_bridge) = ESP_OK /\
  g_routes (snd (esp_bus_deinit with_bridge)) = [] /\
  bus_heap (snd (esp_bus_deinit with_bridge)) !! payload_block with_echo = None.
Proof.
  destruct (deinit_releases with_bridge eq_refl)
    as (Hok & _ & _ & _ & Hroutes & _ & _ & _ & _ & Hfreed & _).
  split; [exact Hok|]. split; [exact Hroutes|].
  apply (Hfreed {| evt_pattern := cs "btn1:short_press"; req_pattern := cs "echo.say";
                   req_data := Some (payload_block with_echo); req_len := 2;
                   transform := None; route_ctx := 0%Z |}).
  - left. reflexivity.
  - reflexivity.
Defined.

Lemma deinit_then_refuses_witness :
  esp_bus_deinit (snd (esp_bus_deinit with_echo))
  = (ESP_ERR_INVALID_STATE, snd (esp_bus_deinit with_echo)).
Proof.
  destruct (deinit_then_refuses with_echo eq_refl) as (_ & _ & _ & _ & _ & _ & _ & H & _).
  exact H.
Defined.

Lemma request_error_reporting_witness :
  (exists m a c,
     bus_trace (snd (esp_bus_process_request (cs "echo.say") None 0 no_res with_reporter))
     = bus_trace with_reporter ++ [CallReq m a None 0%nat no_res c]) \/
  (exists msg,
     bus_trace (snd (esp_bus_process_request (cs "echo.say") None 0 no_res with_reporter))
     = bus_trace with_reporter
       ++ [CallOnErr (cs "echo.say")
             (fst (fst (esp_bus_process_request (cs "echo.say") None 0 no_res with_reporter)))
             msg] /\
     snd (fst (esp_bus_process_request (cs "echo.say") None 0 no_res with_reporter)) = no_out /\
     In (fst (fst (esp_bus_process_request (cs "echo.say") None 0 no_res with_reporter)))
        [ESP_ERR_INVALID_ARG; ESP_ERR_NOT_FOUND; ESP_ERR_NOT_SUPPORTED]) \/
  (esp_bus_process_request (cs "echo.say") None 0 no_res with_reporter
   = ((ESP_OK, no_out), with_reporter) /\ g_strict with_reporter = false).
Proof.
  exact (request_error_reporting 9%nat (cs "echo.say") None 0 no_res with_reporter eq_refl).
Defined.

Lemma on_off_round_trip_witness :
  esp_bus_off (Some (cs "btn1:short_press")) (Some (cs "echo.say")) with_bridge
  = (ESP_OK, with_echo).
Proof.
  apply (on_off_round_trip true (cs "btn1:short_press") (cs "echo.say")
           (Some [Byte.x01; Byte.x02]) 2 with_echo eq_refl).
  - unfold ESP_BUS_PATTERN_MAX. cbn. lia.
  - unfold ESP_BUS_PATTERN_MAX. cbn. lia.
  - intros r [].
Defined.


(** An event with a payload still queued when the bus is shut down: the
    queue is gone, the payload block is still allocated. *)
Example deinit_leaves_queued_payload :
  let w := snd (esp_bus_emit true true (Some (cs "btn1")) (Some (cs "short_press"))
                  (Some [Byte.x2a]) 1 with_echo) in
  queue_blocks (bus_queue w) = [payload_block with_echo] /\
  bus_queue (snd (esp_bus_deinit w)) = [] /\
  bus_heap (snd (esp_bus_deinit w)) !! payload_block with_echo = Some [Byte.x2a].
Proof.
  cbn zeta. split; [reflexivity|]. split; [reflexivity|]. vm_compute. reflexivity.
Qed.

End Scenarios.

Section PublishSubscribe.

Lemma emitted_key_parses src evt :
  ~ In "." src -> ~ In ":" src -> ~ In "." evt ->
  (length src < ESP_BUS_NAME_MAX)%nat ->
  (length src + 1 + length evt < ESP_BUS_PATTERN_MAX)%nat ->
  esp_bus_parse_pattern (snprintf_colon ESP_BUS_PATTERN_MAX src evt)
  = Some (src, take (ESP_BUS_NAME_MAX - 1) evt, ":").
Proof.
  intros Hdot Hcolon Hedot Hsrc Hfit.
  assert (Hkey : snprintf_colon ESP_BUS_PATTERN_MAX src evt = src ++ ":" :: evt).
  { unfold snprintf_colon. apply take_ge. rewrite length_app. cbn [length].
    unfold ESP_BUS_PATTERN_MAX in *. lia. }
  rewrite Hkey.
  rewrite (parse_pattern_colon (src ++ ":" :: evt) src evt).
  - apply Nat.leb_gt in Hsrc. rewrite Hsrc. reflexivity.
  - intros Hin. apply in_app_or in Hin as [Hin|[Hin|Hin]];
      [exact (Hdot Hin) | discriminate Hin | exact (Hedot Hin)].
  - reflexivity.
  - exact Hcolon.
Qed.

(** The routes of a dispatch: what they add to the trace comes after what
    was there, holds no subscriber call, and is nothing when no route
    matches. *)
Lemma fold_routes_trace evt full data len w rs : forall t,
  exists l,
    fold_left (dispatch_route evt full data len) rs (set_trace t w) = set_trace (t ++ l) w /\
    (forall id, sub_calls id l = 0%nat) /\
    ((forall r, In r rs -> esp_bus_match_pattern (evt_pattern r) full = false) -> l = []).
Proof.
  induction rs as [|r rs IH]; intros t.
  - exists []. rewrite app_nil_r. repeat split.
  - cbn [fold_left].
    destruct (dispatch_route_extends evt full data len (set_trace t w) r) as [l0 Hl0].
    pose proof (fun id => dispatch_route_sub_calls id evt full data len (set_trace t w) r)
      as Hsub.
    assert (Hskip : esp_bus_match_pattern (evt_pattern r) full = false -> l0 = []).
    { intros Hno. rewrite (dispatch_route_skip _ _ _ _ _ _ Hno) in Hl0.
      assert (E : bus_trace (set_trace t w)
                  = bus_trace (set_trace (bus_trace (set_trace t w) ++ l0) (set_trace t w)))
        by (rewrite <- Hl0; reflexivity).
      cbn [bus_trace set_trace] in E.
      rewrite <- (app_nil_r t) in E at 1. apply app_inv_head in E. symmetry. exact E. }
    rewrite Hl0 in *. cbn [bus_trace set_trace] in *.
    change (set_trace (t ++ l0) (set_trace t w)) with (set_trace (t ++ l0) w).
    destruct (IH (t ++ l0)) as (l1 & Hfold & Hnone & Hempty).
    rewrite Hfold. exists (l0 ++ l1). rewrite app_assoc. split; [reflexivity|]. split.
    + intros id. specialize (Hsub id). rewrite !sub_calls_app in *.
      rewrite (Hnone id). lia.
    + intros Hno. rewrite Hskip by (apply Hno; left; reflexivity).
      rewrite Hempty by (intros r' Hr'; apply Hno; right; exact Hr'). reflexivity.
Qed.

(** X4. Dispatching an event calls every subscriber whose pattern matches the
    event key [src:evt], in list order, each with the event name, the payload
    and its length, whether or not a route matches as well.  These calls come
    right after what the trace held; what follows them is the work of the
    routes: it holds no subscriber call, and it is nothing when no route
    matches the key. *)
Theorem dispatch_reaches_matching_subscribers src evt data len w :
  exists l,
    esp_bus_dispatch_event src evt data len w =
    set_trace (bus_trace w ++
               map (sub_call evt data len)
                 (List.filter
                    (fun sub => esp_bus_match_pattern (sub_pattern sub)
                                  (snprintf_colon ESP_BUS_PATTERN_MAX src evt))
                    (g_subs w)) ++ l) w /\
    (forall id, sub_calls id l = 0%nat) /\
    ((forall r, In r (g_routes w) ->
        esp_bus_match_pattern (evt_pattern r) (snprintf_colon ESP_BUS_PATTERN_MAX src evt)
        = false) -> l = []).
Proof.
  unfold esp_bus_dispatch_event. rewrite fold_dispatch_sub. cbn [g_routes set_trace].
  match goal with
  | |- context [fold_left ?f (g_routes w) (set_trace ?t w)] =>
      destruct (fold_routes_trace evt (snprintf_colon ESP_BUS_PATTERN_MAX src evt) data len w
                  (g_routes w) t) as (l & Hfold & Hnone & Hempty)
  end.
  exists l. rewrite Hfold, <- app_assoc. repeat split; assumption.
Qed.

(** X22. An event emitted on an initialised bus with an empty queue, under a
    source and an event name that parse back, is accepted, and once the
    worker has drained the queue every subscriber whose pattern matches the
    key has been called, in list order, with the event name cut to the name
    length and the bytes that were copied, whether or not a route matches as
    well.  What follows these calls is the work of the routes: no subscriber
    call, and nothing when no route matches.  The copy is freed and the
    queue is empty again. *)
Theorem emit_delivers src evt data len w :
  g_initialized w = true -> bus_queue w = [] ->
  ~ In "." src -> ~ In ":" src -> ~ In "." evt ->
  (length src < ESP_BUS_NAME_MAX)%nat ->
  (length src + 1 + length evt < ESP_BUS_PATTERN_MAX)%nat ->
  fst (esp_bus_emit true true (Some src) (Some evt) data len w) = ESP_OK /\
  exists l,
    snd (worker_drain (snd (esp_bus_emit true true (Some src) (Some evt) data len w)))
    = set_trace
        (bus_trace w ++
         map (sub_call (take (ESP_BUS_NAME_MAX - 1) evt) (copied_bytes data len)
                (copied_len data len))
           (List.filter
              (fun sub => esp_bus_match_pattern (sub_pattern sub)
                 (snprintf_colon ESP_BUS_PATTERN_MAX src (take (ESP_BUS_NAME_MAX - 1) evt)))
              (g_subs w)) ++ l) w /\
    (forall id, sub_calls id l = 0%nat) /\
    ((forall r, In r (g_routes w) ->
        esp_bus_match_pattern (evt_pattern r)
          (snprintf_colon ESP_BUS_PATTERN_MAX src (take (ESP_BUS_NAME_MAX - 1) evt)) = false) ->
     l = []).
Proof.
  intros Hinit Hq Hdot Hcolon Hedot Hsrc Hfit.
  pose proof (emitted_key_parses src evt Hdot Hcolon Hedot Hsrc Hfit) as Hparse.
  assert (dispatch_trace : forall s e d n w0, exists l,
            esp_bus_dispatch_event s e d n w0 =
            set_trace (bus_trace w0 ++
                       map (sub_call e d n)
                         (List.filter
                            (fun sub => esp_bus_match_pattern (sub_pattern sub)
                                          (snprintf_colon ESP_BUS_PATTERN_MAX s e))
                            (g_subs w0)) ++ l) w0 /\
            (forall id, sub_calls id l = 0%nat) /\
            ((forall r, In r (g_routes w0) ->
                esp_bus_match_pattern (evt_pattern r) (snprintf_colon ESP_BUS_PATTERN_MAX s e)
                = false) -> l = [])).
  { intros s e d n w0. unfold esp_bus_dispatch_event. rewrite fold_dispatch_sub.
    cbn [g_routes set_trace].
    match goal with
    | |- context [fold_left ?f (g_routes w0) (set_trace ?t w0)] =>
        destruct (fold_routes_trace e (snprintf_colon ESP_BUS_PATTERN_MAX s e) d n w0
                    (g_routes w0) t) as (l & Hfold & Hnone & Hempty)
    end.
    exists l. rewrite Hfold, <- app_assoc. repeat split; assumption. }
  unfold esp_bus_emit. rewrite Hinit. cbn [negb].
  unfold copy_payload, malloc, memcpy, xQueueSend, worker_drain, copied_bytes, copied_len.
  destruct data as [bs|]; [destruct (0 <? len)%nat eqn:El|];
    cbn [fst snd bus_queue set_queue set_heap bus_heap]; rewrite Hq; cbn [app worker_run];
    unfold process_message;
    cbn [msg_type msg_pattern msg_data msg_len load bus_heap set_queue set_heap snd];
    rewrite Hparse; change (Ascii.eqb ":" ":") with true; cbv iota;
    (split; [reflexivity|]).
  - rewrite lookup_insert_eq. cbn [default].
    match goal with
    | |- context [esp_bus_dispatch_event ?s ?e ?d ?n ?w0] =>
        destruct (dispatch_trace s e d n w0) as (l & -> & Hnone & Hempty)
    end.
    exists l.
    cbn [free bus_heap set_trace set_queue set_heap g_subs g_routes bus_trace] in *.
    rewrite insert_insert_eq, delete_insert_eq, delete_id by (apply not_elem_of_dom, is_fresh).
    split; [|split; assumption].
    destruct w; cbn in Hq; subst; reflexivity.
  - apply Nat.ltb_ge in El. assert (len = 0%nat) as -> by lia.
    match goal with
    | |- context [esp_bus_dispatch_event ?s ?e ?d ?n ?w0] =>
        destruct (dispatch_trace s e d n w0) as (l & -> & Hnone & Hempty)
    end.
    exists l. cbn [free g_subs g_routes bus_trace set_queue] in *.
    split; [|split; assumption].
    destruct w; cbn in Hq; subst; reflexivity.
  - match goal with
    | |- context [esp_bus_dispatch_event ?s ?e ?d ?n ?w0] =>
        destruct (dispatch_trace s e d n w0) as (l & -> & Hnone & Hempty)
    end.
    exists l. cbn [free g_subs g_routes bus_trace set_queue] in *.
    split; [|split; assumption].
    destruct w; cbn in Hq; subst; reflexivity.
Qed.

Lemma emit_delivers_witness :
  exists l,
    snd (worker_drain (snd (esp_bus_emit true true (Some (cs "btn1")) (Some (cs "short_press"))
                              (Some [Byte.x2a]) 1 with_sub)))
    = set_trace
        (bus_trace with_sub ++
         map (sub_call (take (ESP_BUS_NAME_MAX - 1) (cs "short_press"))
                (copied_bytes (Some [Byte.x2a]) 1) (copied_len (Some [Byte.x2a]) 1))
           (List.filter
              (fun sub => esp_bus_match_pattern (sub_pattern sub)
                 (snprintf_colon ESP_BUS_PATTERN_MAX (cs "btn1")
                    (take (ESP_BUS_NAME_MAX - 1) (cs "short_press"))))
              (g_subs with_sub)) ++ l) with_sub /\
    (forall id, sub_calls id l = 0%nat) /\
    ((forall r, In r (g_routes with_sub) ->
        esp_bus_match_pattern (evt_pattern r)
          (snprintf_colon ESP_BUS_PATTERN_MAX (cs "btn1")
             (take (ESP_BUS_NAME_MAX - 1) (cs "short_press"))) = false) ->
     l = []).
Proof.
  refine (proj2 (emit_delivers (cs "btn1") (cs "short_press") (Some [Byte.x2a]) 1 with_sub
                   eq_refl eq_refl _ _ _ _ _)).
  - intros [H|[H|[H|[H|[]]]]]; discriminate H.
  - intros [H|[H|[H|[H|[]]]]]; discriminate H.
  - cbn. intros H. repeat (destruct H as [H|H]; [discriminate H|]). exact H.
  - unfold ESP_BUS_NAME_MAX. cbn. lia.
  - unfold ESP_BUS_PATTERN_MAX. cbn. lia.
Defined.

(** An event with a subscriber and a route: the subscriber is called first,
    then the route's request reaches the handler. *)
Example dispatch_subscriber_then_route :
  let w := snd (esp_bus_on true true (Some (cs "a:e")) (Some (cs "echo.say")) None 0
                  with_sub) in
  bus_trace (esp_bus_dispatch_event (cs "a") (cs "e") None 0 w)
  = [CallSub 0 5%nat (cs "e") None 0 0%Z; CallReq (cs "echo") (cs "say") None 0 no_res 7%Z].
Proof. vm_compute. reflexivity. Qed.

End PublishSubscribe.

Section Button.

Local Open Scope Z_scope.

Lemma emitted_app e l1 l2 : emitted e (l1 ++ l2) = (emitted e l1 + emitted e l2)%nat.
Proof. unfold emitted. rewrite List.filter_app, length_app. reflexivity. Qed.

Lemma btn_tick_pairing now level b :
  0 < now -> btn_paired b ->
  btn_paired (fst (btn_tick now level b)) /\
  (emitted BTN_SHORT (snd (btn_tick now level b)) + held b
   = emitted BTN_SHORT_REL (snd (btn_tick now level b))
     + emitted BTN_LONG_REL (snd (btn_tick now level b))
     + held (fst (btn_tick now level b)))%nat /\
  (emitted BTN_LONG (snd (btn_tick now level b)) + held_long b
   = emitted BTN_LONG_REL (snd (btn_tick now level b))
     + held_long (fst (btn_tick now level b)))%nat.
Proof.
  intros Hnow Hinv. unfold btn_tick, btn_check_long, read_pin.
  destruct b as [nm pin al lp dp db st raw lraw pc pt rt lpm du lf tid].
  unfold btn_paired, held, held_long in *.
  cbn [btn_state raw_state press_time_ms long_fired debounce_until_ms btn_active_low
       last_press_ms double_press_ms long_press_ms debounce_ms
       btn_set_raw btn_set_state btn_set_pressed btn_set_last_press btn_set_released
       btn_set_long_fired] in *.
  destruct (now <? du); [cbn [fst snd btn_state press_time_ms long_fired]; repeat split; tauto|].
  destruct al, level, raw, st, lf;
    cbn [negb Bool.eqb andb fst snd btn_state raw_state press_time_ms long_fired
         last_press_ms double_press_ms long_press_ms
         btn_set_raw btn_set_state btn_set_pressed btn_set_last_press btn_set_released
         btn_set_long_fired];
    repeat (match goal with
            | |- context [(?a =? ?b)] => destruct (a =? b) eqn:?
            | |- context [(?a <? ?b)] => destruct (a <? b) eqn:?
            | |- context [(?a <=? ?b)] => destruct (a <=? b) eqn:?
            end;
            cbn [negb Bool.eqb andb fst snd btn_state raw_state press_time_ms long_fired
                 last_press_ms double_press_ms long_press_ms
                 btn_set_raw btn_set_state btn_set_pressed btn_set_last_press btn_set_released
                 btn_set_long_fired app]);
    first
      [ exfalso;
        match goal with H : (_ =? 0) = true |- _ => apply Z.eqb_eq in H end;
        destruct Hinv as [Hinv _]; apply Hinv; [reflexivity | assumption]
      | split; [|split; reflexivity];
        first
          [ tauto
          | split; [intros _; lia | reflexivity]
          | split; [discriminate | intros H; contradiction H; reflexivity] ] ].
Qed.


(** X23.  Presses and releases come in pairs.  Polled at positive clock
    readings with any pin levels, a button whose bookkeeping is consistent
    stays so, and over the whole run it emits as many [short_press] events
    as releases ([short_release] or [long_release]), plus one while it is
    held; and as many [long_press] events as [long_release] events, plus one
    while it is held with the long press reported.  So every press is
    followed by exactly one release event before the next press, and that
    release is a [long_release] exactly when a [long_press] was emitted
    during the hold. *)
Theorem btn_press_release_pairing samples : forall btn,
  (forall now level, In (now, level) samples -> 0 < now) ->
  btn_paired btn ->
  btn_paired (fst (btn_ticks samples btn)) /\
  (emitted BTN_SHORT (snd (btn_ticks samples btn)) + held btn
   = emitted BTN_SHORT_REL (snd (btn_ticks samples btn))
     + emitted BTN_LONG_REL (snd (btn_ticks samples btn))
     + held (fst (btn_ticks samples btn)))%nat /\
  (emitted BTN_LONG (snd (btn_ticks samples btn)) + held_long btn
   = emitted BTN_LONG_REL (snd (btn_ticks samples btn))
     + held_long (fst (btn_ticks samples btn)))%nat.
Proof.
  induction samples as [|[now level] rest IH]; intros btn Hpos Hinv.
  - cbn. split; [exact Hinv|]. split; lia.
  - cbn [btn_ticks].
    destruct (btn_tick_pairing now level btn) as (Hinv1 & Hs1 & Hl1);
      [apply (Hpos now level); left; reflexivity | exact Hinv |].
    destruct (btn_tick now level btn) as [b1 evs1]. cbn [fst snd] in *.
    destruct (IH b1) as (Hinv2 & Hs2 & Hl2);
      [intros t l Hin; apply (Hpos t l); right; exact Hin | exact Hinv1 |].
    destruct (btn_ticks rest b1) as [b2 evs2]. cbn [fst snd] in *.
    split; [exact Hinv2|]. rewrite !emitted_app. split; lia.
Qed.

Lemma btn_tick_config now level b :
  btn_active_low (fst (btn_tick now level b)) = btn_active_low b.
Proof.
  unfold btn_tick, btn_check_long.
  repeat match goal with
         | |- context [if ?c then _ else _] => destruct c
         end; reflexivity.
Qed.

Lemma btn_quiet samples : forall b,
  btn_state b = false ->
  (forall t l, In (t, l) samples -> read_pin l b = false) ->
  snd (btn_ticks samples b) = [] /\ btn_state (fst (btn_ticks samples b)) = false.
Proof.
  induction samples as [|[now level] rest IH]; intros b Hst Hlow; [split; [reflexivity | exact Hst]|].
  cbn [btn_ticks].
  pose proof (btn_tick_config now level b) as Hcfg.
  assert (Hstep : snd (btn_tick now level b) = [] /\ btn_state (fst (btn_tick now level b)) = false).
  { unfold btn_tick, btn_check_long.
    rewrite (Hlow now level) by (left; reflexivity). rewrite Hst.
    destruct (now <? debounce_until_ms b); [split; [reflexivity | exact Hst]|].
    destruct (raw_state b); cbn [negb Bool.eqb andb fst snd btn_state btn_set_raw];
      rewrite ?Hst; split; reflexivity. }
  destruct (btn_tick now level b) as [b1 evs1]. cbn [fst snd] in *.
  destruct Hstep as [-> Hst1].
  destruct (IH b1 Hst1) as [Hev Hst2].
  { intros t l Hin. unfold read_pin. rewrite Hcfg. apply (Hlow t l). right. exact Hin. }
  destruct (btn_ticks rest b1) as [b2 evs2]. cbn [fst snd app] in *. split; assumption.
Qed.

(** X24.  Debounce: a released button whose pin reads pressed in one poll
    and released in every poll after it emits nothing and stays released,
    whatever the clock readings. *)
Theorem btn_glitch_rejected now level rest btn :
  btn_state btn = false -> raw_state btn = false ->
  (forall t l, In (t, l) rest -> read_pin l btn = false) ->
  snd (btn_ticks ((now, level) :: rest) btn) = [] /\
  btn_state (fst (btn_ticks ((now, level) :: rest) btn)) = false.
Proof.
  intros Hst Hraw Hlow. cbn [btn_ticks].
  pose proof (btn_tick_config now level btn) as Hcfg.
  assert (Hstep : snd (btn_tick now level btn) = [] /\
                  btn_state (fst (btn_tick now level btn)) = false).
  { unfold btn_tick, btn_check_long. rewrite Hst, Hraw.
    destruct (now <? debounce_until_ms btn); [split; [reflexivity | exact Hst]|].
    destruct (read_pin level btn); cbn [negb Bool.eqb andb fst snd btn_state btn_set_raw];
      rewrite ?Hst; split; reflexivity. }
  destruct (btn_tick now level btn) as [b1 evs1]. cbn [fst snd] in *.
  destruct Hstep as [-> Hst1].
  destruct (btn_quiet rest b1 Hst1) as [Hev Hst2].
  { intros t l Hin. unfold read_pin. rewrite Hcfg. apply (Hlow t l). exact Hin. }
  destruct (btn_ticks rest b1) as [b2 evs2]. cbn [fst snd app] in *. split; assumption.
Qed.

(** X25.  A press is reported: a released button, out of its debounce
    window, whose pin reads pressed in one poll and again in a poll at least
    [debounce_ms] later, emits [short_press] in that second poll -- followed
    by [double_press] or by nothing, never by a long press -- and records the
    press with its time. *)
Theorem btn_press_detected t1 t2 l1 l2 btn :
  btn_state btn = false -> raw_state btn = false -> debounce_until_ms btn <= t1 ->
  read_pin l1 btn = true -> read_pin l2 btn = true ->
  0 <= t1 < 2 ^ 62 -> 0 <= debounce_ms btn < 2 ^ 32 -> t1 + debounce_ms btn <= t2 ->
  0 < long_press_ms btn ->
  (snd (btn_ticks [(t1, l1); (t2, l2)] btn) = [BTN_SHORT] \/
   snd (btn_ticks [(t1, l1); (t2, l2)] btn) = [BTN_SHORT; BTN_DOUBLE]) /\
  btn_state (fst (btn_ticks [(t1, l1); (t2, l2)] btn)) = true /\
  press_time_ms (fst (btn_ticks [(t1, l1); (t2, l2)] btn)) = t2 /\
  last_press_ms (fst (btn_ticks [(t1, l1); (t2, l2)] btn)) = t2 /\
  press_count (fst (btn_ticks [(t1, l1); (t2, l2)] btn)) = to_uint32 (press_count btn + 1).
Proof.
  intros Hst Hraw Hdu H1 H2 Ht1 Hdb Ht2 Hlp.
  assert (Hstep1 : btn_tick t1 l1 btn = (btn_set_raw true (t1 + debounce_ms btn) btn, [])).
  { unfold btn_tick.
    assert (E1 : (t1 <? debounce_until_ms btn) = false) by (apply Z.ltb_ge; lia).
    rewrite E1, H1, Hraw. cbn [negb Bool.eqb]. rewrite wrap64_small by lia. reflexivity. }
  assert (Hstep2 : exists evs,
             btn_tick t2 l2 (btn_set_raw true (t1 + debounce_ms btn) btn)
             = (btn_set_last_press t2
                  (btn_set_pressed t2
                     (btn_set_state true (btn_set_raw true (t1 + debounce_ms btn) btn))), evs)
             /\ (evs = [BTN_SHORT] \/ evs = [BTN_SHORT; BTN_DOUBLE])).
  { unfold btn_tick, read_pin in *.
    cbn [debounce_until_ms btn_set_raw btn_active_low raw_state btn_state].
    assert (E2 : (t2 <? t1 + debounce_ms btn) = false) by (apply Z.ltb_ge; lia).
    rewrite E2, H2, Hst. cbn [negb Bool.eqb].
    unfold btn_check_long.
    cbn [btn_state long_fired btn_set_last_press btn_set_pressed btn_set_state btn_set_raw
         press_time_ms long_press_ms last_press_ms double_press_ms press_count negb andb].
    rewrite Z.sub_diag.
    assert (E3 : (long_press_ms btn <=? wrap64 0) = false) by (apply Z.leb_gt; exact Hlp).
    rewrite E3.
    destruct ((0 <? last_press_ms btn) && _); eexists; (split; [reflexivity|]);
      [right | left]; reflexivity. }
  destruct Hstep2 as (evs & Hstep2 & Hevs).
  cbn [btn_ticks]. rewrite Hstep1, Hstep2. cbn [fst snd app]. rewrite app_nil_r.
  split; [exact Hevs|]. repeat split.
Qed.

End Button.

Section ButtonRegistration.

Local Open Scope Z_scope.

Lemma reg_failure_unchanged ok m w :
  fst (esp_bus_reg ok m w) <> ESP_OK -> snd (esp_bus_reg ok m w) = w.
Proof.
  unfold esp_bus_reg. destruct m as [m|]; [|reflexivity].
  destruct (name m) as [nm|]; [|reflexivity].
  destruct (negb (g_initialized w)); [reflexivity|].
  destruct (esp_bus_find_module nm w); [reflexivity|].
  destruct ok; [|reflexivity]. intros H. contradiction H. reflexivity.
Qed.

Lemma reg_success_stored ok m nm w :
  name m = Some nm -> fst (esp_bus_reg ok (Some m) w) = ESP_OK ->
  snd (esp_bus_reg ok (Some m) w) =
  set_modules ({| mod_name := strncpy nm (ESP_BUS_NAME_MAX - 1); mod_on_req := on_req m;
                  mod_on_evt := on_evt m; mod_ctx := ctx m; mod_actions := actions m;
                  mod_events := events m |} :: g_modules w) w /\
  esp_bus_find_module nm w = None /\ g_initialized w = true.
Proof.
  intros Hname. unfold esp_bus_reg. rewrite Hname.
  destruct (g_initialized w); cbn [negb]; [|discriminate].
  destruct (esp_bus_find_module nm w); [discriminate|].
  destruct ok; [|discriminate]. intros _. repeat split.
Qed.

Lemma reg_unreg_restores ok m nm w :
  name m = Some nm -> (length nm < ESP_BUS_NAME_MAX)%nat ->
  fst (esp_bus_reg ok (Some m) w) = ESP_OK ->
  esp_bus_unreg (Some nm) (snd (esp_bus_reg ok (Some m) w)) = (ESP_OK, w).
Proof.
  intros Hname Hlen Hok.
  destruct (reg_success_stored ok m nm w Hname Hok) as (-> & Hfind & Hinit).
  assert (Htake : strncpy nm (ESP_BUS_NAME_MAX - 1) = nm).
  { unfold strncpy. apply take_ge. unfold ESP_BUS_NAME_MAX in *. lia. }
  rewrite Htake. unfold esp_bus_unreg, esp_bus_find_module.
  cbn [g_initialized set_modules g_modules find_module_in mod_name remove_module].
  rewrite Hinit, streq_refl. cbn [negb]. f_equal. destruct w; reflexivity.
Qed.

Lemma tick_outcome svc_ok queue_ok now fn interval c w :
  g_initialized w = true -> 0 <= g_next_svc_id w ->
  (svc_ok = false /\ esp_bus_tick svc_ok queue_ok now (Some fn) interval c w = (-1, w)) \/
  (svc_ok = true /\
   fst (esp_bus_tick svc_ok queue_ok now (Some fn) interval c w) = g_next_svc_id w /\
   g_modules (snd (esp_bus_tick svc_ok queue_ok now (Some fn) interval c w)) = g_modules w /\
   g_initialized (snd (esp_bus_tick svc_ok queue_ok now (Some fn) interval c w)) = true /\
   In {| svc_id := g_next_svc_id w; svc_fn := fn; svc_ctx := c; interval_ms := interval;
         next_run_us := wrap64 (now + interval * 1000); svc_repeat := true |}
      (g_services (snd (esp_bus_tick svc_ok queue_ok now (Some fn) interval c w)))).
Proof.
  intros Hinit H0. unfold esp_bus_tick, add_service. rewrite Hinit. cbn [negb].
  destruct svc_ok; cbn [negb]; [right | left; split; reflexivity].
  split; [reflexivity|]. cbn [fst snd svc_id]. split; [reflexivity|].
  unfold esp_bus_trigger, xQueueSend. cbn [g_initialized set_services_next negb].
  rewrite Hinit. cbn [negb]. destruct queue_ok; cbn [snd]; repeat split; try assumption;
    left; reflexivity.
Qed.

(** X26.  [esp_bus_btn_reg] when something fails.  On an initialised bus,
    whatever fails after the context is allocated, the context is freed; and
    if the name is shorter than [ESP_BUS_NAME_MAX] the bus is left exactly
    as it was.  With a longer name a failure to register the polling timer
    is not rolled back: [esp_bus_unreg] does not find the name, so the
    function returns [ESP_ERR_NO_MEM] while the module stays registered
    under the truncated name, its handler bound to the context that was just
    freed.  On success the context starts released or pressed as the pin
    reads, with positive times, and polled every 10 ms by a repeating
    timer. *)
Theorem btn_reg_rollback p gpio_err level node_ok svc_ok queue_ok now handler tick_fn nm cfg w :
  g_initialized w = true -> names_fit w -> 0 <= g_next_svc_id w ->
  (fst (fst (esp_bus_btn_reg (Some p) gpio_err level node_ok svc_ok queue_ok now handler
               tick_fn (Some nm) (Some cfg) w)) <> ESP_OK ->
   snd (fst (esp_bus_btn_reg (Some p) gpio_err level node_ok svc_ok queue_ok now handler
               tick_fn (Some nm) (Some cfg) w)) = None /\
   ((length nm < ESP_BUS_NAME_MAX)%nat ->
    snd (esp_bus_btn_reg (Some p) gpio_err level node_ok svc_ok queue_ok now handler
           tick_fn (Some nm) (Some cfg) w) = w)) /\
  ((ESP_BUS_NAME_MAX <= length nm)%nat -> gpio_err = ESP_OK -> node_ok = true ->
   svc_ok = false ->
   fst (esp_bus_btn_reg (Some p) gpio_err level node_ok svc_ok queue_ok now handler
          tick_fn (Some nm) (Some cfg) w) = (ESP_ERR_NO_MEM, None) /\
   exists node,
     esp_bus_find_module (take (ESP_BUS_NAME_MAX - 1) nm)
       (snd (esp_bus_btn_reg (Some p) gpio_err level node_ok svc_ok queue_ok now handler
               tick_fn (Some nm) (Some cfg) w)) = Some node /\
     mod_ctx node = p /\ mod_on_req node = Some handler) /\
  (fst (fst (esp_bus_btn_reg (Some p) gpio_err level node_ok svc_ok queue_ok now handler
               tick_fn (Some nm) (Some cfg) w)) = ESP_OK ->
   exists b,
     snd (fst (esp_bus_btn_reg (Some p) gpio_err level node_ok svc_ok queue_ok now handler
                 tick_fn (Some nm) (Some cfg) w)) = Some b /\
     tick_id b = g_next_svc_id w /\
     btn_state b = read_pin level b /\ raw_state b = read_pin level b /\
     press_time_ms b = 0 /\ last_press_ms b = 0 /\ long_fired b = false /\
     0 < long_press_ms b /\ 0 < double_press_ms b /\ 0 < debounce_ms b /\
     In {| svc_id := g_next_svc_id w; svc_fn := tick_fn; svc_ctx := p; interval_ms := 10;
           next_run_us := wrap64 (now + 10 * 1000); svc_repeat := true |}
        (g_services (snd (esp_bus_btn_reg (Some p) gpio_err level node_ok svc_ok queue_ok now
                            handler tick_fn (Some nm) (Some cfg) w)))).
Proof.
  intros Hinit Hfit H0. unfold esp_bus_btn_reg.
  set (module := {| name := Some nm; on_req := Some handler; on_evt := None; ctx := p;
                    actions := esp_bus_btn_actions; events := esp_bus_btn_events |}).
  destruct (gpio_err =? ESP_OK) eqn:Eg; cbn [negb].
  2: { apply Z.eqb_neq in Eg. cbn [fst snd]. split; [|split].
       - intros _. split; reflexivity.
       - intros _ Hg. contradiction.
       - intros Hok. contradiction. }
  pose proof (reg_failure_unchanged node_ok (Some module) w) as Hfail.
  pose proof (reg_success_stored node_ok module nm w eq_refl) as Hstored.
  pose proof (reg_unreg_restores node_ok module nm w eq_refl) as Hback.
  destruct (esp_bus_reg node_ok (Some module) w) as [err w1] eqn:Ereg. cbn [fst snd] in *.
  destruct (err =? ESP_OK) eqn:Ee; cbn [negb].
  2: { apply Z.eqb_neq in Ee. cbn [fst snd]. split; [|split].
       - intros _. split; [reflexivity | intros _; apply Hfail, Ee].
       - intros Hlong _ Hnode _. exfalso. apply Ee. subst node_ok.
         revert Ereg. unfold esp_bus_reg. cbn [name module]. rewrite Hinit. cbn [negb].
         rewrite (long_name_absent nm w Hfit Hlong). intros [= <- _]. reflexivity.
       - intros Hok. contradiction. }
  apply Z.eqb_eq in Ee. subst err.
  destruct (Hstored eq_refl) as (Hw1 & Hfind & _).
  assert (Hinit1 : g_initialized w1 = true) by (rewrite Hw1; exact Hinit).
  assert (H01 : 0 <= g_next_svc_id w1) by (rewrite Hw1; exact H0).
  assert (Hid1 : g_next_svc_id w1 = g_next_svc_id w) by (rewrite Hw1; reflexivity).
  destruct (tick_outcome svc_ok queue_ok now tick_fn 10 p w1 Hinit1 H01)
    as [[Hsvc Htick]|(Hsvc & Hid & Hmods & Hinit2 & Hin)].
  - rewrite Htick. cbn [Z.ltb Z.compare]. change (-1 <? 0) with true. cbv iota.
    split; [|split].
    + intros _.
      destruct (esp_bus_unreg (Some nm) w1) as [e3 w3] eqn:Eun. cbn [fst snd].
      split; [reflexivity|]. intros Hlen.
      specialize (Hback Hlen eq_refl). congruence.
    + intros Hlong _ _ _.
      assert (Habs : esp_bus_find_module nm w1 = None).
      { apply long_name_absent; [|exact Hlong]. rewrite Hw1.
        intros node [<-|Hn]; [|apply Hfit, Hn].
        cbn [mod_name]. unfold strncpy, ESP_BUS_NAME_MAX. rewrite length_take. lia. }
      unfold esp_bus_unreg. rewrite Hinit1, Habs. cbn [negb fst snd].
      split; [reflexivity|]. rewrite Hw1. eexists. unfold esp_bus_find_module.
      cbn [g_modules set_modules find_module_in mod_name]. unfold strncpy.
      rewrite streq_refl. repeat split.
    + destruct (esp_bus_unreg (Some nm) w1) as [e3 w3]. cbn [fst]. discriminate.
  - destruct (esp_bus_tick svc_ok queue_ok now (Some tick_fn) 10 p w1) as [id w2].
    cbn [fst snd] in *. subst id.
    assert (En : (g_next_svc_id w1 <? 0) = false) by (apply Z.ltb_ge; exact H01).
    rewrite En. cbn [fst snd]. split; [|split].
    + intros H. contradiction H. reflexivity.
    + intros _ _ _ Hs. congruence.
    + intros _. eexists. split; [reflexivity|].
      cbn [tick_id btn_state raw_state press_time_ms last_press_ms long_fired long_press_ms
           double_press_ms debounce_ms read_pin btn_active_low].
      rewrite <- Hid1.
      repeat split; try exact Hin;
        match goal with |- 0 < (if ?c then _ else _) => destruct c eqn:E; [apply Z.ltb_lt, E | lia] end.
Qed.

End ButtonRegistration.

Section Led.

Local Open Scope Z_scope.

Lemma wrap16_small z : - 2 ^ 15 <= z < 2 ^ 15 -> wrap16 z = z.
Proof. intros H. unfold wrap16. rewrite Z.mod_small; lia. Qed.

(** One step while more than one toggle remains. *)
Lemma led_blink_step_counting node_ok queue_ok now self_fn self x :
  1 < blink_count (led x) < 2 ^ 15 ->
  led_state (led (led_blink_step node_ok queue_ok now self_fn self x))
    = negb (led_state (led x)) /\
  blink_count (led (led_blink_step node_ok queue_ok now self_fn self x))
    = blink_count (led x) - 1 /\
  led_active_low (led (led_blink_step node_ok queue_ok now self_fn self x))
    = led_active_low (led x) /\
  gpio (led_blink_step node_ok queue_ok now self_fn self x)
    = gpio x ++ [if led_active_low (led x) then led_state (led x)
                 else negb (led_state (led x))].
Proof.
  intros Hc. unfold led_blink_step, led_toggle, led_set, led_set_hw.
  cbn [led gpio bus led_set_state led_set_count blink_count led_state led_active_low].
  assert (E1 : (0 <? blink_count (led x)) = true) by (apply Z.ltb_lt; lia).
  rewrite E1, wrap16_small by lia.
  assert (E2 : (blink_count (led x) - 1 =? 0) = false) by (apply Z.eqb_neq; lia).
  rewrite E2.
  destruct (esp_bus_after _ _ _ _ _ _ _) as [id w].
  cbn [led gpio led_set_timer led_state blink_count led_active_low].
  rewrite negb_involutive. repeat split.
Qed.

(** The last step of a counted blink. *)
Lemma led_blink_step_last node_ok queue_ok now self_fn self x :
  blink_count (led x) = 1 ->
  led_state (led (led_blink_step node_ok queue_ok now self_fn self x)) = false /\
  blink_count (led (led_blink_step node_ok queue_ok now self_fn self x)) = 0 /\
  timer_id (led (led_blink_step node_ok queue_ok now self_fn self x)) = -1 /\
  bus (led_blink_step node_ok queue_ok now self_fn self x) = bus x /\
  gpio (led_blink_step node_ok queue_ok now self_fn self x)
    = gpio x ++ [if led_active_low (led x) then led_state (led x)
                 else negb (led_state (led x)); led_active_low (led x)].
Proof.
  intros Hc. unfold led_blink_step, led_toggle, led_set, led_set_hw.
  cbn [led gpio bus led_set_state led_set_count blink_count led_state led_active_low].
  rewrite Hc. cbn [Z.ltb Z.compare Z.sub Z.add Z.opp Z.pos_sub wrap16].
  change (0 <? 1) with true. change (wrap16 (1 - 1)) with 0. change (0 =? 0) with true.
  cbn [led gpio bus led_set_timer led_set_state led_state blink_count timer_id led_active_low
       led_set_count].
  rewrite negb_involutive, <- app_assoc.
  repeat split. cbn [app]. destruct (led_active_low (led x)); reflexivity.
Qed.

Lemma led_blink_last_pair e1 e2 self_fn self x :
  led_state (led x) = true -> blink_count (led x) = 2 ->
  led_state (led (led_blink_steps [e1; e2] self_fn self x)) = false /\
  blink_count (led (led_blink_steps [e1; e2] self_fn self x)) = 0 /\
  timer_id (led (led_blink_steps [e1; e2] self_fn self x)) = -1 /\
  gpio (led_blink_steps [e1; e2] self_fn self x)
    = gpio x ++ [led_active_low (led x); negb (led_active_low (led x));
                 led_active_low (led x)].
Proof.
  intros Hs Hc. destruct e1 as [[n1 q1] t1], e2 as [[n2 q2] t2].
  unfold led_blink_steps. cbn [fold_left].
  destruct (led_blink_step_counting n1 q1 t1 self_fn self x) as (Hs1 & Hc1 & Ha1 & Hg1);
    [rewrite Hc; split; reflexivity|].
  remember (led_blink_step n1 q1 t1 self_fn self x) as x1 eqn:E1. clear E1.
  destruct (led_blink_step_last n2 q2 t2 self_fn self x1) as (Hs2 & Hc2 & Ht2 & _ & Hg2);
    [rewrite Hc1, Hc; reflexivity|].
  remember (led_blink_step n2 q2 t2 self_fn self x1) as x2 eqn:E2. clear E2.
  split; [exact Hs2|]. split; [exact Hc2|]. split; [exact Ht2|].
  rewrite Hg2, Hg1, Ha1, Hs1, Hs. rewrite <- app_assoc. cbn [app negb].
  destruct (led_active_low (led x)); reflexivity.
Qed.

Lemma led_blink_next_pair e1 e2 self_fn self x :
  led_state (led x) = true -> 2 < blink_count (led x) < 2 ^ 15 ->
  led_state (led (led_blink_steps [e1; e2] self_fn self x)) = true /\
  blink_count (led (led_blink_steps [e1; e2] self_fn self x)) = blink_count (led x) - 2 /\
  led_active_low (led (led_blink_steps [e1; e2] self_fn self x)) = led_active_low (led x) /\
  gpio (led_blink_steps [e1; e2] self_fn self x)
    = gpio x ++ [led_active_low (led x); negb (led_active_low (led x))].
Proof.
  intros Hs Hc. destruct e1 as [[n1 q1] t1], e2 as [[n2 q2] t2].
  unfold led_blink_steps. cbn [fold_left].
  destruct (led_blink_step_counting n1 q1 t1 self_fn self x) as (Hs1 & Hc1 & Ha1 & Hg1);
    [lia|].
  remember (led_blink_step n1 q1 t1 self_fn self x) as x1 eqn:E1. clear E1.
  destruct (led_blink_step_counting n2 q2 t2 self_fn self x1) as (Hs2 & Hc2 & Ha2 & Hg2);
    [lia|].
  remember (led_blink_step n2 q2 t2 self_fn self x1) as x2 eqn:E2. clear E2.
  split; [rewrite Hs2, Hs1, Hs; reflexivity|]. split; [lia|].
  split; [rewrite Ha2, Ha1; reflexivity|].
  rewrite Hg2, Hg1, Ha1, Hs1, Hs. rewrite <- app_assoc. cbn [app negb].
  destruct (led_active_low (led x)); reflexivity.
Qed.

Lemma led_blink_steps_app l1 l2 self_fn self x :
  led_blink_steps (l1 ++ l2) self_fn self x
  = led_blink_steps l2 self_fn self (led_blink_steps l1 self_fn self x).
Proof. unfold led_blink_steps. apply fold_left_app. Qed.

Lemma led_blink_pairs n : forall envs self_fn self x,
  led_state (led x) = true -> blink_count (led x) = 2 * Z.of_nat (S n) ->
  blink_count (led x) < 2 ^ 15 ->
  length envs = (2 * S n)%nat ->
  led_state (led (led_blink_steps envs self_fn self x)) = false /\
  blink_count (led (led_blink_steps envs self_fn self x)) = 0 /\
  timer_id (led (led_blink_steps envs self_fn self x)) = -1 /\
  gpio (led_blink_steps envs self_fn self x)
    = gpio x ++ [led_active_low (led x)] ++ blink_levels (led x) (S n).
Proof.
  induction n as [|n IH]; intros envs self_fn self x Hs Hc Hmax Hlen.
  - destruct envs as [|e1 [|e2 [|? ?]]]; try discriminate Hlen.
    destruct (led_blink_last_pair e1 e2 self_fn self x Hs Hc) as (Hs2 & Hc2 & Ht2 & Hg2).
    split; [exact Hs2|]. split; [exact Hc2|]. split; [exact Ht2|].
    rewrite Hg2. reflexivity.
  - destruct envs as [|e1 [|e2 rest]]; try discriminate Hlen.
    change (e1 :: e2 :: rest) with ([e1; e2] ++ rest). rewrite led_blink_steps_app.
    destruct (led_blink_next_pair e1 e2 self_fn self x Hs) as (Hs2 & Hc2 & Ha2 & Hg2); [lia|].
    remember (led_blink_steps [e1; e2] self_fn self x) as x2 eqn:E2. clear E2.
    assert (Hc2' : blink_count (led x2) = 2 * Z.of_nat (S n)) by lia.
    assert (Hm2 : blink_count (led x2) < 2 ^ 15) by lia.
    assert (Hl2 : length rest = (2 * S n)%nat) by (cbn [length] in Hlen; lia).
    destruct (IH rest self_fn self x2 Hs2 Hc2' Hm2 Hl2) as (Hs3 & Hc3 & Ht3 & Hg3).
    split; [exact Hs3|]. split; [exact Hc3|]. split; [exact Ht3|].
    rewrite Hg3, Hg2, Ha2. unfold blink_levels. rewrite Ha2.
    cbn [repeat concat]. rewrite <- !app_assoc. reflexivity.
Qed.

Lemma led_start_blink_led node_ok queue_ok now self_fn self on off count x :
  count <> 0 ->
  led_state (led (led_start_blink node_ok queue_ok now self_fn self on off count x)) = true /\
  blink_count (led (led_start_blink node_ok queue_ok now self_fn self on off count x))
    = (if count <? 0 then -1 else wrap16 (count * 2)) /\
  led_active_low (led (led_start_blink node_ok queue_ok now self_fn self on off count x))
    = led_active_low (led x) /\
  0 < on_ms (led (led_start_blink node_ok queue_ok now self_fn self on off count x)) /\
  0 < off_ms (led (led_start_blink node_ok queue_ok now self_fn self on off count x)) /\
  gpio (led_start_blink node_ok queue_ok now self_fn self on off count x)
    = gpio x ++ [negb (led_active_low (led x))].
Proof.
  intros Hc. unfold led_start_blink.
  assert (E : (count =? 0) = false) by (apply Z.eqb_neq; exact Hc). rewrite E.
  destruct (esp_bus_after _ _ _ _ _ _ _) as [id w].
  unfold led_stop_blink, led_set, led_set_hw.
  destruct (0 <=? timer_id (led x));
    cbn [led gpio bus led_set_timer led_set_state led_set_count led_set_times led_state
         blink_count led_active_low on_ms off_ms];
    (split; [reflexivity|]; split; [reflexivity|]; split; [reflexivity|];
     split; [destruct (0 <? on) eqn:Eo; [apply Z.ltb_lt, Eo | lia]|];
     split; [destruct (0 <? off) eqn:Eo; [apply Z.ltb_lt, Eo | lia]|];
     destruct (led_active_low (led x)); reflexivity).
Qed.

(** X27.  A counted blink comes to an end.  After [led_start_blink] with a
    count [n] between 1 and 16383, the [2n] invocations of the blink
    callback leave the LED off and the blink stopped (no count, no timer),
    whatever the outcome of the timer registrations; the pin has been driven
    on and off [n + 1] times, the last on being taken back at once. *)
Theorem led_blink_completes node_ok queue_ok now envs self_fn self on off count x :
  0 < count < 2 ^ 14 -> length envs = Z.to_nat (2 * count) ->
  led_state (led (led_blink_steps envs self_fn self
                    (led_start_blink node_ok queue_ok now self_fn self on off count x)))
    = false /\
  blink_count (led (led_blink_steps envs self_fn self
                      (led_start_blink node_ok queue_ok now self_fn self on off count x)))
    = 0 /\
  timer_id (led (led_blink_steps envs self_fn self
                   (led_start_blink node_ok queue_ok now self_fn self on off count x)))
    = -1 /\
  gpio (led_blink_steps envs self_fn self
          (led_start_blink node_ok queue_ok now self_fn self on off count x))
    = gpio x ++ blink_levels (led x) (S (Z.to_nat count)).
Proof.
  intros Hc Hlen.
  destruct (led_start_blink_led node_ok queue_ok now self_fn self on off count x)
    as (Hs & Hb & Ha & _ & _ & Hg); [lia|].
  assert (En : (count <? 0) = false) by (apply Z.ltb_ge; lia).
  rewrite En, wrap16_small in Hb by lia.
  destruct (Z.to_nat count) as [|n] eqn:Ecount; [lia|].
  destruct (led_blink_pairs n envs self_fn self
              (led_start_blink node_ok queue_ok now self_fn self on off count x))
    as (Hs' & Hc' & Ht' & Hg'); [exact Hs | lia | lia | lia |].
  split; [exact Hs'|]. split; [exact Hc'|]. split; [exact Ht'|].
  rewrite Hg', Hg, Ha. unfold blink_levels. rewrite Ha.
  cbn [repeat concat app]. rewrite <- app_assoc. reflexivity.
Qed.

Lemma led_blink_step_endless node_ok queue_ok now self_fn self x :
  blink_count (led x) < 0 ->
  blink_count (led (led_blink_step node_ok queue_ok now self_fn self x)) = blink_count (led x) /\
  led_state (led (led_blink_step node_ok queue_ok now self_fn self x))
    = negb (led_state (led x)) /\
  timer_id (led (led_blink_step node_ok queue_ok now self_fn self x))
    = fst (esp_bus_after node_ok queue_ok now (Some self_fn)
             (if negb (led_state (led x)) then on_ms (led x) else off_ms (led x)) self (bus x)).
Proof.
  intros Hc. unfold led_blink_step, led_toggle, led_set, led_set_hw.
  cbn [led gpio bus led_set_state led_set_count blink_count led_state led_active_low
       on_ms off_ms].
  assert (E1 : (0 <? blink_count (led x)) = false) by (apply Z.ltb_ge; lia).
  rewrite E1.
  destruct (esp_bus_after _ _ _ _ _ _ _) as [id w].
  cbn [led led_set_timer blink_count led_state timer_id fst]. repeat split.
Qed.

(** X28.  A count of 16384 or more never ends.  [led_start_blink] stores
    twice the count in an [int16_t]; from 16384 on the stored value is
    negative, which the blink callback treats like the count -1 of an
    endless blink: however often it is invoked, the count stays where it is
    and the LED keeps toggling. *)
Theorem led_blink_count_overflow node_ok queue_ok now envs self_fn self on off count x :
  2 ^ 14 <= count < 2 ^ 15 ->
  blink_count (led (led_blink_steps envs self_fn self
                      (led_start_blink node_ok queue_ok now self_fn self on off count x)))
    = 2 * count - 2 ^ 16 /\
  blink_count (led (led_blink_steps envs self_fn self
                      (led_start_blink node_ok queue_ok now self_fn self on off count x)))
    < 0 /\
  led_state (led (led_blink_steps envs self_fn self
                    (led_start_blink node_ok queue_ok now self_fn self on off count x)))
    = Nat.even (length envs).
Proof.
  intros Hc.
  destruct (led_start_blink_led node_ok queue_ok now self_fn self on off count x)
    as (Hs & Hb & _); [lia|].
  assert (En : (count <? 0) = false) by (apply Z.ltb_ge; lia).
  rewrite En in Hb.
  assert (Hw : wrap16 (count * 2) = 2 * count - 2 ^ 16).
  { unfold wrap16.
    replace (count * 2 + 2 ^ 15) with ((count * 2 - 2 ^ 15) + 1 * 2 ^ 16) by lia.
    rewrite Z.mod_add by lia. rewrite Z.mod_small by lia. lia. }
  rewrite Hw in Hb.
  set (x0 := led_start_blink node_ok queue_ok now self_fn self on off count x) in *.
  assert (Hgen : forall envs y,
            blink_count (led y) = 2 * count - 2 ^ 16 ->
            blink_count (led (led_blink_steps envs self_fn self y)) = 2 * count - 2 ^ 16 /\
            led_state (led (led_blink_steps envs self_fn self y))
              = if Nat.even (length envs) then led_state (led y) else negb (led_state (led y))).
  { clear -Hc. intros envs. induction envs as [|[[n1 q1] t1] envs IH]; intros y Hy.
    - split; [exact Hy | reflexivity].
    - unfold led_blink_steps in *. cbn [fold_left].
      destruct (led_blink_step_endless n1 q1 t1 self_fn self y) as (Hb1 & Hs1 & _); [lia|].
      destruct (IH (led_blink_step n1 q1 t1 self_fn self y)) as [Hb2 Hs2]; [lia|].
      split; [exact Hb2|]. rewrite Hs2, Hs1.
      change (length ((n1, q1, t1) :: envs)) with (S (length envs)).
      rewrite Nat.even_succ, <- Nat.negb_even.
      destruct (Nat.even (length envs)); cbn [negb]; [reflexivity | apply negb_involutive]. }
  destruct (Hgen envs x0 Hb) as [Hb' Hs'].
  split; [exact Hb'|]. split; [lia|]. rewrite Hs', Hs.
  destruct (Nat.even (length envs)); reflexivity.
Qed.

End Led.

Section LedTimer.

Local Open Scope Z_scope.

Lemma remove_service_frame id w :
  g_initialized (remove_service id w) = g_initialized w /\
  g_next_svc_id (remove_service id w) = g_next_svc_id w /\
  bus_trace (remove_service id w) = bus_trace w.
Proof.
  unfold remove_service. destruct (negb (g_initialized w) || (id <? 0)); repeat split.
Qed.

Lemma add_service_frame node_ok queue_ok now fn interval c rep w :
  g_initialized (snd (add_service node_ok queue_ok now fn interval c rep w)) = g_initialized w /\
  bus_trace (snd (add_service node_ok queue_ok now fn interval c rep w)) = bus_trace w.
Proof.
  unfold add_service. destruct fn as [fn|]; [|split; reflexivity].
  destruct (negb (g_initialized w)); [split; reflexivity|].
  destruct (negb node_ok); [split; reflexivity|].
  cbn [snd]. unfold esp_bus_trigger, xQueueSend.
  destruct (negb (g_initialized _)); [split; reflexivity|].
  destruct queue_ok; split; reflexivity.
Qed.

Lemma led_stop_blink_bus x :
  g_initialized (bus x) = true -> svcs_wf (bus x) ->
  g_initialized (bus (led_stop_blink x)) = true /\
  svcs_wf (bus (led_stop_blink x)) /\
  g_next_svc_id (bus (led_stop_blink x)) = g_next_svc_id (bus x) /\
  bus_trace (bus (led_stop_blink x)) = bus_trace (bus x).
Proof.
  intros Hinit Hwf. unfold led_stop_blink.
  destruct (0 <=? timer_id (led x)); cbn [bus];
    [|exact (conj Hinit (conj Hwf (conj eq_refl eq_refl)))].
  unfold esp_bus_cancel.
  destruct (remove_service_frame (timer_id (led x)) (bus x)) as (-> & -> & ->).
  split; [exact Hinit|]. split; [apply remove_service_wf, Hwf|]. split; reflexivity.
Qed.

(** X29.  Stopping a blink cancels its timer.  On an initialised bus with
    distinct timer ids, [led_start_blink] registers a one-shot timer under
    the id it records; after [led_stop_blink] the LED holds no timer and no
    count, that id is gone from the registry, and no later sweep invokes the
    blink callback for it. *)
Theorem led_stop_cancels_timer queue_ok now self_fn self on off count nows x :
  g_initialized (bus x) = true -> svcs_wf (bus x) -> g_next_svc_id (bus x) < 2 ^ 31 - 1 ->
  count <> 0 ->
  timer_id (led (led_start_blink true queue_ok now self_fn self on off count x))
    = g_next_svc_id (bus x) /\
  In (g_next_svc_id (bus x))
     (map svc_id (g_services (bus (led_start_blink true queue_ok now self_fn self on off
                                     count x)))) /\
  timer_id (led (led_stop_blink
                   (led_start_blink true queue_ok now self_fn self on off count x))) = -1 /\
  blink_count (led (led_stop_blink
                      (led_start_blink true queue_ok now self_fn self on off count x))) = 0 /\
  ~ In (g_next_svc_id (bus x))
       (map svc_id
          (g_services
             (run_sweeps nows
                (bus (led_stop_blink
                        (led_start_blink true queue_ok now self_fn self on off count x)))))) /\
  fired (g_next_svc_id (bus x))
    (bus_trace
       (run_sweeps nows
          (bus (led_stop_blink
                  (led_start_blink true queue_ok now self_fn self on off count x)))))
  = fired (g_next_svc_id (bus x)) (bus_trace (bus x)).
Proof.
  intros Hinit Hwf Hmax Hcount.
  destruct (led_stop_blink_bus x Hinit Hwf) as (HinitS & HwfS & HidS & HtrS).
  unfold led_start_blink.
  assert (E : (count =? 0) = false) by (apply Z.eqb_neq; exact Hcount). rewrite E.
  unfold led_set, led_set_hw. cbn [led gpio bus led_set_state on_ms].
  set (wS := bus (led_stop_blink x)) in *.
  set (ms := on_ms _).
  unfold esp_bus_after.
  pose proof (add_service_wf true queue_ok now (Some self_fn) ms self false wS HwfS
                ltac:(rewrite HidS; exact Hmax)) as Hwf1.
  destruct (add_service_id true queue_ok now (Some self_fn) ms self false wS) as [Hid Hin].
  { unfold add_service. rewrite HinitS. cbn [negb fst svc_id].
    destruct HwfS as (_ & H0 & _). lia. }
  destruct (add_service_frame true queue_ok now (Some self_fn) ms self false wS)
    as [Hinit1 Htr1].
  destruct (add_service true queue_ok now (Some self_fn) ms self false wS) as [id w1].
  cbn [fst snd] in *. subst id.
  cbn [led gpio bus led_set_timer timer_id]. rewrite HidS in *.
  split; [reflexivity|]. split; [exact Hin|].
  unfold led_stop_blink. cbn [led gpio bus led_set_timer timer_id].
  assert (E0 : (0 <=? g_next_svc_id (bus x)) = true).
  { apply Z.leb_le. destruct Hwf as (_ & H0 & _). exact H0. }
  rewrite E0. cbn [led gpio bus led_set_timer led_set_count timer_id blink_count].
  split; [reflexivity|]. split; [reflexivity|].
  unfold esp_bus_cancel, remove_service. rewrite Hinit1, HinitS. cbn [negb orb].
  assert (E1 : (g_next_svc_id (bus x) <? 0) = false).
  { apply Z.ltb_ge. destruct Hwf as (_ & H0 & _). exact H0. }
  rewrite E1.
  destruct (absent_never_fires (g_next_svc_id (bus x)) nows
              (set_services (remove_svc (g_next_svc_id (bus x)) (g_services w1)) w1))
    as [Hf Ha].
  { cbn [g_services set_services]. apply remove_svc_gone. destruct Hwf1 as [Hnd _]. exact Hnd. }
  split; [exact Ha|]. rewrite Hf. cbn [bus_trace set_services]. rewrite Htr1, HtrS. reflexivity.
Qed.

End LedTimer.

Section DeviceScenarios.

Local Open Scope Z_scope.

Lemma btn1_paired : btn_paired btn1.
Proof. split; [discriminate | intros H; contradiction H; reflexivity]. Qed.

(** Pressed at 0.1 s, released at 0.2 s; the pin is active low. *)
Lemma btn_press_release_pairing_witness :
  (emitted BTN_SHORT (snd (btn_ticks press_then_release btn1))
   + held btn1
   = emitted BTN_SHORT_REL
       (snd (btn_ticks press_then_release btn1))
     + emitted BTN_LONG_REL
         (snd (btn_ticks press_then_release btn1))
     + held (fst (btn_ticks press_then_release btn1)))%nat.
Proof.
  refine (proj1 (proj2 (btn_press_release_pairing
                          press_then_release btn1 _
                          btn1_paired))).
  intros now level [H|[H|[H|[H|[]]]]]; injection H as <- _; lia.
Defined.

Example btn_press_release_events :
  snd (btn_ticks press_then_release btn1)
  = [BTN_SHORT; BTN_SHORT_REL].
Proof. reflexivity. Qed.

Lemma btn_glitch_rejected_witness :
  snd (btn_ticks [(100, false); (130, true); (160, true)] btn1) = [] /\
  btn_state (fst (btn_ticks [(100, false); (130, true); (160, true)] btn1)) = false.
Proof.
  apply (btn_glitch_rejected 100 false [(130, true); (160, true)] btn1 eq_refl eq_refl).
  intros t l [H|[H|[]]]; injection H as _ <-; reflexivity.
Defined.

Lemma btn_press_detected_witness :
  btn_state (fst (btn_ticks [(100, false); (130, false)] btn1)) = true.
Proof.
  refine (proj1 (proj2 (btn_press_detected 100 130 false false btn1 eq_refl eq_refl _
                          eq_refl eq_refl _ _ _ _)));
    cbn [debounce_until_ms debounce_ms long_press_ms btn1]; lia.
Defined.

(** A button held while it is registered: the first poll after the long
    press time reports a long press that no short press preceded, and the
    release that follows is not reported at all. *)
Example btn_held_at_startup :
  let held_btn := btn_set_raw true 0 (btn_set_state true btn1) in
  snd (btn_ticks [(5000, false); (6000, true); (6030, true)] held_btn) = [BTN_LONG].
Proof. reflexivity. Qed.

Lemma btn_reg_rollback_witness :
  fst (esp_bus_btn_reg (Some 64) ESP_OK true true false true 1000000 echo_handler 3%nat
         (Some (cs "front_door_button"))
         (Some {| cfg_pin := 0; cfg_active_low := true; cfg_long_press_ms := 0;
                  cfg_double_press_ms := 0; cfg_debounce_ms := 0 |}) ready)
  = (ESP_ERR_NO_MEM, None) /\
  exists node,
    esp_bus_find_module (take (ESP_BUS_NAME_MAX - 1) (cs "front_door_button"))
      (snd (esp_bus_btn_reg (Some 64) ESP_OK true true false true 1000000 echo_handler 3%nat
              (Some (cs "front_door_button"))
              (Some {| cfg_pin := 0; cfg_active_low := true; cfg_long_press_ms := 0;
                       cfg_double_press_ms := 0; cfg_debounce_ms := 0 |}) ready))
    = Some node /\
    mod_ctx node = 64 /\ mod_on_req node = Some echo_handler.
Proof.
  refine (proj1 (proj2 (btn_reg_rollback 64 ESP_OK true true false true 1000000 echo_handler
                          3%nat (cs "front_door_button")
                          {| cfg_pin := 0; cfg_active_low := true; cfg_long_press_ms := 0;
                             cfg_double_press_ms := 0; cfg_debounce_ms := 0 |} ready
                          eq_refl ready_names_fit _)) _ eq_refl eq_refl eq_refl).
  - change (0 <= 0). lia.
  - unfold ESP_BUS_NAME_MAX. cbn. lia.
Defined.

Lemma led_blink_completes_witness :
  gpio (led_blink_steps [(true, true, 1200000); (true, true, 1400000);
                         (true, true, 1600000); (true, true, 1800000)] 4%nat 80
          (led_start_blink true true 1000000 4%nat 80 200 200 2 led1))
  = [false; true; false; true; false; true; false].
Proof.
  refine (proj2 (proj2 (proj2 (led_blink_completes true true 1000000
                                 [(true, true, 1200000); (true, true, 1400000);
                                  (true, true, 1600000); (true, true, 1800000)]
                                 4%nat 80 200 200 2 led1 _ _))));
    [lia | reflexivity].
Defined.

Lemma led_blink_count_overflow_witness :
  blink_count (led (led_blink_steps [(true, true, 1200000); (true, true, 1400000)] 4%nat 80
                      (led_start_blink true true 1000000 4%nat 80 200 200 20000 led1)))
  = 2 * 20000 - 2 ^ 16.
Proof.
  refine (proj1 (led_blink_count_overflow true true 1000000
                   [(true, true, 1200000); (true, true, 1400000)] 4%nat 80 200 200 20000 led1
                   _)).
  lia.
Defined.

Lemma led_stop_cancels_timer_witness :
  fired 0 (bus_trace
             (run_sweeps [1200000; 1400000]
                (bus (led_stop_blink
                        (led_start_blink true true 1000000 4%nat 80 200 200 3 led1)))))
  = fired 0 (bus_trace ready).
Proof.
  refine (proj2 (proj2 (proj2 (proj2 (proj2
            (led_stop_cancels_timer true 1000000 4%nat 80 200 200 3 [1200000; 1400000] led1
               eq_refl ready_svcs_wf _ _)))))).
  - change (0 < 2 ^ 31 - 1). lia.
  - discriminate.
Defined.

End DeviceScenarios.

Section TransformRoutes.



End TransformRoutes.

Section TransformScenario.


End TransformScenario.
